(* ===== verification/_CoqProject ===== *)
-Q . S2P
Prelude.v
Double.v
Grid.v
Random.v
Food.v
Snake.v
Direction.v
Engine.v
Machine.v
Tick.v
Spec.v
Scheduler.v
Render.v
App.v
