(* ===== verification/Prelude.v ===== *)
(** * A verification development of the snake game of SNAKE_GAME_MNSUAM

    The program is a React/TypeScript snake game of two files:

    - [src/hooks/useSnakeGame.ts], the hook [useSnakeGame] that owns the
      whole game: its [useState] cells ([gameState], [gameMode],
      [difficulty], [snake], [food], [direction], [score], [highScore],
      [timeLeft], [isPaused], [bonusFood]), its refs ([directionRef],
      [speedRef], [gameLoopRef]) and its callbacks ([generateFood],
      [handleGameOver], [togglePause], [resetGame], [moveSnake],
      [handleDirection], the keydown listener) with the effects that arm
      the timers (the game loop [setInterval(moveSnake, speedRef.current)],
      the one-second countdown of the timed mode, the five-second
      bonus-food timeout);
    - [src/components/SnakeGame.tsx], the component that renders the
      state and decides which user events exist in which game state
      (difficulty and mode buttons in MENU, pause buttons and touch arrows
      while PLAYING, "Change Mode" and "Try Again" in GAME_OVER).

    The parts interact by calls and through the shared hook state: the
    game loop calls [moveSnake], which calls [generateFood] and
    [handleGameOver]; the countdown calls [handleGameOver]; the keyboard
    listener and the touch arrows call [handleDirection], which writes
    [directionRef], which the next [moveSnake] reads.

    ** Files, in dependency order

    - [Prelude] (this file): the random-source state monad [RandM] (with
      stdpp's [x ← m; k] notation), the pipeline notation [g |> f] of
      [snake_scope] for a sequence of state updates, the tactics
      [rand_simpl], [destruct_pairs], [decide_prop], [invc], the hint
      databases [snake] and [snake_run], and the shared lemmas on
      [removelast] (JavaScript's [pop]) and on floor division.
    - [Double]: IEEE-754 binary64 rounding of a non-negative integer to
      53 significant bits ([roundDouble]), the value of
      [Math.floor(x * n)] for a draw [x] ([floorScaled]), and the double
      nearest to a decimal literal ([doubleLiteral]), with the bounds of
      the rounding.
    - [Grid]: [Point], [GRID_SIZE], the wall test of [moveSnake]
      ([wallCollision]), the segment comparison of [generateFood] and of
      the self-collision test ([samePoint], [onSnake]); the board as the
      list [cells] of its 400 cells, and the pigeonhole lemmas
      [cells_covered] and [length_in_grid].
    - [Random]: the interface of [Math.random()]: the class [MathRandom]
      (one draw, the numerator [k] of the double [k / 2^53]) and its
      contract [MathRandomLaws] (the draw is in range); [randomInt] is
      [Math.floor(Math.random() * n)], [mathRandomGt] is
      [Math.random() > p]; [Tape], a list of draws, is a concrete source
      that discharges the contract and makes runs computable.  Every
      client theorem assumes only the contract.
    - [Food]: [generateFood], the rejection-sampling [while (true)] loop,
      on a fuel argument.
    - [Snake]: [advance] (the new head), [growTo] ([[newHead, ...prev]]),
      [moveTo] (the same then [pop()]), and the snake invariant
      [snake_wf] (non-empty, no duplicate, on the board, consecutive
      segments neighbours) with its preservation by both moves.
    - [Direction]: the keys ['UP' | 'DOWN' | 'LEFT' | 'RIGHT'], the guard
      of [handleDirection] ([blocked], [dirVector], [turn]) and the keydown
      listener [handleKeyDown].
    - [Engine]: the hook state as the record [Game]; one setter per
      [useState] setter or ref write; the callbacks [handleGameOver],
      [togglePause], [expireBonus], [timerTick], [handleDirection],
      [resetGame] and [moveSnake] (with its parts [ateBonusAt], [eatBonus],
      [rollBonus], [spawnBonus], [eatFood], [applySpeedRamp]), composed
      from the setters in the order the code calls them.  A callback that
      draws random numbers runs in [RandM] and returns an [Outcome]: the
      next state or the [Fault] that stopped it.  [tick_result] inverts a
      completed tick into its four branches; [game_wf] is the invariant of
      the hook state, preserved by each branch.
    - [Machine]: the events ([Event]: the timers, the keyboard, the touch
      arrows and the buttons), the condition under which each can fire
      ([enabled]: an effect's guard or the JSX condition around a button),
      the callback each runs ([step]), and the states [reachable] from
      [initialGame].
    - [Tick]: what one [moveSnake] does on each branch, and where it
      departs from the spec.
    - [Spec]: the spec's per-tick algorithm as the relation [spec_tick] on
      an abstract state, and the refinement of [moveSnake] into it.
    - [Scheduler]: time and the three timers.  [Sched] adds to the hook
      state the current time in ms and the handle of each timer (its due
      time and period): [gameLoopRef], the countdown's interval and the
      bonus timeout.  [armGameLoop], [armCountdown] and [armBonus] are the
      bodies of the three effects, [loopDeps] and [countdownDeps] their
      dependency lists, and [commit] is React's effect phase after a
      render: each effect whose dependencies changed is cleaned up and run
      again.  [sstep] is one step of the whole system: a user event at any
      instant before the next due timer, or the firing of the earliest
      timer; [srun] a sequence of steps.  [sched_inv] is its invariant.
    - [Render]: [SnakeGame.tsx] as a function of the state: [render] (the
      hydration skeleton, then the panels of the page), [boardSprites]
      (the food, the bonus and the snake's segments with their positions
      in percent, exact rationals, and the head's rotation
      [headRotation]) and [buttons] (the events of the rendered controls).
    - [App]: the component around the hook.  [HookResult] is the object
      [useSnakeGame] returns and [SnakeGame] destructures
      ([useSnakeGame g] for a render of [g]), [onControl] the handlers of
      the page's controls through it.  [App] adds the component's
      [mounted] state, the window's keydown listeners and whether the
      component is in the tree; [mountCommit] runs the effects of the
      first commit in declaration order ([bonusEffect], [inputEffect],
      [loopEffect], [timerEffect], then [mountedEffect]), [unmountApp]
      their cleanups, and [astep] interleaves the commit, the hook's
      timers ([Scheduler.sstep]), clicks on rendered controls, key
      presses the window delivers to its listeners ([dispatchKey]), and
      the unmount.

    ** What is proved

    - Invariant: every reachable state satisfies [game_wf]
      ([Machine.reachable_wf]); so the snake never exceeds the 400 cells
      of the board ([Machine.reachable_snake_length]).
    - Function of a tick, one theorem per branch: wall and self collision
      end the game ([Tick.moveSnake_wall_game_over],
      [Tick.moveSnake_self_game_over]), eating scores and grows
      ([Tick.moveSnake_eat_food]), a plain move shifts
      ([Tick.moveSnake_plain_move]), the speed ramp
      ([Tick.moveSnake_speed], [Tick.rampSpeed_iter]), the only failure
      ([Tick.moveSnake_failure]).
    - Double arithmetic: [Math.floor(Math.random() * n)] is below [n] and
      is the exact floor of the product or one more
      ([Random.randomInt_rounding]); it is one more only when the exact
      product lies within its rounding error below the result, and that
      carry does happen on the board
      ([Random.randomInt_carry_only_at_boundary]); the bonus roll of a
      food tick draws only when no bonus is shown and succeeds exactly
      on the draws above [0.8] but the double [0.8] itself
      ([Tick.rollBonus_threshold]).
    - The food generator: sound ([Food.generateFood_sound]) and
      terminating as soon as a free cell is drawn
      ([Food.generateFood_terminates]).
    - Sessions: the timed countdown ends the game exactly once
      ([Machine.countdown_ends_game]); pause disarms the timers and
      resuming restores the state ([Machine.pause_suspends_timers]); the
      high score only rises at game over ([Machine.step_highScore]);
      [resetGame] starts a fresh game ([Machine.resetGame_fresh]).
    - Refinement: a completed tick is a step of the spec's algorithm
      whenever food and bonus are apart ([Spec.moveSnake_refines_spec]),
      and every step of it is a tick for some random draws
      ([Spec.spec_tick_realized]).
      The timed system refines the event machine: every state it reaches
      is [Machine]-reachable, with each timer armed exactly when its event
      is enabled ([Scheduler.sched_refines_machine]).
    - Timers: pause then resume restarts the loop and the countdown from a
      full interval ([Scheduler.pause_resume_rearms]); a new tick interval
      re-arms the loop at once ([Scheduler.speed_change_rearms_loop]);
      every armed timer runs at its current period and is due within one
      period ([Scheduler.timers_run_at_period]); a key press or a touch
      arrow leaves every timer as it was, the game loop keeping its phase
      ([Scheduler.direction_input_keeps_timers]).
    - The page's lifecycle: while mounted the window has exactly one
      keydown listener and the hook's state is one [Scheduler] reaches, so
      the theorems above hold of the page; after the unmount no listener
      and no timer is left ([App.app_lifecycle]).  Its proof goes through
      [onControl_step]: the controls' handlers, written against the hook's
      return value, are the callbacks [Machine.step] runs.
    - Rendering: every drawn cell lies inside the board
      ([Render.boardSprites_in_board]); the head's rotation encodes the
      last move ([Render.headRotation_roundtrip]); the page shows one panel
      at a time ([Render.render_wf]); the drawn cells are distinct exactly
      when the bonus is off the food ([Render.boardSprites_distinct]).
    - Findings, proved as theorems: the tick that fills the board never
      returns ([Tick.moveSnake_full_board_hangs]); two direction requests
      between ticks reverse the snake into its neck
      ([Tick.handleDirection_two_requests_game_over]), which one request
      cannot ([Tick.handleDirection_single_request_safe]); food and bonus
      can share a cell ([Tick.food_bonus_coincide_reachable]) and are then
      both eaten for 11 points ([Tick.moveSnake_food_and_bonus]), which is
      no step of the spec ([Spec.moveSnake_food_and_bonus_not_spec]).
      Every score change restarts the one-second countdown, so a player
      who scores at least once a second never loses a second
      ([Scheduler.countdown_waits_after_score]), and so does every resume,
      so that pausing and resuming within each second stalls the clock
      ([Scheduler.countdown_waits_after_resume]); the bonus timeout keeps
      running while paused ([Scheduler.bonus_expires_while_paused]); a new
      game draws the head facing up while the snake moves right
      ([Render.resetGame_head_faces_up]).

    ** Bounds and fuel

    The only loop of the program is [generateFood]'s [while (true)].  It
    is modelled with a fuel argument; running out of fuel is the fault
    [NoFreeCell] of a tick, never a silent result.  No fuel is assumed
    large enough: [Food.generateFood_terminates] states that the loop
    returns within [k + 1] rounds when its [k]-th draw is free, and
    [Tick.moveSnake_full_board_hangs] that it returns for no fuel when the
    snake covers the board.  Integers are [Z]: coordinates below 20,
    scores and intervals of at most 200 ms are far from the 2^53 range
    where JavaScript numbers stop being exact, so no wrap-around is
    modelled.  [Math.random()] is a multiple of [2^-53] in [[0, 1)]; the
    product [Math.random() * 20] is rounded to a double as JavaScript
    does ([Double.roundDouble], round to nearest, ties to even), and the
    literal [0.8] is the double nearest to it ([Double.doubleLiteral]).  [Scheduler]'s clock is an
    unbounded [Z] of milliseconds; its periods (at most 5000 ms) are far
    below the 2^31 ms at which browsers clamp a delay, so no clamping is
    modelled.  Its runs need no fuel: a run is a finite list of steps, and
    the witnesses evaluate their runs with [loopRun] and the readiness
    tests [loopReady], [countReady] and [userReady].

    ** React semantics assumed

    One timer firing or one user event is one atomic update of the state:
    the updater functions queued during a callback
    ([setScore((s) => s + 10)], [setSnake((prev) => ...)]) are applied in
    order, and a setter called twice keeps its last value.  The callbacks
    read the state of the last render ([food], [bonusFood], [gameMode],
    [score] in their closures); the effects re-create them after every
    render that changes their dependencies, and this model assumes the
    effects run before the next timer fires, so a callback reads the
    current state; [Scheduler] makes this explicit, each step ending with
    [commit].  Effects compare their dependencies by value, which is what
    React's [Object.is] does on this program: new [food] and [bonusFood]
    objects are created only with a change of score or game state, or
    from [null].  Strict-mode double invocation is not modelled.  The
    random state of each step of [reachable] is arbitrary, which covers
    every run of the real [Math.random].

    ** Not modelled

    Every line of the two source files that computes or changes state is
    modelled; what is left is outside the program or carries no state:
    - strict mode, the double invocation of updaters and effects in
      development builds (not part of the production behaviour);
    - the algorithm and distribution of the engine's generator behind
      [Math.random()], which is the JavaScript engine's, not this
      program's: only the range of its results is assumed;
    - the browser's side of events: [dispatchKey] is the window calling
      its listeners in order, and a key pressed before the first commit
      reaches no listener and is left out of [astep];
    - rendering details that carry no state: CSS classes, the markup of
      the head, the rounding of [(x / 20) * 100] to a double and its
      printing into a style string, React keys, the imports. *)

From stdpp Require Export base list sets.
From Stdlib Require Export ZArith Lia.

Declare Scope snake_scope.
Delimit Scope snake_scope with snake.
Open Scope Z_scope.

(** ** The random-source state monad

    [Math.random()] is the only effect the game's pure logic performs.
    A computation that draws random numbers is a function of the state of
    the random source, returning its value and the next state. *)

Definition RandM (S A : Type) : Type := S -> A * S.

#[export] Instance RandM_ret {S} : MRet (RandM S) := fun A a s => (a, s).
#[export] Instance RandM_bind {S} : MBind (RandM S) :=
  fun A B k m s => let '(a, s') := m s in k a s'.

(** A sequence of state updates, written in the order the code performs
    them: [g |> setScore 0 |> setTimeLeft 60]. *)
Notation "g |> f" := (f g) (at level 40, left associativity, only parsing) : snake_scope.
Open Scope snake_scope.

(** [run m s] runs [m] from the source state [s]. *)
Definition run {S A} (m : RandM S A) (s : S) : A * S := m s.


Lemma run_ret {S A} (a : A) (s : S) : run (mret a : RandM S A) s = (a, s).
Proof. reflexivity. Qed.

Lemma run_bind {S A B} (m : RandM S A) (k : A -> RandM S B) (s : S) :
  run (m ≫= k) s = let '(a, s') := run m s in run (k a) s'.
Proof. reflexivity. Qed.

Create HintDb snake discriminated.
Create Rewrite HintDb snake_run.
#[export] Hint Rewrite @run_ret @run_bind : snake_run.

(** [rand_simpl] unfolds the monad in the goal and in the hypotheses. *)
Ltac rand_simpl :=
  repeat (unfold run, mbind, mret, RandM_bind, RandM_ret in *; simpl in *).

(** [destruct_pairs] names the components of the pairs a run produces. *)
Ltac destruct_pairs :=
  repeat match goal with
  | |- context [let '(_, _) := ?p in _] =>
      let a := fresh "a" in let s := fresh "s" in destruct p as [a s] eqn:?
  | H : context [let '(_, _) := ?p in _] |- _ =>
      let a := fresh "a" in let s := fresh "s" in destruct p as [a s] eqn:?
  end.

(** [decide_prop] proves a closed decidable proposition by evaluation. *)
Ltac decide_prop := apply (bool_decide_unpack _); vm_compute; reflexivity.

(** [invc H] inverts [H] and cleans the equations. *)
Ltac invc H := inversion H; subst; clear H.

(** ** Generic list lemmas

    [Array.prototype.pop] on a non-empty array removes its last element:
    [removelast]. *)

Section removelast.
Context {A : Type}.

Lemma removelast_cons_cons (a b : A) (l : list A) :
  removelast (a :: b :: l) = a :: removelast (b :: l).
Proof. reflexivity. Qed.

Lemma length_removelast_cons (a : A) (l : list A) :
  length (removelast (a :: l)) = length l.
Proof.
  revert a. induction l as [|b l IH]; intros a; [done|].
  rewrite removelast_cons_cons. cbn [length]. by rewrite IH.
Qed.

Lemma elem_of_removelast (x : A) (l : list A) : x ∈ removelast l -> x ∈ l.
Proof.
  induction l as [|a l IH]; [done|]. destruct l as [|b l]; [set_solver|].
  rewrite removelast_cons_cons, elem_of_cons, (elem_of_cons (b :: l)).
  intros [->|H]; [by left|right; by apply IH].
Qed.

Lemma NoDup_removelast (l : list A) : NoDup l -> NoDup (removelast l).
Proof.
  induction l as [|a l IH]; [done|]. destruct l as [|b l]; [constructor|].
  rewrite removelast_cons_cons. intros Hnd.
  apply NoDup_cons in Hnd as [Hn Hnd]. constructor.
  - intros Hin. apply Hn, elem_of_removelast, Hin.
  - by apply IH.
Qed.

Lemma Forall_removelast (P : A -> Prop) (l : list A) :
  Forall P l -> Forall P (removelast l).
Proof.
  intros H. apply Forall_forall. intros x Hx.
  eapply Forall_forall; [exact H|]. by apply elem_of_removelast.
Qed.

Lemma removelast_cons_hd (a : A) (l : list A) :
  l <> [] -> removelast (a :: l) = a :: removelast l.
Proof. destruct l; [done|reflexivity]. Qed.
End removelast.

#[export] Hint Resolve NoDup_removelast Forall_removelast elem_of_removelast : snake.

(** ** Integer division by a power of two

    [Math.floor(u * n)] for a draw [u = k / 2^53] is [(k * n) / 2^53]. *)

Lemma floor_mul_bound (k n d : Z) :
  0 < d -> 0 <= k < d -> 0 < n -> 0 <= (k * n) / d < n.
Proof.
  intros Hd Hk Hn. split.
  - apply Z.div_pos; lia.
  - apply Z.div_lt_upper_bound; [lia|nia].
Qed.
