(* ===== verification/Double.v ===== *)
(** * Double: IEEE-754 binary64 rounding of the products the game computes

    [Math.floor(Math.random() * GRID_SIZE)] multiplies a double in
    [[0, 1)] by the integer 20 and rounds the product to a double before
    [Math.floor] sees it.  A draw is [u * 2^-53] with [0 <= u < 2^53]; the
    exact product is [m * 2^-53] with [m = u * n], and since scaling by a
    power of two commutes with rounding in the normal range, the double
    nearest to it is [roundDouble m * 2^-53], where [roundDouble] rounds
    the integer [m] to 53 significant bits, ties to even: the low
    [roundShift m] bits are dropped and the rest is rounded.

    [roundDouble_le] and [roundDouble_floor] bound the rounding: it adds
    at most [m / 2^53] and never crosses a multiple of [2^53] downwards.
    The literal [0.8] of [Math.random() > 0.8] is the double
    [doubleLiteral 8 10 * 2^-53], the multiple of [2^-53] nearest to
    [8/10]. *)

From S2P Require Import Prelude.

(** The significand width of a binary64 double. *)
Definition PREC : Z := 53.

(** The number of low bits of [m] that do not fit in the significand. *)
Definition roundShift (m : Z) : Z := Z.log2 m - (PREC - 1).

(** The double nearest to the integer [m >= 0], ties to even. *)
Definition roundDouble (m : Z) : Z :=
  let s := roundShift m in
  if s <=? 0 then m
  else
    let q := Z.shiftr m s in
    let r := m - Z.shiftl q s in
    let half := Z.shiftl 1 (s - 1) in
    Z.shiftl (if (half <? r) || ((r =? half) && Z.odd q) then q + 1 else q) s.

(** The double nearest to [num / den] in [[1/2, 1)], as a multiple of
    [2^-53]: the ulp there is [2^-53].  Halves are rounded up, which no
    literal of the program meets. *)
Definition doubleLiteral (num den : Z) : Z := (2 * num * 2 ^ PREC + den) / (2 * den).

(** ** The division form of [roundDouble] *)

Lemma roundDouble_alt (m : Z) :
  0 < roundShift m ->
  roundDouble m =
  (m / 2 ^ roundShift m +
   (if (2 ^ (roundShift m - 1) <? m mod 2 ^ roundShift m) ||
       ((m mod 2 ^ roundShift m =? 2 ^ (roundShift m - 1)) && Z.odd (m / 2 ^ roundShift m))
    then 1 else 0)) * 2 ^ roundShift m.
Proof.
  intros Hs. unfold roundDouble. cbv zeta.
  rewrite (proj2 (Z.leb_gt _ _) Hs), Z.shiftr_div_pow2 by lia.
  rewrite !Z.shiftl_mul_pow2, Z.mul_1_l by lia.
  replace (m - m / 2 ^ roundShift m * 2 ^ roundShift m) with (m mod 2 ^ roundShift m)
    by (rewrite Z.mod_eq by lia; lia).
  destruct (_ || _); ring.
Qed.

(** The dropped bits are worth at most [m / 2^53]. *)
Lemma roundShift_half (m : Z) : 0 < roundShift m -> 2 ^ (roundShift m - 1) <= m / 2 ^ PREC.
Proof.
  intros Hs. unfold roundShift, PREC in *.
  assert (Hm : 0 < m) by (destruct (Z.lt_ge_cases 0 m); [done|rewrite Z.log2_nonpos in Hs; lia]).
  apply Z.div_le_lower_bound; [lia|].
  rewrite <- Z.pow_add_r by lia. replace (53 + (Z.log2 m - (53 - 1) - 1)) with (Z.log2 m) by lia.
  apply (Z.log2_spec m Hm).
Qed.

(** ** Bounds of the rounding *)

Lemma roundDouble_small (m : Z) : roundShift m <= 0 -> roundDouble m = m.
Proof. intros Hs. unfold roundDouble. cbv zeta. by rewrite (proj2 (Z.leb_le _ _) Hs). Qed.

Lemma roundDouble_nonneg (m : Z) : 0 <= m -> 0 <= roundDouble m.
Proof.
  intros Hm. destruct (Z.le_gt_cases (roundShift m) 0) as [Hs|Hs].
  - by rewrite roundDouble_small.
  - rewrite roundDouble_alt by done.
    assert (0 <= m / 2 ^ roundShift m) by (apply Z.div_pos; lia).
    destruct (_ || _); nia.
Qed.

Lemma roundDouble_le (m : Z) : 0 <= m -> roundDouble m <= m + m / 2 ^ PREC.
Proof.
  intros Hm. destruct (Z.le_gt_cases (roundShift m) 0) as [Hs|Hs].
  - rewrite roundDouble_small by done. pose proof (Z.div_pos m (2 ^ PREC)). unfold PREC in *. lia.
  - pose proof (roundShift_half m Hs) as Hh. rewrite roundDouble_alt by done.
    set (s := roundShift m) in *.
    pose proof (Z.div_mod m (2 ^ s) ltac:(lia)). pose proof (Z.mod_pos_bound m (2 ^ s) ltac:(lia)).
    assert (Hp : 2 ^ s = 2 * 2 ^ (s - 1)) by (rewrite <- Z.pow_succ_r by lia; f_equal; lia).
    destruct (2 ^ (s - 1) <? m mod 2 ^ s) eqn:E1; simpl.
    + apply Z.ltb_lt in E1. nia.
    + apply Z.ltb_ge in E1. destruct (_ && _) eqn:E2; [apply andb_true_iff in E2 as [E2%Z.eqb_eq _]|]; nia.
Qed.

(** Rounding never brings a product below the multiple of [2^53] under it. *)
Lemma roundDouble_floor (m : Z) :
  0 <= m < 2 ^ (2 * PREC) -> m / 2 ^ PREC <= roundDouble m / 2 ^ PREC.
Proof.
  intros Hm. destruct (Z.le_gt_cases (roundShift m) 0) as [Hs|Hs].
  - by rewrite roundDouble_small.
  - rewrite roundDouble_alt by done. set (s := roundShift m) in *.
    assert (Hs53 : s <= PREC).
    { unfold s, roundShift, PREC in *.
      destruct (Z.eq_dec m 0) as [->|]; [done|].
      assert (Z.log2 m < 106); [apply Z.log2_lt_pow2; lia|lia]. }
    assert (Hsplit : 2 ^ PREC = 2 ^ s * 2 ^ (PREC - s))
      by (rewrite <- Z.pow_add_r by lia; f_equal; lia).
    assert (0 <= m / 2 ^ s) by (apply Z.div_pos; lia).
    transitivity (m / 2 ^ s * 2 ^ s / 2 ^ PREC).
    + rewrite Hsplit, <- !Z.div_div, Z.div_mul by lia. lia.
    + apply Z.div_le_mono; [lia|]. destruct (_ || _); nia.
Qed.

(** ** [Math.floor(x * n)] for a draw [x = u * 2^-53] *)

(** The value [Math.floor(u * 2^-53 * n)] computes. *)
Definition floorScaled (u n : Z) : Z := roundDouble (u * n) / 2 ^ PREC.

(** It is below [n]: the product never rounds up to [n]. *)
Lemma floorScaled_bound (u n : Z) : 0 <= u < 2 ^ PREC -> 1 <= n -> 0 <= floorScaled u n < n.
Proof.
  intros Hu Hn. unfold floorScaled.
  assert (Hp : 0 < 2 ^ PREC) by (unfold PREC; lia).
  pose proof (roundDouble_le (u * n) ltac:(nia)). pose proof (roundDouble_nonneg (u * n) ltac:(nia)).
  assert (u * n / 2 ^ PREC < n) by (apply Z.div_lt_upper_bound; nia).
  split; [by apply Z.div_pos|]. apply Z.div_lt_upper_bound; nia.
Qed.

(** It is the exact floor or one more. *)
Lemma floorScaled_exact_or_next (u n : Z) :
  0 <= u < 2 ^ PREC -> 1 <= n <= 2 ^ (PREC - 1) ->
  u * n / 2 ^ PREC <= floorScaled u n <= u * n / 2 ^ PREC + 1.
Proof.
  intros Hu Hn. unfold floorScaled.
  assert (Hp : 0 < 2 ^ PREC) by (unfold PREC; lia).
  assert (Hb : 2 ^ PREC * 2 ^ (PREC - 1) < 2 ^ (2 * PREC)) by (unfold PREC; lia).
  split; [apply roundDouble_floor; nia|].
  pose proof (roundDouble_le (u * n) ltac:(nia)).
  assert (u * n / 2 ^ PREC <= 2 ^ PREC) by (apply Z.div_le_upper_bound; [lia|]; unfold PREC in *; nia).
  rewrite <- Z.div_add by lia. apply Z.div_le_mono; lia.
Qed.

(** On the least draw whose exact product reaches [v], it is [v]. *)
Lemma floorScaled_least (u n v : Z) :
  1 <= n <= 2 ^ (PREC - 1) -> 0 <= v < n ->
  v * 2 ^ PREC <= u * n < v * 2 ^ PREC + n -> floorScaled u n = v.
Proof.
  intros Hn Hv Hm. unfold floorScaled.
  assert (Hp : 0 < 2 ^ PREC) by (unfold PREC; lia).
  assert (He : u * n / 2 ^ PREC = v).
  { symmetry. apply Z.div_unique with (r := u * n - v * 2 ^ PREC); [left|]; unfold PREC in *; lia. }
  assert (Hb : 2 ^ PREC * 2 ^ (PREC - 1) < 2 ^ (2 * PREC)) by (unfold PREC; lia).
  pose proof (roundDouble_le (u * n) ltac:(nia)).
  pose proof (roundDouble_floor (u * n) ltac:(split; [nia|unfold PREC in *; nia])).
  apply Z.le_antisymm; [|lia].
  apply Z.lt_succ_r, Z.div_lt_upper_bound; [lia|]. rewrite He in *. unfold PREC in *. nia.
Qed.

(** The integer it returns is at most the product plus its rounding error. *)
Lemma floorScaled_le (u n : Z) :
  0 <= u * n -> floorScaled u n * 2 ^ PREC <= u * n + u * n / 2 ^ PREC.
Proof.
  intros Hm. unfold floorScaled.
  pose proof (Z.mul_div_le (roundDouble (u * n)) (2 ^ PREC) ltac:(unfold PREC; lia)).
  pose proof (roundDouble_le (u * n) Hm). lia.
Qed.
