(* ===== verification/Grid.v ===== *)
(** * Grid: points, the board and the comparisons of [useSnakeGame.ts]

    [Point] is the TS type [Point = { x: number; y: number }]; [GRID_SIZE]
    is the constant of line 12.  The hook has no [inBounds] function: the
    wall test is written inline in [moveSnake] (lines 101-106) and is
    [wallCollision] here.  Two points are compared field by field
    ([segment.x === p.x && segment.y === p.y]), which is [samePoint]; the
    [some] over the snake used by [generateFood] and by the self-collision
    test is [onSnake].  The board is the list [cells] of its 400 cells;
    [cells_covered] is the pigeonhole fact that a duplicate-free list of
    400 in-bounds points contains every cell. *)

From S2P Require Import Prelude.

Record Point := mkPoint { x : Z; y : Z }.

Notation "⟨ a , b ⟩" := (mkPoint a b) (format "⟨ a ,  b ⟩") : snake_scope.
Open Scope snake_scope.

#[export] Instance Point_eq_dec : EqDecision Point.
Proof. solve_decision. Defined.

(** [const GRID_SIZE = 20;] *)
Definition GRID_SIZE : Z := 20.

(** The wall-collision condition of [moveSnake]. *)
Definition wallCollision (newHead : Point) : bool :=
  (x newHead <? 0) || (GRID_SIZE <=? x newHead) ||
  (y newHead <? 0) || (GRID_SIZE <=? y newHead).

(** [segment.x === p.x && segment.y === p.y] *)
Definition samePoint (segment p : Point) : bool :=
  (x segment =? x p) && (y segment =? y p).

(** [currentSnake.some((segment) => segment.x === p.x && segment.y === p.y)] *)
Definition onSnake (currentSnake : list Point) (p : Point) : bool :=
  existsb (fun segment => samePoint segment p) currentSnake.

(** The cells of the board, the property the wall test decides. *)
Definition inBounds (p : Point) : Prop :=
  0 <= x p < GRID_SIZE /\ 0 <= y p < GRID_SIZE.

#[export] Instance inBounds_dec p : Decision (inBounds p).
Proof. unfold inBounds. apply _. Defined.

(** All the cells of the board, row by row. *)
Definition cells : list Point :=
  i ← seqZ 0 GRID_SIZE; j ← seqZ 0 GRID_SIZE; [⟨i, j⟩].

(** ** Lemmas *)

Lemma samePoint_true_iff (s p : Point) : samePoint s p = true <-> s = p.
Proof.
  destruct s as [sx sy], p as [px py]. unfold samePoint. simpl.
  rewrite andb_true_iff, !Z.eqb_eq. split; [intros [-> ->]; done|].
  intros Heq. by injection Heq as -> ->.
Qed.

Lemma samePoint_false_iff (s p : Point) : samePoint s p = false <-> s <> p.
Proof. rewrite <- samePoint_true_iff. destruct (samePoint s p); intuition congruence. Qed.

Lemma onSnake_true_iff (l : list Point) (p : Point) : onSnake l p = true <-> p ∈ l.
Proof.
  unfold onSnake. rewrite existsb_exists, list_elem_of_In.
  split; [intros (s & Hs & Heq%samePoint_true_iff); by subst|].
  intros Hin. exists p. split; [done|]. by apply samePoint_true_iff.
Qed.

Lemma onSnake_false_iff (l : list Point) (p : Point) : onSnake l p = false <-> p ∉ l.
Proof. rewrite <- onSnake_true_iff. destruct (onSnake l p); intuition congruence. Qed.

Lemma wallCollision_false_iff (p : Point) : wallCollision p = false <-> inBounds p.
Proof.
  unfold wallCollision, inBounds, GRID_SIZE.
  rewrite !orb_false_iff, Z.ltb_ge, Z.leb_gt, Z.ltb_ge, Z.leb_gt. lia.
Qed.

Lemma wallCollision_true_iff (p : Point) : wallCollision p = true <-> ~ inBounds p.
Proof.
  rewrite <- wallCollision_false_iff. destruct (wallCollision p); intuition congruence.
Qed.

Lemma elem_of_cells (p : Point) : p ∈ cells <-> inBounds p.
Proof.
  destruct p as [px py]. unfold cells, inBounds. cbn [x y].
  rewrite list_elem_of_bind. setoid_rewrite list_elem_of_bind.
  setoid_rewrite list_elem_of_singleton. setoid_rewrite elem_of_seqZ.
  split.
  - intros (i & (j & Heq & Hj) & Hi). injection Heq as -> ->. lia.
  - intros [Hx Hy]. exists px. split; [exists py; split; [done|lia]|lia].
Qed.

Lemma NoDup_cells : NoDup cells.
Proof. apply (bool_decide_unpack _). vm_compute. reflexivity. Qed.

Lemma length_cells : length cells = 400%nat.
Proof. reflexivity. Qed.

Lemma incl_cells (l : list Point) : Forall inBounds l -> incl l cells.
Proof.
  intros Hin q Hq. apply list_elem_of_In, elem_of_cells.
  eapply Forall_forall; [exact Hin|]. by apply list_elem_of_In.
Qed.

(** A duplicate-free list of in-bounds points as long as the board
    covers the board. *)
Lemma cells_covered (l : list Point) :
  NoDup l -> Forall inBounds l -> (400 <= length l)%nat ->
  forall p, inBounds p -> p ∈ l.
Proof.
  intros Hnd%NoDup_ListNoDup Hin Hlen p Hp.
  apply list_elem_of_In, (NoDup_length_incl (l:=l) (l':=cells) Hnd);
    [by rewrite length_cells|by apply incl_cells|].
  by apply list_elem_of_In, elem_of_cells.
Qed.

(** A duplicate-free list of in-bounds points has at most 400 cells. *)
Lemma length_in_grid (l : list Point) :
  NoDup l -> Forall inBounds l -> (length l <= 400)%nat.
Proof.
  intros Hnd%NoDup_ListNoDup Hin. rewrite <- length_cells.
  by apply NoDup_incl_length, incl_cells.
Qed.

#[export] Hint Resolve -> onSnake_true_iff onSnake_false_iff wallCollision_false_iff : snake.
#[export] Hint Resolve <- onSnake_true_iff onSnake_false_iff wallCollision_false_iff : snake.
