(* ===== verification/Random.v ===== *)
(** * Random: the interface of [Math.random()]

    The hook draws random numbers in two forms:
    [Math.floor(Math.random() * GRID_SIZE)] in [generateFood] (lines 41-42)
    and [Math.random() > 0.8] in [moveSnake] (line 131).  A double returned
    by [Math.random()] is a multiple of [2^-53] in [[0, 1)] (the engines
    draw 52 or 53 random bits); it is represented by its numerator [k],
    [0 <= k < 2^53].  The product by [GRID_SIZE] is rounded to a double
    ([Double.floorScaled]) and [0.8] is the double nearest to it
    ([Double.doubleLiteral]), as in JavaScript.

    [MathRandom S] is the interface the game relies on: a source with
    state [S] that yields one draw.  [MathRandomLaws] is its contract (a
    draw is in range); the clients' theorems assume only the contract.
    [Tape] is a concrete source, a list of draws consumed in order, that
    discharges it and makes runs executable. *)

From S2P Require Import Prelude Double Grid.

Definition RAND_BITS : Z := PREC.
Definition RAND_SCALE : Z := 2 ^ RAND_BITS.

(** One call of [Math.random()]: the numerator of the draw. *)
Class MathRandom (S : Type) := math_random : RandM S Z.

(** The contract: [0 <= Math.random() < 1]. *)
Class MathRandomLaws (S : Type) `{!MathRandom S} :=
  math_random_range : forall s, 0 <= fst (run math_random s) < RAND_SCALE.

Section draws.
Context {S : Type} `{!MathRandom S}.

(** [Math.floor(Math.random() * n)]: the product is rounded to a double. *)
Definition randomInt (n : Z) : RandM S Z :=
  u ← math_random; mret (floorScaled u n).

(** [Math.random() > num / den], the literal being a double in [[1/2, 1)]. *)
Definition mathRandomGt (num den : Z) : RandM S bool :=
  u ← math_random; mret (doubleLiteral num den <? u).

Context `{!MathRandomLaws S}.

Lemma randomInt_bound (n : Z) (s : S) :
  0 < n -> 0 <= fst (run (randomInt n) s) < n.
Proof.
  intros Hn. unfold randomInt. rand_simpl.
  pose proof (math_random_range s) as Hr. unfold run in Hr.
  destruct (math_random s) as [u s']. simpl in *.
  apply floorScaled_bound; [done|lia].
Qed.
End draws.

(** ** A concrete source: a tape of draws

    Each entry is reduced modulo [2^53], so every tape meets the
    contract; an exhausted tape keeps drawing [0]. *)
Record Tape := mkTape { draws : list Z }.

#[export] Instance Tape_random : MathRandom Tape := fun t =>
  match draws t with
  | [] => (0, t)
  | k :: rest => (k mod RAND_SCALE, mkTape rest)
  end.

#[export] Instance Tape_inhabited : Inhabited Tape := populate (mkTape []).

#[export] Instance Tape_random_laws : MathRandomLaws Tape.
Proof.
  intros [[|k rest]]; unfold run, math_random, Tape_random; simpl.
  - unfold RAND_SCALE, RAND_BITS, PREC; lia.
  - apply Z.mod_pos_bound. unfold RAND_SCALE, RAND_BITS, PREC; lia.
Qed.

(** The tape entry that [randomInt n] turns into the value [v]: the least
    numerator whose scaled floor is [v]. *)
Definition tapeFor (n v : Z) : Z := (v * RAND_SCALE + n - 1) / n.

Lemma randomInt_tapeFor (n v : Z) (rest : list Z) :
  1 <= n <= 2 ^ (PREC - 1) -> 0 <= v < n ->
  run (randomInt n) (mkTape (tapeFor n v :: rest)) = (v, mkTape rest).
Proof.
  intros Hn Hv. unfold randomInt. rand_simpl.
  unfold math_random, Tape_random. simpl.
  assert (HS : RAND_SCALE = 2 ^ PREC) by reflexivity.
  assert (Hlo : 0 <= tapeFor n v) by (apply Z.div_pos; unfold PREC in *; nia).
  assert (Hhi : tapeFor n v < RAND_SCALE).
  { apply Z.div_lt_upper_bound; unfold RAND_SCALE, RAND_BITS, PREC in *; nia. }
  rewrite Z.mod_small by lia. f_equal. apply floorScaled_least; [done|done|].
  unfold tapeFor. rewrite HS.
  pose proof (Z.div_mod (v * 2 ^ PREC + n - 1) n ltac:(lia)).
  pose proof (Z.mod_pos_bound (v * 2 ^ PREC + n - 1) n ltac:(lia)). nia.
Qed.

(** The two tape entries that decide [Math.random() > 0.8]. *)
Lemma mathRandomGt_tape_high (rest : list Z) :
  run (mathRandomGt 8 10) (mkTape ((RAND_SCALE - 1) :: rest)) = (true, mkTape rest).
Proof. unfold mathRandomGt. rand_simpl. unfold math_random, Tape_random. simpl. reflexivity. Qed.

Lemma mathRandomGt_tape_low (rest : list Z) :
  run (mathRandomGt 8 10) (mkTape (0 :: rest)) = (false, mkTape rest).
Proof. unfold mathRandomGt. rand_simpl. unfold math_random, Tape_random. simpl. reflexivity. Qed.

(** ** The double arithmetic of the two draws *)

(** C35: [Math.floor(Math.random() * n)] is always a cell index below
    [n], and, for [n <= 2^52], it is the exact floor of the product or
    one more: the product is rounded to a double first, and the rounding
    can carry it up to the next integer, never down nor past [n]. *)
Theorem randomInt_rounding {S : Type} `{!MathRandom S, !MathRandomLaws S} (n : Z) (s : S) :
  1 <= n <= 2 ^ (PREC - 1) ->
  let u := fst (run math_random s) in
  0 <= fst (run (randomInt n) s) < n /\
  u * n / RAND_SCALE <= fst (run (randomInt n) s) <= u * n / RAND_SCALE + 1.
Proof.
  intros Hn u. pose proof (math_random_range s) as Hr. fold u in Hr.
  assert (E : fst (run (randomInt n) s) = floorScaled u n).
  { unfold randomInt, u. rand_simpl. by destruct (math_random s). }
  rewrite E. split; [apply floorScaled_bound; [done|lia] | by apply floorScaled_exact_or_next].
Qed.

(** The draw [(17 * 2^51 - 1) / 5], just below [17/20]. *)
Definition roundUpDraw : Z := (17 * 2 ^ 51 - 1) / 5.

(** C36: the rounding carries [Math.floor(Math.random() * n)] past the
    exact floor only at a cell boundary: the result is the exact floor,
    or it is one more and then the exact product [u * n * 2^-53] lies less
    than [n * 2^-53] below the result, within the rounding error of the
    product.  The carry does happen on the board: some draw gives the
    exact floor plus one for [GRID_SIZE]. *)
Theorem randomInt_carry_only_at_boundary {S : Type} `{!MathRandom S, !MathRandomLaws S} (n : Z) (s : S) :
  1 <= n <= 2 ^ (PREC - 1) ->
  let u := fst (run math_random s) in
  let r := fst (run (randomInt n) s) in
  (r = u * n / RAND_SCALE \/ (r = u * n / RAND_SCALE + 1 /\ r * RAND_SCALE - u * n < n)) /\
  exists v, 0 <= v < RAND_SCALE /\
    fst (run (randomInt GRID_SIZE) (mkTape [v])) = v * GRID_SIZE / RAND_SCALE + 1.
Proof.
  intros Hn u r. pose proof (math_random_range s) as Hu. fold u in Hu.
  assert (HS : RAND_SCALE = 2 ^ PREC) by reflexivity.
  assert (E : r = floorScaled u n).
  { unfold r, randomInt, u. rand_simpl. by destruct (math_random s). }
  split; [|exists roundUpDraw; vm_compute; split; [split; congruence|reflexivity]].
  rewrite HS in *. rewrite E.
  pose proof (floorScaled_exact_or_next u n Hu Hn) as Hb.
  pose proof (floorScaled_le u n ltac:(nia)).
  assert (u * n / 2 ^ PREC < n) by (apply Z.div_lt_upper_bound; [unfold PREC; lia|nia]).
  destruct (Z.eq_dec (floorScaled u n) (u * n / 2 ^ PREC)); [left|right]; lia.
Qed.

Lemma randomInt_rounding_witness :
  1 <= GRID_SIZE <= 2 ^ (PREC - 1) /\
  fst (run (randomInt GRID_SIZE) (mkTape [roundUpDraw])) =
  fst (run math_random (mkTape [roundUpDraw])) * GRID_SIZE / RAND_SCALE + 1.
Proof.
  assert (Hn : 1 <= GRID_SIZE <= 2 ^ (PREC - 1)) by (vm_compute; split; discriminate).
  destruct (randomInt_rounding GRID_SIZE (mkTape [roundUpDraw]) Hn) as [_ [_ Hle]].
  split; [exact Hn|]. apply Z.le_antisymm; [exact Hle|]. vm_compute. intros H; discriminate H.
Defined.

Lemma randomInt_carry_only_at_boundary_witness :
  1 <= GRID_SIZE <= 2 ^ (PREC - 1) /\
  fst (run (randomInt GRID_SIZE) (mkTape [roundUpDraw])) * RAND_SCALE -
    fst (run math_random (mkTape [roundUpDraw])) * GRID_SIZE < GRID_SIZE.
Proof.
  assert (Hn : 1 <= GRID_SIZE <= 2 ^ (PREC - 1)) by (vm_compute; split; discriminate).
  split; [exact Hn|].
  destruct (proj1 (randomInt_carry_only_at_boundary GRID_SIZE (mkTape [roundUpDraw]) Hn))
    as [Heq|[_ Hlt]]; [vm_compute in Heq; discriminate Heq|exact Hlt].
Defined.
