(* ===== verification/Food.v ===== *)
(** * Food: [generateFood], the rejection-sampling loop

    [generateFood] (useSnakeGame.ts, lines 37-50) draws a cell with two
    calls of [Math.floor(Math.random() * GRID_SIZE)] and loops while the
    cell is on the snake passed to it.  The [while (true)] loop is a
    [Fixpoint] on a fuel argument; [None] means that the fuel ran out
    before the loop exited.

    Proved here, against the [MathRandomLaws] contract only:
    - a result is a cell of the board not on the snake ([generateFood_sound]);
    - a result does not change when the fuel grows ([generateFood_more_fuel]);
    - the loop returns the first free draw whenever one of the first
      [fuel] draws is free ([generateFood_terminates]);
    - it never returns when the snake covers the board
      ([generateFood_full_grid]), the case the code does not handle. *)

From S2P Require Import Prelude Double Grid Random.

Section food.
Context {Rs : Type} `{!MathRandom Rs}.

(** [newFood = { x: Math.floor(Math.random() * GRID_SIZE),
                 y: Math.floor(Math.random() * GRID_SIZE) }] *)
Definition drawFood : RandM Rs Point :=
  nx ← randomInt GRID_SIZE; ny ← randomInt GRID_SIZE; mret ⟨nx, ny⟩.

(** [while (true) { newFood = ...; if (!onSnake) break; } return newFood;] *)
Fixpoint generateFood (fuel : nat) (currentSnake : list Point) : RandM Rs (option Point) :=
  match fuel with
  | O => mret None
  | S fuel' =>
      newFood ← drawFood;
      if onSnake currentSnake newFood then generateFood fuel' currentSnake
      else mret (Some newFood)
  end.

(** The [k]-th cell the loop draws, counting from 0, and the source state
    after it. *)
Fixpoint nthDraw (k : nat) (s : Rs) : Point * Rs :=
  match k with
  | O => run drawFood s
  | S k' => nthDraw k' (snd (run drawFood s))
  end.

Lemma generateFood_S (fuel : nat) (l : list Point) (s : Rs) :
  run (generateFood (S fuel) l) s =
  let '(p, s1) := run drawFood s in
  if onSnake l p then run (generateFood fuel l) s1 else (Some p, s1).
Proof.
  unfold run. cbn [generateFood]. unfold mbind, RandM_bind, mret, RandM_ret.
  destruct (drawFood s) as [q s1]. by destruct (onSnake l q).
Qed.

Lemma generateFood_more_fuel (n m : nat) (l : list Point) (s s' : Rs) (p : Point) :
  run (generateFood n l) s = (Some p, s') ->
  run (generateFood (n + m) l) s = (Some p, s').
Proof.
  revert s. induction n as [|n IH]; intros s; [done|].
  rewrite Nat.add_succ_l, !generateFood_S.
  destruct (run drawFood s) as [q s1]. destruct (onSnake l q); [apply IH|done].
Qed.

(** If the [k]-th draw is the first one off the snake, the loop returns
    it after [k + 1] rounds. *)
Lemma generateFood_first_free (k : nat) (l : list Point) (s : Rs) :
  fst (nthDraw k s) ∉ l ->
  exists p s', run (generateFood (S k) l) s = (Some p, s').
Proof.
  revert s. induction k as [|k IH]; intros s Hfree.
  - rewrite generateFood_S. simpl in Hfree.
    destruct (run drawFood s) as [q s1]. simpl in Hfree.
    apply onSnake_false_iff in Hfree. rewrite Hfree. eauto.
  - rewrite generateFood_S. simpl in Hfree.
    destruct (run drawFood s) as [q s1] eqn:Hd. simpl in Hfree.
    destruct (onSnake l q); [by apply IH|eauto].
Qed.

(** C7: the loop returns a result whenever one of the draws it makes
    within its fuel is off the snake. *)
Theorem generateFood_terminates (fuel k : nat) (l : list Point) (s : Rs) :
  (k < fuel)%nat -> fst (nthDraw k s) ∉ l ->
  exists p s', run (generateFood fuel l) s = (Some p, s').
Proof.
  intros Hk Hfree. destruct (generateFood_first_free k l s Hfree) as (p & s' & Hrun).
  exists p, s'. replace fuel with (S k + (fuel - S k))%nat by lia.
  by apply generateFood_more_fuel.
Qed.

Context `{!MathRandomLaws Rs}.

Lemma drawFood_inBounds (s : Rs) : inBounds (fst (run drawFood s)).
Proof.
  unfold drawFood. rand_simpl.
  pose proof (randomInt_bound GRID_SIZE s ltac:(done)) as Hx.
  unfold run in Hx. destruct (randomInt GRID_SIZE s) as [nx s1]. simpl in *.
  pose proof (randomInt_bound GRID_SIZE s1 ltac:(done)) as Hy.
  unfold run in Hy. destruct (randomInt GRID_SIZE s1) as [ny s2]. simpl in *.
  split; done.
Qed.

(** C6: what [generateFood] returns is a free cell of the board. *)
Lemma generateFood_sound (fuel : nat) (l : list Point) (s s' : Rs) (p : Point) :
  run (generateFood fuel l) s = (Some p, s') -> inBounds p /\ p ∉ l.
Proof.
  revert s. induction fuel as [|fuel IH]; intros s; [done|].
  rewrite generateFood_S. pose proof (drawFood_inBounds s) as Hb.
  destruct (run drawFood s) as [q s1]. simpl in Hb.
  destruct (onSnake l q) eqn:Hon; [apply IH|].
  intros Heq. injection Heq as <- _. split; [done|]. by apply onSnake_false_iff.
Qed.

(** A full board makes the loop run forever. *)
Lemma generateFood_full_grid (l : list Point) :
  (forall p, inBounds p -> p ∈ l) ->
  forall fuel s, fst (run (generateFood fuel l) s) = None.
Proof.
  intros Hfull fuel. induction fuel as [|fuel IH]; intros s; [done|].
  rewrite generateFood_S. pose proof (drawFood_inBounds s) as Hb.
  destruct (run drawFood s) as [q s1]. simpl in Hb.
  assert (Hon : onSnake l q = true) by (apply onSnake_true_iff, Hfull, Hb).
  rewrite Hon. apply IH.
Qed.
End food.

Arguments generateFood {Rs _} fuel currentSnake.
Arguments drawFood {Rs _}.

(** ** Witnesses on a concrete tape *)

(** The tape that makes [drawFood] draw [p]. *)
Definition tapeOf (p : Point) : list Z := [tapeFor GRID_SIZE (x p); tapeFor GRID_SIZE (y p)].

Lemma drawFood_tapeOf (p : Point) (rest : list Z) :
  inBounds p -> run drawFood (mkTape (tapeOf p ++ rest)) = (p, mkTape rest).
Proof.
  intros [Hx Hy]. unfold drawFood.
  assert (Hn : 1 <= GRID_SIZE <= 2 ^ (PREC - 1)) by (unfold GRID_SIZE, PREC; lia).
  unfold tapeOf. cbn [app]. rewrite run_bind, (randomInt_tapeFor GRID_SIZE (x p) _ Hn Hx).
  rewrite run_bind, (randomInt_tapeFor GRID_SIZE (y p) _ Hn Hy). by destruct p.
Qed.

(** On the tape of a free cell of the board, the loop returns that cell
    after one round. *)
Lemma generateFood_tapeOf (fuel : nat) (l : list Point) (p : Point) (rest : list Z) :
  inBounds p -> p ∉ l ->
  run (generateFood (S fuel) l) (mkTape (tapeOf p ++ rest)) = (Some p, mkTape rest).
Proof.
  intros Hb Hfree. rewrite generateFood_S, drawFood_tapeOf by done.
  apply onSnake_false_iff in Hfree. by rewrite Hfree.
Qed.

Lemma generateFood_sound_witness :
  run (generateFood 2 [⟨10, 10⟩]) (mkTape (tapeOf ⟨10, 10⟩ ++ tapeOf ⟨15, 10⟩)) =
    (Some ⟨15, 10⟩, mkTape []) /\
  inBounds ⟨15, 10⟩ /\ ⟨15, 10⟩ ∉ [⟨10, 10⟩].
Proof.
  assert (H : run (generateFood 2 [⟨10, 10⟩]) (mkTape (tapeOf ⟨10, 10⟩ ++ tapeOf ⟨15, 10⟩)) =
                (Some ⟨15, 10⟩, mkTape [])) by (vm_compute; reflexivity).
  split; [exact H|]. exact (generateFood_sound 2 _ _ _ _ H).
Defined.

Lemma generateFood_terminates_witness :
  (1 < 3)%nat /\ (fst (nthDraw 1 (mkTape (tapeOf ⟨10, 10⟩ ++ tapeOf ⟨3, 4⟩))) ∉ [⟨10, 10⟩]) /\
  exists p s', run (generateFood 3 [⟨10, 10⟩]) (mkTape (tapeOf ⟨10, 10⟩ ++ tapeOf ⟨3, 4⟩)) = (Some p, s').
Proof.
  assert (Hk : (1 < 3)%nat) by lia.
  assert (Hf : fst (nthDraw 1 (mkTape (tapeOf ⟨10, 10⟩ ++ tapeOf ⟨3, 4⟩))) ∉ [⟨10, 10⟩])
    by decide_prop.
  split; [exact Hk|]. split; [exact Hf|]. exact (generateFood_terminates 3 1 _ _ Hk Hf).
Defined.
