(* ===== verification/Snake.v ===== *)
(** * Snake: the body and its moves

    The snake is the [Point[]] of [useState], head first.  [moveSnake]
    (useSnakeGame.ts, lines 92-149) computes the new head from the head and
    [directionRef.current] ([advance], lines 94-98), prepends it
    ([growTo], [const newSnake = [newHead, ...prevSnake]], line 117) and,
    when nothing was eaten, drops the tail ([moveTo], [newSnake.pop()],
    line 145).

    The invariant [snake_wf] of a snake: it is non-empty, no cell occurs
    twice, every cell is on the board and consecutive segments are
    neighbours.  [growTo_wf] and [moveTo_wf] show that both moves keep it
    when the new head is a free in-bounds neighbour of the head. *)

From S2P Require Import Prelude Grid.

(** [{ x: head.x + directionRef.current.x, y: head.y + directionRef.current.y }] *)
Definition advance (head dir : Point) : Point := ⟨x head + x dir, y head + y dir⟩.

(** [[newHead, ...prevSnake]] *)
Definition growTo (newHead : Point) (prevSnake : list Point) : list Point :=
  newHead :: prevSnake.

(** [[newHead, ...prevSnake]] followed by [newSnake.pop()] *)
Definition moveTo (newHead : Point) (prevSnake : list Point) : list Point :=
  removelast (growTo newHead prevSnake).

(** Two cells are neighbours: they differ by one step on one axis. *)
Definition adjacent (p q : Point) : bool :=
  Z.abs (x p - x q) + Z.abs (y p - y q) =? 1.

(** A direction is a unit step. *)
Definition isUnit (d : Point) : bool := Z.abs (x d) + Z.abs (y d) =? 1.

(** Consecutive segments are neighbours. *)
Fixpoint linked (l : list Point) : bool :=
  match l with
  | p :: ((q :: _) as rest) => adjacent p q && linked rest
  | _ => true
  end.

Definition snake_wf (l : list Point) : Prop :=
  l <> [] /\ NoDup l /\ Forall inBounds l /\ linked l = true.

#[export] Instance snake_wf_dec l : Decision (snake_wf l).
Proof. unfold snake_wf. apply _. Defined.

(** ** Lemmas *)

Lemma advance_adjacent (h d : Point) : isUnit d = true -> adjacent (advance h d) h = true.
Proof.
  unfold isUnit, adjacent, advance. simpl. rewrite !Z.eqb_eq.
  replace (x h + x d - x h) with (x d) by lia.
  replace (y h + y d - y h) with (y d) by lia. done.
Qed.

Lemma length_growTo (nh : Point) (l : list Point) : length (growTo nh l) = S (length l).
Proof. reflexivity. Qed.

Lemma length_moveTo (nh : Point) (l : list Point) : length (moveTo nh l) = length l.
Proof. apply length_removelast_cons. Qed.

Lemma moveTo_cons (nh h : Point) (t : list Point) :
  moveTo nh (h :: t) = nh :: removelast (h :: t).
Proof. reflexivity. Qed.

Lemma linked_cons (p q : Point) (l : list Point) :
  linked (p :: q :: l) = adjacent p q && linked (q :: l).
Proof. reflexivity. Qed.

Lemma linked_removelast (l : list Point) : linked l = true -> linked (removelast l) = true.
Proof.
  induction l as [|p l IH]; [done|]. destruct l as [|q l]; [done|].
  rewrite linked_cons, andb_true_iff. intros [Hpq Hl].
  rewrite removelast_cons_cons. destruct l as [|r l]; [done|].
  rewrite removelast_cons_cons in IH |- *. rewrite linked_cons, Hpq. simpl.
  by apply IH.
Qed.

Lemma elem_of_moveTo (p nh : Point) (l : list Point) : p ∈ moveTo nh l -> p = nh \/ p ∈ l.
Proof.
  intros Hp%elem_of_removelast. unfold growTo in Hp. by apply elem_of_cons in Hp.
Qed.

Lemma not_in_growTo (p nh : Point) (l : list Point) :
  p <> nh -> p ∉ l -> p ∉ growTo nh l.
Proof. unfold growTo. rewrite elem_of_cons. tauto. Qed.

Lemma not_in_moveTo (p nh : Point) (l : list Point) :
  p <> nh -> p ∉ l -> p ∉ moveTo nh l.
Proof. intros Hne Hn Hin. apply elem_of_moveTo in Hin. tauto. Qed.

Section moves.
Context (nh h : Point) (t : list Point).
Hypothesis Hwf : snake_wf (h :: t).
Hypothesis Hin : inBounds nh.
Hypothesis Hfree : nh ∉ h :: t.
Hypothesis Hadj : adjacent nh h = true.

Lemma growTo_wf : snake_wf (growTo nh (h :: t)).
Proof.
  destruct Hwf as (_ & Hnd & Hb & Hl). unfold growTo. split_and!.
  - done.
  - by constructor.
  - by constructor.
  - by rewrite linked_cons, Hadj, Hl.
Qed.

Lemma moveTo_wf : snake_wf (moveTo nh (h :: t)).
Proof.
  pose proof growTo_wf as (_ & Hnd & Hb & Hl). unfold moveTo. split_and!.
  - unfold growTo. by rewrite removelast_cons_cons.
  - by apply NoDup_removelast.
  - by apply Forall_removelast.
  - by apply linked_removelast.
Qed.
End moves.

#[export] Hint Resolve growTo_wf moveTo_wf advance_adjacent : snake.
