(* ===== verification/Direction.v ===== *)
(** * Direction: the keys and the reversal guard of [handleDirection]

    [handleDirection] (useSnakeGame.ts, lines 152-179) receives one of
    ['UP' | 'DOWN' | 'LEFT' | 'RIGHT'] and, unless the guard of its case
    rejects it, writes the unit vector of the key to [directionRef] (and
    to the [direction] state).  The guard compares one coordinate of the
    current [directionRef] with the reverse of the key: UP is refused when
    [directionRef.current.y === 1], and so on.  [blocked] is that guard,
    [dirVector] the vector written, [turn] the resulting [directionRef].

    The guard looks at [directionRef], the last direction requested, not
    at the direction the snake last moved in; [Engine] shows what follows
    from that. *)

From S2P Require Import Prelude Grid Snake.
From Stdlib Require Import String.

Inductive Dir := UP | DOWN | LEFT | RIGHT.

#[export] Instance Dir_eq_dec : EqDecision Dir.
Proof. solve_decision. Defined.

(** The value written in each case. *)
Definition dirVector (d : Dir) : Point :=
  match d with
  | UP => ⟨0, -1⟩
  | DOWN => ⟨0, 1⟩
  | LEFT => ⟨-1, 0⟩
  | RIGHT => ⟨1, 0⟩
  end.

(** The negation of each case's condition: the request is ignored. *)
Definition blocked (d : Dir) (current : Point) : bool :=
  match d with
  | UP => y current =? 1
  | DOWN => y current =? -1
  | LEFT => x current =? 1
  | RIGHT => x current =? -1
  end.

(** [directionRef.current] after the request. *)
Definition turn (d : Dir) (current : Point) : Point :=
  if blocked d current then current else dirVector d.

(** The keydown listener of the hook: [preventDefault()] for the four
    arrow keys, then [handleDirection] with the key's direction.  It
    returns whether the default was prevented and the requested direction. *)
Definition handleKeyDown (key : string) : bool * option Dir :=
  let prevented := existsb (String.eqb key) ["ArrowUp"; "ArrowDown"; "ArrowLeft"; "ArrowRight"]%string in
  (prevented,
   if String.eqb key "ArrowUp" then Some UP
   else if String.eqb key "ArrowDown" then Some DOWN
   else if String.eqb key "ArrowLeft" then Some LEFT
   else if String.eqb key "ArrowRight" then Some RIGHT
   else None).

Arguments handleKeyDown : simpl never.

(** The name of the arrow key of a direction. *)
Definition arrowKey (d : Dir) : string :=
  match d with
  | UP => "ArrowUp" | DOWN => "ArrowDown" | LEFT => "ArrowLeft" | RIGHT => "ArrowRight"
  end%string.

(** The reverse of a direction. *)
Definition reverse (d : Point) : Point := ⟨- x d, - y d⟩.

(** ** Lemmas *)

Lemma dirVector_unit (d : Dir) : isUnit (dirVector d) = true.
Proof. by destruct d. Qed.

Lemma turn_unit (d : Dir) (current : Point) :
  isUnit current = true -> isUnit (turn d current) = true.
Proof. unfold turn. destruct (blocked d current); [done|intros _; apply dirVector_unit]. Qed.

(** The four unit steps. *)
Lemma isUnit_cases (d : Point) :
  isUnit d = true ->
  d = ⟨1, 0⟩ \/ d = ⟨-1, 0⟩ \/ d = ⟨0, 1⟩ \/ d = ⟨0, -1⟩.
Proof.
  destruct d as [dx dy]. unfold isUnit. simpl. rewrite Z.eqb_eq. intros H.
  assert (dx = 0 \/ dy = 0) as [->| ->] by lia;
    [assert (dy = 1 \/ dy = -1) as [->| ->] by lia
    |assert (dx = 1 \/ dx = -1) as [->| ->] by lia]; auto.
Qed.

(** One request never turns [directionRef] into the reverse of its
    current value. *)
Theorem turn_no_reverse (d : Dir) (current : Point) :
  isUnit current = true -> turn d current <> reverse current.
Proof.
  intros Hu. apply isUnit_cases in Hu as [-> | [-> | [-> | ->]]];
    destruct d; vm_compute; congruence.
Qed.

#[export] Hint Resolve turn_unit dirVector_unit : snake.

(** The listener prevents the default action of a key exactly when it
    requests a direction, and the arrow key of [d] requests [d]. *)
Lemma handleKeyDown_arrow (d : Dir) : handleKeyDown (arrowKey d) = (true, Some d).
Proof. by destruct d; unfold handleKeyDown. Qed.

Lemma handleKeyDown_prevents (key : string) :
  fst (handleKeyDown key) = true <-> is_Some (snd (handleKeyDown key)).
Proof.
  unfold handleKeyDown. simpl.
  destruct (String.eqb_spec key "ArrowUp"); [subst; simpl; split; eauto|].
  destruct (String.eqb_spec key "ArrowDown"); [subst; simpl; split; eauto|].
  destruct (String.eqb_spec key "ArrowLeft"); [subst; simpl; split; eauto|].
  destruct (String.eqb_spec key "ArrowRight"); [subst; simpl; split; eauto|].
  split; [|by intros []]. intros H. simpl in H. congruence.
Qed.
