(* ===== verification/Engine.v ===== *)
(** * Engine: the state and the callbacks of [useSnakeGame]

    [Game] is the hook's state: one field per [useState] cell (lines
    22-31, 58) and per ref that the logic reads ([directionRef],
    [speedRef], lines 33-34).  Each React setter or ref write is a
    function [Game -> Game] of the same name; a callback is the sequence
    of the setters it calls, in the order it calls them, with the
    updater functions applied to the value queued before them.

    The callbacks: [handleGameOver] (lines 52-56), [togglePause] (69-71),
    [resetGame] (73-90), [moveSnake] (92-150), [handleDirection]
    (152-179), the countdown callback [timerTick] (216-223) and the bonus
    timeout [expireBonus] (65).  [moveSnake] and [resetGame] draw random
    numbers and may not terminate ([generateFood]); they run in [RandM]
    and return an [Outcome]: the next state, or the [Fault] that stopped
    the callback. *)

From S2P Require Import Prelude Grid Random Food Snake Direction.

Inductive GameState := MENU | PLAYING | GAME_OVER.
Inductive GameMode := UNLIMITED | TIMED.
Inductive Difficulty := EASY | MEDIUM | HARD.

#[export] Instance GameState_eq_dec : EqDecision GameState.
Proof. solve_decision. Defined.
#[export] Instance GameMode_eq_dec : EqDecision GameMode.
Proof. solve_decision. Defined.
#[export] Instance Difficulty_eq_dec : EqDecision Difficulty.
Proof. solve_decision. Defined.

(** [const TIMED_DURATION = 60;] *)
Definition TIMED_DURATION : Z := 60.

(** [const SPEEDS: Record<Difficulty, number>] *)
Definition SPEEDS (d : Difficulty) : Z :=
  match d with EASY => 200 | MEDIUM => 140 | HARD => 90 end.

(** [const minSpeed = 50;] *)
Definition minSpeed : Z := 50.

(** [Math.max(minSpeed, speedRef.current - 2)] *)
Definition rampSpeed (speed : Z) : Z := Z.max minSpeed (speed - 2).

Record Game := mkGame {
  gameState : GameState;
  gameMode : GameMode;
  difficulty : Difficulty;
  snake : list Point;
  food : Point;
  direction : Point;
  score : Z;
  highScore : Z;
  timeLeft : Z;
  isPaused : bool;
  bonusFood : option Point;
  directionRef : Point;
  speedRef : Z
}.

(** The initial values of the [useState] and [useRef] calls. *)
Definition initialGame : Game := {|
  gameState := MENU; gameMode := UNLIMITED; difficulty := MEDIUM;
  snake := [⟨10, 10⟩]; food := ⟨15, 10⟩; direction := ⟨1, 0⟩;
  score := 0; highScore := 0; timeLeft := TIMED_DURATION; isPaused := false;
  bonusFood := None; directionRef := ⟨1, 0⟩; speedRef := SPEEDS MEDIUM |}.

(** ** The setters *)

Definition setGameState v g := {|
  gameState := v; gameMode := gameMode g; difficulty := difficulty g;
  snake := snake g; food := food g; direction := direction g; score := score g;
  highScore := highScore g; timeLeft := timeLeft g; isPaused := isPaused g;
  bonusFood := bonusFood g; directionRef := directionRef g; speedRef := speedRef g |}.
Definition setGameMode v g := {|
  gameState := gameState g; gameMode := v; difficulty := difficulty g;
  snake := snake g; food := food g; direction := direction g; score := score g;
  highScore := highScore g; timeLeft := timeLeft g; isPaused := isPaused g;
  bonusFood := bonusFood g; directionRef := directionRef g; speedRef := speedRef g |}.
Definition setDifficulty v g := {|
  gameState := gameState g; gameMode := gameMode g; difficulty := v;
  snake := snake g; food := food g; direction := direction g; score := score g;
  highScore := highScore g; timeLeft := timeLeft g; isPaused := isPaused g;
  bonusFood := bonusFood g; directionRef := directionRef g; speedRef := speedRef g |}.
Definition setSnake v g := {|
  gameState := gameState g; gameMode := gameMode g; difficulty := difficulty g;
  snake := v; food := food g; direction := direction g; score := score g;
  highScore := highScore g; timeLeft := timeLeft g; isPaused := isPaused g;
  bonusFood := bonusFood g; directionRef := directionRef g; speedRef := speedRef g |}.
Definition setFood v g := {|
  gameState := gameState g; gameMode := gameMode g; difficulty := difficulty g;
  snake := snake g; food := v; direction := direction g; score := score g;
  highScore := highScore g; timeLeft := timeLeft g; isPaused := isPaused g;
  bonusFood := bonusFood g; directionRef := directionRef g; speedRef := speedRef g |}.
Definition setDirection v g := {|
  gameState := gameState g; gameMode := gameMode g; difficulty := difficulty g;
  snake := snake g; food := food g; direction := v; score := score g;
  highScore := highScore g; timeLeft := timeLeft g; isPaused := isPaused g;
  bonusFood := bonusFood g; directionRef := directionRef g; speedRef := speedRef g |}.
Definition setScore v g := {|
  gameState := gameState g; gameMode := gameMode g; difficulty := difficulty g;
  snake := snake g; food := food g; direction := direction g; score := v;
  highScore := highScore g; timeLeft := timeLeft g; isPaused := isPaused g;
  bonusFood := bonusFood g; directionRef := directionRef g; speedRef := speedRef g |}.
Definition setHighScore v g := {|
  gameState := gameState g; gameMode := gameMode g; difficulty := difficulty g;
  snake := snake g; food := food g; direction := direction g; score := score g;
  highScore := v; timeLeft := timeLeft g; isPaused := isPaused g;
  bonusFood := bonusFood g; directionRef := directionRef g; speedRef := speedRef g |}.
Definition setTimeLeft v g := {|
  gameState := gameState g; gameMode := gameMode g; difficulty := difficulty g;
  snake := snake g; food := food g; direction := direction g; score := score g;
  highScore := highScore g; timeLeft := v; isPaused := isPaused g;
  bonusFood := bonusFood g; directionRef := directionRef g; speedRef := speedRef g |}.
Definition setIsPaused v g := {|
  gameState := gameState g; gameMode := gameMode g; difficulty := difficulty g;
  snake := snake g; food := food g; direction := direction g; score := score g;
  highScore := highScore g; timeLeft := timeLeft g; isPaused := v;
  bonusFood := bonusFood g; directionRef := directionRef g; speedRef := speedRef g |}.
Definition setBonusFood v g := {|
  gameState := gameState g; gameMode := gameMode g; difficulty := difficulty g;
  snake := snake g; food := food g; direction := direction g; score := score g;
  highScore := highScore g; timeLeft := timeLeft g; isPaused := isPaused g;
  bonusFood := v; directionRef := directionRef g; speedRef := speedRef g |}.
(** [directionRef.current = v] *)
Definition setDirectionRef v g := {|
  gameState := gameState g; gameMode := gameMode g; difficulty := difficulty g;
  snake := snake g; food := food g; direction := direction g; score := score g;
  highScore := highScore g; timeLeft := timeLeft g; isPaused := isPaused g;
  bonusFood := bonusFood g; directionRef := v; speedRef := speedRef g |}.
(** [speedRef.current = v] *)
Definition setSpeedRef v g := {|
  gameState := gameState g; gameMode := gameMode g; difficulty := difficulty g;
  snake := snake g; food := food g; direction := direction g; score := score g;
  highScore := highScore g; timeLeft := timeLeft g; isPaused := isPaused g;
  bonusFood := bonusFood g; directionRef := directionRef g; speedRef := v |}.

(** What stops a callback: [generateFood]'s loop not exiting, or
    [prevSnake[0]] being [undefined] (reading [head.x] then throws). *)
Inductive Fault := NoFreeCell | UndefinedHead.

Inductive Outcome := Done (g : Game) | Failed (f : Fault).

(** ** The callbacks *)

(** [handleGameOver]: the state becomes GAME_OVER and the high score
    takes the closure's [score] when it is larger. *)
Definition handleGameOver (g : Game) : Game :=
  g |> setGameState GAME_OVER
    |> setHighScore (if score g >? highScore g then score g else highScore g).

(** [togglePause] *)
Definition togglePause (g : Game) : Game := setIsPaused (negb (isPaused g)) g.

(** The bonus timeout: [setTimeout(() => setBonusFood(null), 5000)]. *)
Definition expireBonus (g : Game) : Game := setBonusFood None g.

(** The countdown: [setTimeLeft((t) => t <= 1 ? (handleGameOver(), 0) : t - 1)]. *)
Definition timerTick (g : Game) : Game :=
  if timeLeft g <=? 1 then g |> handleGameOver |> setTimeLeft 0
  else setTimeLeft (timeLeft g - 1) g.

(** [if (gameMode === "UNLIMITED") speedRef.current = Math.max(minSpeed, speedRef.current - 2);] *)
Definition applySpeedRamp (mode : GameMode) (g : Game) : Game :=
  if decide (mode = UNLIMITED) then setSpeedRef (rampSpeed (speedRef g)) g else g.

(** [handleDirection(newDir)] *)
Definition handleDirection (g : Game) (newDir : Dir) : Game :=
  if blocked newDir (directionRef g) then g
  else g |> setDirectionRef (dirVector newDir) |> setDirection (dirVector newDir).

Section callbacks.
Context {Rs : Type} `{!MathRandom Rs}.

(** [resetGame(mode)] *)
Definition resetGame (fuel : nat) (mode : GameMode) (g : Game) : RandM Rs Outcome :=
  f ← generateFood fuel [⟨10, 10⟩];
  match f with
  | None => mret (Failed NoFreeCell)
  | Some f =>
      mret (Done (g |> setGameState PLAYING |> setGameMode mode |> setIsPaused false
        |> setSnake [⟨10, 10⟩] |> setFood f |> setBonusFood None
        |> setDirection ⟨1, 0⟩ |> setDirectionRef ⟨1, 0⟩
        |> setScore 0 |> setTimeLeft TIMED_DURATION
        |> setSpeedRef (SPEEDS (difficulty g))))
  end.

(** [bonusFood && newHead.x === bonusFood.x && newHead.y === bonusFood.y] *)
Definition ateBonusAt (bonus : option Point) (newHead : Point) : bool :=
  match bonus with Some b => samePoint newHead b | None => false end.

(** [setScore((s) => s + 10); setBonusFood(null);] *)
Definition eatBonus (g : Game) : Game :=
  g |> setScore (score g + 10) |> setBonusFood None.

(** [!bonusFood && Math.random() > 0.8]: no draw when a bonus exists. *)
Definition rollBonus (bonus : option Point) : RandM Rs bool :=
  match bonus with None => mathRandomGt 8 10 | Some _ => mret false end.

(** [setBonusFood(generateFood(newSnake))] *)
Definition spawnBonus (fuel : nat) (newSnake : list Point) (g : Game) : RandM Rs (option Game) :=
  b ← generateFood fuel newSnake;
  mret (match b with Some b => Some (setBonusFood (Some b) g) | None => None end).

(** The food branch, on the state [g] left by the bonus branch, with the
    closure's [bonusFood] and [gameMode]:
    [setScore((s) => s + 1); setFood(generateFood(newSnake));
     if (!bonusFood && Math.random() > 0.8) setBonusFood(generateFood(newSnake));
     if (gameMode === "UNLIMITED") speedRef.current = Math.max(minSpeed, speedRef.current - 2);] *)
Definition eatFood (fuel : nat) (bonus : option Point) (mode : GameMode)
    (newSnake : list Point) (g : Game) : RandM Rs (option Game) :=
  nf ← generateFood fuel newSnake;
  match nf with
  | None => mret None
  | Some nf =>
      let g := g |> setScore (score g + 1) |> setFood nf in
      rollBonus bonus ≫= λ spawn : bool,
      g' ← (if spawn then spawnBonus fuel newSnake g else mret (Some g));
      mret (match g' with None => None | Some g' => Some (applySpeedRamp mode g') end)
  end.

(** [moveSnake]: the updater passed to [setSnake], with the state updates
    it queues.  A collision calls [handleGameOver] and keeps [prevSnake];
    otherwise the bonus branch runs, then the food branch, and the tail is
    popped when neither fired. *)
Definition moveSnake (fuel : nat) (g : Game) : RandM Rs Outcome :=
  match snake g with
  | [] => mret (Failed UndefinedHead)
  | head :: _ =>
      let prevSnake := snake g in
      let newHead := advance head (directionRef g) in
      if wallCollision newHead then mret (Done (handleGameOver g))
      else if onSnake prevSnake newHead then mret (Done (handleGameOver g))
      else
        let newSnake := growTo newHead prevSnake in
        let ateBonus := ateBonusAt (bonusFood g) newHead in
        let g1 := if ateBonus then eatBonus g else g in
        if samePoint newHead (food g) then
          g2 ← eatFood fuel (bonusFood g) (gameMode g) newSnake g1;
          mret (match g2 with
                | None => Failed NoFreeCell
                | Some g2 => Done (setSnake newSnake g2)
                end)
        else if ateBonus then mret (Done (setSnake newSnake g1))
        else mret (Done (setSnake (moveTo newHead prevSnake) g1))
  end.
End callbacks.

Arguments resetGame {Rs _} fuel mode g.
Arguments moveSnake {Rs _} fuel g.
Arguments eatFood {Rs _} fuel bonus mode newSnake g.
Arguments spawnBonus {Rs _} fuel newSnake g.
Arguments rollBonus {Rs _} bonus.

(** ** The branches of [moveSnake] *)

Section branches.
Context {Rs : Type} `{!MathRandom Rs}.
Context (fuel : nat) (g : Game) (h : Point) (t : list Point) (s : Rs).
Hypothesis Hsnake : snake g = h :: t.
Let newHead := advance h (directionRef g).

Lemma moveSnake_wall_run :
  wallCollision newHead = true ->
  run (moveSnake fuel g) s = (Done (handleGameOver g), s).
Proof. intros Hw. unfold moveSnake. rewrite Hsnake. cbv zeta. fold newHead. by rewrite Hw. Qed.

Lemma moveSnake_self_run :
  wallCollision newHead = false -> onSnake (snake g) newHead = true ->
  run (moveSnake fuel g) s = (Done (handleGameOver g), s).
Proof.
  intros Hw Hon. unfold moveSnake. rewrite Hsnake. cbv zeta. fold newHead.
  rewrite Hw. rewrite Hsnake in Hon. by rewrite Hon.
Qed.

Lemma moveSnake_move_run :
  wallCollision newHead = false -> onSnake (snake g) newHead = false ->
  samePoint newHead (food g) = false -> ateBonusAt (bonusFood g) newHead = false ->
  run (moveSnake fuel g) s = (Done (setSnake (moveTo newHead (snake g)) g), s).
Proof.
  intros Hw Hon Hf Hb. unfold moveSnake. rewrite Hsnake. cbv zeta. fold newHead.
  rewrite Hsnake in Hon. by rewrite Hw, Hon, Hf, Hb.
Qed.

Lemma moveSnake_bonus_run :
  wallCollision newHead = false -> onSnake (snake g) newHead = false ->
  samePoint newHead (food g) = false -> ateBonusAt (bonusFood g) newHead = true ->
  run (moveSnake fuel g) s = (Done (setSnake (growTo newHead (snake g)) (eatBonus g)), s).
Proof.
  intros Hw Hon Hf Hb. unfold moveSnake. rewrite Hsnake. cbv zeta. fold newHead.
  rewrite Hsnake in Hon. by rewrite Hw, Hon, Hf, Hb.
Qed.

Lemma moveSnake_food_run :
  wallCollision newHead = false -> onSnake (snake g) newHead = false ->
  samePoint newHead (food g) = true ->
  run (moveSnake fuel g) s =
  let '(g2, s') := run (eatFood fuel (bonusFood g) (gameMode g) (growTo newHead (snake g))
                       (if ateBonusAt (bonusFood g) newHead then eatBonus g else g)) s in
  (match g2 with None => Failed NoFreeCell | Some g2 => Done (setSnake (growTo newHead (snake g)) g2) end, s').
Proof.
  intros Hw Hon Hf. unfold moveSnake. rewrite Hsnake. cbv zeta. fold newHead.
  rewrite Hsnake in Hon. rewrite Hw, Hon, Hf. rand_simpl. by destruct_pairs.
Qed.
End branches.

(** ** Inversion of a completed tick

    [tick_result fuel g s g' s'] lists the four ways a call of [moveSnake]
    from [g] and source state [s] can complete with [g'] and [s']. *)
Inductive tick_result {Rs : Type} `{!MathRandom Rs} (fuel : nat) (g : Game) (s : Rs) :
    Game -> Rs -> Prop :=
  | tick_collision h t :
      snake g = h :: t ->
      wallCollision (advance h (directionRef g)) = true \/
        onSnake (snake g) (advance h (directionRef g)) = true ->
      tick_result fuel g s (handleGameOver g) s
  | tick_move h t :
      snake g = h :: t ->
      wallCollision (advance h (directionRef g)) = false ->
      onSnake (snake g) (advance h (directionRef g)) = false ->
      samePoint (advance h (directionRef g)) (food g) = false ->
      ateBonusAt (bonusFood g) (advance h (directionRef g)) = false ->
      tick_result fuel g s (setSnake (moveTo (advance h (directionRef g)) (snake g)) g) s
  | tick_bonus h t :
      snake g = h :: t ->
      wallCollision (advance h (directionRef g)) = false ->
      onSnake (snake g) (advance h (directionRef g)) = false ->
      samePoint (advance h (directionRef g)) (food g) = false ->
      ateBonusAt (bonusFood g) (advance h (directionRef g)) = true ->
      tick_result fuel g s (setSnake (growTo (advance h (directionRef g)) (snake g)) (eatBonus g)) s
  | tick_food h t g2 s' :
      snake g = h :: t ->
      wallCollision (advance h (directionRef g)) = false ->
      onSnake (snake g) (advance h (directionRef g)) = false ->
      samePoint (advance h (directionRef g)) (food g) = true ->
      run (eatFood fuel (bonusFood g) (gameMode g) (growTo (advance h (directionRef g)) (snake g))
             (if ateBonusAt (bonusFood g) (advance h (directionRef g)) then eatBonus g else g)) s
        = (Some g2, s') ->
      tick_result fuel g s (setSnake (growTo (advance h (directionRef g)) (snake g)) g2) s'.

Lemma moveSnake_Done {Rs : Type} `{!MathRandom Rs} (fuel : nat) (g g' : Game) (s s' : Rs) :
  run (moveSnake fuel g) s = (Done g', s') -> tick_result fuel g s g' s'.
Proof.
  destruct (snake g) as [|h t] eqn:Hs.
  { unfold moveSnake. rewrite Hs. done. }
  destruct (wallCollision (advance h (directionRef g))) eqn:Hw.
  { rewrite (moveSnake_wall_run fuel g h t s Hs Hw). intros [= <- <-].
    by eapply tick_collision; [|left]. }
  destruct (onSnake (snake g) (advance h (directionRef g))) eqn:Hon.
  { rewrite (moveSnake_self_run fuel g h t s Hs Hw Hon). intros [= <- <-].
    by eapply tick_collision; [|right]. }
  destruct (samePoint (advance h (directionRef g)) (food g)) eqn:Hf.
  - rewrite (moveSnake_food_run fuel g h t s Hs Hw Hon Hf).
    destruct (run (eatFood _ _ _ _ _) s) as [[g2|] s2] eqn:He; [|done].
    intros [= <- <-]. by eapply tick_food.
  - destruct (ateBonusAt (bonusFood g) (advance h (directionRef g))) eqn:Hb.
    + rewrite (moveSnake_bonus_run fuel g h t s Hs Hw Hon Hf Hb). intros [= <- <-].
      by eapply tick_bonus.
    + rewrite (moveSnake_move_run fuel g h t s Hs Hw Hon Hf Hb). intros [= <- <-].
      by eapply tick_move.
Qed.

(** ** The food branch *)

Lemma ateBonusAt_false (bonus : option Point) (nh : Point) :
  ateBonusAt bonus nh = false -> forall b, bonus = Some b -> b <> nh.
Proof. intros H b ->. simpl in H. apply samePoint_false_iff in H. congruence. Qed.

Lemma ateBonusAt_true (bonus : option Point) (nh : Point) :
  ateBonusAt bonus nh = true -> bonus = Some nh.
Proof. destruct bonus; [|done]. simpl. by intros ->%samePoint_true_iff. Qed.

Lemma setBonusFood_same (g : Game) : setBonusFood (bonusFood g) g = g.
Proof. by destruct g. Qed.

Section eat_food.
Context {Rs : Type} `{!MathRandom Rs, !MathRandomLaws Rs}.

(** What the food branch leaves: a free in-bounds food, the score plus
    one, the bonus kept or (when the closure had none) a fresh free bonus,
    and the speed ramp in UNLIMITED mode. *)
Lemma eatFood_spec (fuel : nat) (bonus : option Point) (mode : GameMode)
    (newSnake : list Point) (g g' : Game) (s s' : Rs) :
  run (eatFood fuel bonus mode newSnake g) s = (Some g', s') ->
  exists nf nb, inBounds nf /\ (nf ∉ newSnake) /\
    (nb = bonusFood g \/ bonus = None /\ (exists b, nb = Some b /\ inBounds b /\ b ∉ newSnake)) /\
    g' = applySpeedRamp mode (g |> setScore (score g + 1) |> setFood nf |> setBonusFood nb).
Proof.
  unfold eatFood. rand_simpl.
  destruct (generateFood fuel newSnake s) as [[nf|] s1] eqn:Hgen; [|done].
  apply (generateFood_sound fuel newSnake s s1) in Hgen as [Hnf Hnfs].
  destruct (rollBonus bonus s1) as [spawn s2] eqn:Hroll.
  destruct spawn.
  - unfold spawnBonus. rand_simpl.
    destruct (generateFood fuel newSnake s2) as [[b|] s3] eqn:Hgen2; [|done].
    apply (generateFood_sound fuel newSnake s2 s3) in Hgen2 as [Hb Hbs].
    intros Heq. injection Heq as <- _. exists nf, (Some b). split_and!; [done|done| |done].
    right. split; [|eauto]. destruct bonus; [|done].
    unfold rollBonus in Hroll. rand_simpl. congruence.
  - intros Heq. injection Heq as <- _. exists nf, (bonusFood g).
    split_and!; try done. by left.
Qed.
End eat_food.


(** ** The invariant of the hook state *)

(** [scoreBound n sc]: a snake of [n] segments and a score [sc] that its
    growth accounts for; each growth adds 1, 10 or 11 points. *)
Definition scoreBound (n : nat) (sc : Z) : Prop :=
  Z.of_nat n - 1 <= sc <= 11 * (Z.of_nat n - 1).

Record game_wf (g : Game) : Prop := {
  wf_snake : snake_wf (snake g);
  wf_food_in : inBounds (food g);
  wf_food_free : food g ∉ snake g;
  wf_bonus : forall b, bonusFood g = Some b -> inBounds b /\ b ∉ snake g;
  wf_dir_unit : isUnit (directionRef g) = true;
  wf_dir_sync : direction g = directionRef g;
  wf_speed : minSpeed <= speedRef g <= 200;
  wf_time : 0 <= timeLeft g <= TIMED_DURATION;
  wf_high : 0 <= highScore g;
  wf_settled : gameState g <> PLAYING -> score g <= highScore g;
  wf_score : scoreBound (length (snake g)) (score g)
}.

Lemma scoreBound_move (n : nat) (sc : Z) : scoreBound n sc -> scoreBound n sc.
Proof. done. Qed.

Lemma scoreBound_grow (n : nat) (sc k : Z) :
  1 <= k <= 11 -> scoreBound n sc -> scoreBound (S n) (sc + k).
Proof. unfold scoreBound. lia. Qed.

Lemma handleGameOver_wf (g : Game) : game_wf g -> game_wf (handleGameOver g).
Proof.
  intros []. unfold handleGameOver. split; simpl; try done.
  - destruct (Z.gtb_spec (score g) (highScore g)); lia.
  - intros _. destruct (Z.gtb_spec (score g) (highScore g)); lia.
Qed.

Lemma rampSpeed_bounds (sp : Z) : minSpeed <= sp <= 200 -> minSpeed <= rampSpeed sp <= 200.
Proof. unfold rampSpeed, minSpeed. lia. Qed.

Lemma applySpeedRamp_wf (mode : GameMode) (g : Game) :
  game_wf g -> game_wf (applySpeedRamp mode g).
Proof.
  unfold applySpeedRamp. case_decide; [|done].
  intros []. split; simpl; auto using rampSpeed_bounds.
Qed.

Lemma setSnake_applySpeedRamp (l : list Point) (mode : GameMode) (g : Game) :
  setSnake l (applySpeedRamp mode g) = applySpeedRamp mode (setSnake l g).
Proof. unfold applySpeedRamp. by case_decide. Qed.

Section branch_wf.
Context (g : Game) (h : Point) (t : list Point).
Hypothesis Hwf : game_wf g.
Hypothesis Hsnake : snake g = h :: t.
Hypothesis Hplaying : gameState g = PLAYING.
Let newHead := advance h (directionRef g).
Hypothesis Hw : wallCollision newHead = false.
Hypothesis Hon : onSnake (snake g) newHead = false.

Lemma newHead_in : inBounds newHead.
Proof. by apply wallCollision_false_iff. Qed.

Lemma newHead_free : newHead ∉ h :: t.
Proof. rewrite <- Hsnake. by apply onSnake_false_iff. Qed.

Lemma newHead_adjacent : adjacent newHead h = true.
Proof. apply advance_adjacent, (wf_dir_unit _ Hwf). Qed.

Lemma move_wf :
  samePoint newHead (food g) = false -> ateBonusAt (bonusFood g) newHead = false ->
  game_wf (setSnake (moveTo newHead (snake g)) g).
Proof.
  intros Hf%samePoint_false_iff Hb. pose proof (ateBonusAt_false _ _ Hb) as Hb'.
  destruct Hwf. split; simpl; try done.
  - rewrite Hsnake. apply moveTo_wf; [by rewrite <- Hsnake|..];
      auto using newHead_in, newHead_free, newHead_adjacent.
  - apply not_in_moveTo; auto.
  - intros b Hbe. destruct (wf_bonus0 b Hbe). split; [done|].
    apply not_in_moveTo; auto.
  - by rewrite length_moveTo.
Qed.

Lemma bonus_wf :
  samePoint newHead (food g) = false -> ateBonusAt (bonusFood g) newHead = true ->
  game_wf (setSnake (growTo newHead (snake g)) (eatBonus g)).
Proof.
  intros Hf%samePoint_false_iff Hb.
  destruct Hwf. split; simpl; try done; try (intros ?; congruence).
  - rewrite Hsnake. apply growTo_wf; [by rewrite <- Hsnake|..];
      auto using newHead_in, newHead_free, newHead_adjacent.
  - apply not_in_growTo; auto.
  - apply scoreBound_grow; [lia|done].
Qed.

Lemma food_wf {Rs : Type} `{!MathRandom Rs, !MathRandomLaws Rs} (fuel : nat) (s s' : Rs) (g2 : Game) :
  run (eatFood fuel (bonusFood g) (gameMode g) (growTo newHead (snake g))
         (if ateBonusAt (bonusFood g) newHead then eatBonus g else g)) s = (Some g2, s') ->
  game_wf (setSnake (growTo newHead (snake g)) g2).
Proof.
  intros (nf & nb & Hnf & Hnfs & Hnb & ->)%eatFood_spec.
  rewrite setSnake_applySpeedRamp. apply applySpeedRamp_wf.
  pose proof newHead_in. pose proof newHead_free. pose proof newHead_adjacent.
  destruct (ateBonusAt (bonusFood g) newHead) eqn:Hb;
    [pose proof (ateBonusAt_true _ _ Hb) as Hb'|pose proof (ateBonusAt_false _ _ Hb) as Hb'];
    destruct Hwf; split; simpl; try done; try (intros ?; congruence);
    try (rewrite Hsnake; apply growTo_wf; [by rewrite <- Hsnake|..]; done);
    try (unfold scoreBound in *; lia);
    intros b ->; destruct Hnb as [Hnb|(_ & b' & [= <-] & ?)]; try done.
  destruct (wf_bonus0 b (eq_sym Hnb)). split; [done|].
  apply not_in_growTo; [by apply Hb'|done].
Qed.
End branch_wf.

(** [moveSnake], fired while PLAYING, keeps the invariant. *)
Lemma moveSnake_wf {Rs : Type} `{!MathRandom Rs, !MathRandomLaws Rs}
    (fuel : nat) (g g' : Game) (s s' : Rs) :
  game_wf g -> gameState g = PLAYING ->
  run (moveSnake fuel g) s = (Done g', s') -> game_wf g'.
Proof.
  intros Hwf Hpl Hrun. destruct (moveSnake_Done fuel g g' s s' Hrun).
  - by apply handleGameOver_wf.
  - by eapply move_wf.
  - by eapply bonus_wf.
  - by eapply food_wf.
Qed.

(** What a completed tick leaves alone: either it ended the game, or it
    kept the game state, the high score, the countdown, the pause flag, the
    mode, the difficulty and the direction. *)
Lemma moveSnake_frame {Rs : Type} `{!MathRandom Rs, !MathRandomLaws Rs}
    (fuel : nat) (g g' : Game) (s s' : Rs) :
  run (moveSnake fuel g) s = (Done g', s') ->
  g' = handleGameOver g \/
  (gameState g' = gameState g /\ highScore g' = highScore g /\ timeLeft g' = timeLeft g /\
   isPaused g' = isPaused g /\ gameMode g' = gameMode g /\ difficulty g' = difficulty g /\
   directionRef g' = directionRef g).
Proof.
  intros Hrun. destruct (moveSnake_Done fuel g g' s s' Hrun) as [| | |h t g2 s2 _ _ _ _ He];
    [by left|by right|by right|right].
  apply eatFood_spec in He as (nf & nb & _ & _ & _ & ->).
  unfold applySpeedRamp. destruct (ateBonusAt _ _); case_decide; simpl; done.
Qed.
