(* ===== verification/Machine.v ===== *)
(** * Machine: the game as a transition system

    The hook's callbacks fire on events: the timers armed by its effects
    (the game loop, lines 200-211; the countdown, lines 213-227; the bonus
    timeout, lines 62-67) and the user events that [SnakeGame.tsx] wires to
    buttons in a given game state or that the keyboard listener (lines
    181-198) delivers.  [enabled] is the condition under which each event
    exists: the effect's guard for a timer, the JSX condition around the
    button for a click.  [step] runs the callback of the event, and
    [reachable] is the set of states reachable from [initialGame].

    [reachable_wf] proves that every reachable state satisfies [game_wf]. *)

From S2P Require Import Prelude Grid Random Food Snake Direction Engine.
From Stdlib Require String.

Inductive Event :=
  | EvTick                          (** [setInterval(moveSnake, speedRef.current)] *)
  | EvSecond                        (** the countdown's [setInterval(..., 1000)] *)
  | EvBonusTimeout                  (** [setTimeout(() => setBonusFood(null), 5000)] *)
  | EvKeyDown (key : String.string)  (** a [keydown] event: [handleKeyDown] *)
  | EvTouch (d : Dir)               (** a touch arrow's [onPointerDown]: [handleDirection] *)
  | EvTogglePause                   (** pause / resume buttons: [togglePause] *)
  | EvSelectDifficulty (d : Difficulty) (** difficulty buttons: [setDifficulty] *)
  | EvStart (m : GameMode)          (** mode buttons and "Try Again": [resetGame] *)
  | EvChangeMode.                   (** "Change Mode": [setGameState("MENU")] *)

#[export] Instance Event_eq_dec : EqDecision Event.
Proof.
  intros e1 e2. unfold Decision.
  decide equality; first [apply String.string_dec | apply (decide (_ = _))].
Defined.

Definition playing (g : Game) : bool :=
  match gameState g with PLAYING => true | _ => false end.

(** When each event can fire. *)
Definition enabled (g : Game) (ev : Event) : bool :=
  match ev with
  | EvTick => playing g && negb (isPaused g)
  | EvSecond => playing g && bool_decide (gameMode g = TIMED) && negb (isPaused g)
  | EvBonusTimeout => bool_decide (is_Some (bonusFood g))
  | EvKeyDown _ => true
  | EvTouch _ => playing g
  | EvTogglePause => playing g
  | EvSelectDifficulty _ => bool_decide (gameState g = MENU)
  | EvStart m => bool_decide (gameState g = MENU) ||
                 bool_decide (gameState g = GAME_OVER /\ m = gameMode g)
  | EvChangeMode => bool_decide (gameState g = GAME_OVER)
  end.

Section machine.
Context {Rs : Type} `{!MathRandom Rs}.

(** The callback each event runs. *)
Definition step (fuel : nat) (g : Game) (ev : Event) : RandM Rs Outcome :=
  match ev with
  | EvTick => moveSnake fuel g
  | EvSecond => mret (Done (timerTick g))
  | EvBonusTimeout => mret (Done (expireBonus g))
  | EvKeyDown key =>
      mret (Done (match snd (handleKeyDown key) with
                  | Some d => handleDirection g d
                  | None => g
                  end))
  | EvTouch d => mret (Done (handleDirection g d))
  | EvTogglePause => mret (Done (togglePause g))
  | EvSelectDifficulty d => mret (Done (setDifficulty d g))
  | EvStart m => resetGame fuel m g
  | EvChangeMode => mret (Done (setGameState MENU g))
  end.

Inductive reachable : Game -> Prop :=
  | reach_init : reachable initialGame
  | reach_step fuel g ev s g' s' :
      reachable g -> enabled g ev = true ->
      run (step fuel g ev) s = (Done g', s') -> reachable g'.
End machine.

Arguments step {Rs _} fuel g ev.
Arguments reachable Rs {_} g.

(** ** The invariant of the reachable states *)

Lemma initialGame_wf : game_wf initialGame.
Proof. split; simpl; try done; try decide_prop; try (unfold scoreBound; simpl; lia). Qed.

Lemma timerTick_wf (g : Game) : game_wf g -> game_wf (timerTick g).
Proof.
  unfold timerTick. destruct (Z.leb_spec (timeLeft g) 1).
  - intros Hwf. destruct (handleGameOver_wf g Hwf). split; simpl; try done.
  - intros []. split; simpl; try done. lia.
Qed.

Lemma handleDirection_wf (g : Game) (d : Dir) : game_wf g -> game_wf (handleDirection g d).
Proof.
  unfold handleDirection. destruct (blocked d (directionRef g)) eqn:Hbl; [done|].
  intros []. split; simpl; auto with snake.
Qed.

Lemma changeMode_wf (g : Game) :
  gameState g <> PLAYING -> game_wf g -> game_wf (setGameState MENU g).
Proof. intros Hst []. split; simpl; auto. Qed.

Lemma SPEEDS_bounds (d : Difficulty) : minSpeed <= SPEEDS d <= 200.
Proof. destruct d; vm_compute; split; discriminate. Qed.

Lemma resetGame_wf {Rs : Type} `{!MathRandom Rs, !MathRandomLaws Rs}
    (fuel : nat) (m : GameMode) (g g' : Game) (s s' : Rs) :
  game_wf g -> run (resetGame fuel m g) s = (Done g', s') -> game_wf g'.
Proof.
  intros Hwf. unfold resetGame. rand_simpl.
  destruct (generateFood fuel [⟨10, 10⟩] s) as [[f|] s1] eqn:Hgen; [|done].
  apply (generateFood_sound fuel) in Hgen as [Hf Hfs].
  intros [= <- _]. destruct Hwf.
  split; simpl; try done; auto using SPEEDS_bounds; try decide_prop.
Qed.

Section step_wf.
Context {Rs : Type} `{!MathRandom Rs, !MathRandomLaws Rs}.

Lemma step_wf (fuel : nat) (g g' : Game) (ev : Event) (s s' : Rs) :
  game_wf g -> enabled g ev = true ->
  run (step fuel g ev) s = (Done g', s') -> game_wf g'.
Proof.
  intros Hwf Hen. destruct ev; cbn [step enabled] in Hen |- *.
  - apply andb_true_iff in Hen as [Hpl _]. unfold playing in Hpl.
    apply moveSnake_wf; [done|]. by destruct (gameState g).
  - intros [= <- _]. by apply timerTick_wf.
  - intros [= <- _]. destruct Hwf. split; simpl; try done.
  - destruct (snd (handleKeyDown key)); intros [= <- _]; [by apply handleDirection_wf|done].
  - intros [= <- _]. by apply handleDirection_wf.
  - intros [= <- _]. destruct Hwf. split; simpl; try done.
  - intros [= <- _]. destruct Hwf. split; simpl; try done.
  - by apply resetGame_wf.
  - intros [= <- _]. apply bool_decide_eq_true in Hen.
    apply changeMode_wf; [by rewrite Hen|done].
Qed.

(** C1: every state the game can reach satisfies [game_wf]: the snake is
    a duplicate-free chain of neighbouring cells on the board, food and
    bonus food are on free cells of the board, the direction is a unit
    step kept in sync with its ref, the tick interval stays within
    [[50, 200]] ms, the countdown within [[0, 60]], the high score bounds
    the score of a finished game, and the score is accounted for by the
    snake's growth. *)
Theorem reachable_wf (g : Game) : reachable Rs g -> game_wf g.
Proof.
  induction 1 as [|fuel g ev s g' s' _ IH Hen Hrun].
  - apply initialGame_wf.
  - by eapply step_wf.
Qed.
End step_wf.

(** The state after pressing "Unlimited Mode" in the menu, on a tape that
    places the food at (15, 10). *)
Definition startedGame : Game :=
  match fst (run (step 1 initialGame (EvStart UNLIMITED)) (mkTape (tapeOf ⟨15, 10⟩))) with
  | Done g => g
  | Failed _ => initialGame
  end.

Lemma reachable_startedGame : reachable Tape startedGame.
Proof.
  eapply (reach_step 1 initialGame (EvStart UNLIMITED) (mkTape (tapeOf ⟨15, 10⟩)));
    [apply reach_init|reflexivity|vm_compute; reflexivity].
Qed.

Lemma reachable_wf_witness : reachable Tape startedGame /\ game_wf startedGame.
Proof.
  pose proof reachable_startedGame as H.
  split; [exact H|]. exact (reachable_wf startedGame H).
Defined.

(** ** The timed countdown *)

Lemma setTimeLeft_setTimeLeft (a b : Z) (g : Game) :
  setTimeLeft a (setTimeLeft b g) = setTimeLeft a g.
Proof. by destruct g. Qed.

Lemma setTimeLeft_same (g : Game) : setTimeLeft (timeLeft g) g = g.
Proof. by destruct g. Qed.

(** Before the last second, the [k]-th firing only counts down. *)
Lemma timerTick_iter (g : Game) (k : nat) :
  (k < Z.to_nat (timeLeft g))%nat ->
  Nat.iter k timerTick g = setTimeLeft (timeLeft g - Z.of_nat k) g.
Proof.
  induction k as [|k IH]; intros Hk.
  - simpl. rewrite Z.sub_0_r. symmetry. apply setTimeLeft_same.
  - rewrite Nat.iter_succ, IH by lia. unfold timerTick. simpl.
    destruct (Z.leb_spec (timeLeft g - Z.of_nat k) 1); [lia|].
    rewrite setTimeLeft_setTimeLeft. f_equal. lia.
Qed.

(** C15: a timed game that is running and not paused counts down one per
    second and ends exactly when its [timeLeft] firings are done: every
    firing before is enabled, the last one sets GAME_OVER with [timeLeft]
    0 and the high score raised to the score, and the countdown is then
    no longer armed. *)
Theorem countdown_ends_game (g : Game) :
  gameState g = PLAYING -> gameMode g = TIMED -> isPaused g = false -> 1 <= timeLeft g ->
  (forall k, (k < Z.to_nat (timeLeft g))%nat -> enabled (Nat.iter k timerTick g) EvSecond = true) /\
  let g' := Nat.iter (Z.to_nat (timeLeft g)) timerTick g in
  gameState g' = GAME_OVER /\ timeLeft g' = 0 /\
  highScore g' = Z.max (highScore g) (score g) /\ enabled g' EvSecond = false.
Proof.
  intros Hst Hm Hp Ht. split.
  - intros k Hk. rewrite timerTick_iter by done. unfold enabled, playing. cbn.
    rewrite Hst, Hp, bool_decide_true by done. done.
  - replace (Z.to_nat (timeLeft g)) with (S (Z.to_nat (timeLeft g) - 1)) by lia.
    rewrite Nat.iter_succ, timerTick_iter by lia. unfold timerTick. simpl.
    destruct (Z.leb_spec (timeLeft g - Z.of_nat (Z.to_nat (timeLeft g) - 1)) 1); [|lia].
    unfold handleGameOver. simpl. split_and!; try done.
    destruct (Z.gtb_spec (score g) (highScore g)); lia.
Qed.

(** A timed game just started from the menu. *)
Definition timedGame : Game :=
  match fst (run (step 1 initialGame (EvStart TIMED)) (mkTape (tapeOf ⟨15, 10⟩))) with
  | Done g => g
  | Failed _ => initialGame
  end.

Lemma countdown_ends_game_witness :
  let g' := Nat.iter 60 timerTick timedGame in
  gameState g' = GAME_OVER /\ timeLeft g' = 0 /\
  highScore g' = Z.max (highScore timedGame) (score timedGame) /\ enabled g' EvSecond = false.
Proof.
  apply (countdown_ends_game timedGame); vm_compute; try reflexivity; discriminate.
Defined.

(** ** Pause *)

(** C16: pausing a running game disarms the game loop and the countdown,
    keeps accepting direction requests from the keys and the touch arrows
    (they land in [directionRef] for the next tick), and resuming restores
    the state exactly, [timeLeft] and [speedRef] included. *)
Theorem pause_suspends_timers (g : Game) (d : Dir) :
  gameState g = PLAYING -> isPaused g = false ->
  let gp := togglePause g in
  enabled gp EvTick = false /\ enabled gp EvSecond = false /\
  enabled gp (EvKeyDown (arrowKey d)) = true /\ enabled gp (EvTouch d) = true /\
  directionRef (handleDirection gp d) = turn d (directionRef g) /\
  togglePause gp = g.
Proof.
  intros Hst Hp gp. unfold gp, togglePause, enabled, playing, handleDirection, turn. cbn.
  rewrite Hst, Hp. rewrite !andb_false_r. split_and!; try done.
  - by destruct (blocked d (directionRef g)).
  - by destruct g; simpl in *; subst.
Qed.

Lemma pause_suspends_timers_witness :
  let gp := togglePause startedGame in
  enabled gp EvTick = false /\ enabled gp EvSecond = false /\
  enabled gp (EvKeyDown (arrowKey UP)) = true /\ enabled gp (EvTouch UP) = true /\
  directionRef (handleDirection gp UP) = turn UP (directionRef startedGame) /\
  togglePause gp = startedGame.
Proof. apply (pause_suspends_timers startedGame UP); reflexivity. Defined.

(** ** The high score *)

(** C17: an event changes the high score only by ending the game with a
    score above it, and then sets it to that score; otherwise it is kept.
    In particular the high score never decreases. *)
Theorem step_highScore {Rs : Type} `{!MathRandom Rs, !MathRandomLaws Rs}
    (fuel : nat) (g g' : Game) (ev : Event) (s s' : Rs) :
  run (step fuel g ev) s = (Done g', s') ->
  highScore g' = highScore g \/
  (gameState g' = GAME_OVER /\ highScore g < score g /\ highScore g' = score g).
Proof.
  assert (Hgo : forall g0, highScore (handleGameOver g0) = highScore g0 \/
                (gameState (handleGameOver g0) = GAME_OVER /\
                 highScore g0 < score g0 /\ highScore (handleGameOver g0) = score g0)).
  { intros g0. unfold handleGameOver. simpl.
    destruct (Z.gtb_spec (score g0) (highScore g0)); [right; split_and!; done || lia|by left]. }
  destruct ev; cbn [step].
  - intros Hrun. destruct (moveSnake_frame fuel g g' s s' Hrun) as [->|(_ & ? & _)]; auto.
  - intros [= <- _]. unfold timerTick. destruct (timeLeft g <=? 1); [exact (Hgo g)|by left].
  - intros [= <- _]. by left.
  - destruct (snd (handleKeyDown key)); intros [= <- _]; left; [|done].
    unfold handleDirection. by destruct (blocked _ _).
  - intros [= <- _]. left. unfold handleDirection. by destruct (blocked _ _).
  - intros [= <- _]. by left.
  - intros [= <- _]. by left.
  - unfold resetGame. rand_simpl. destruct (generateFood _ _ s) as [[]]; [|done].
    intros [= <- _]. by left.
  - intros [= <- _]. by left.
Qed.

(** The last second of a timed game scored 5. *)
Definition lastSecondGame : Game := timedGame |> setScore 5 |> setTimeLeft 1.

Lemma step_highScore_witness :
  highScore (timerTick lastSecondGame) = highScore lastSecondGame \/
  (gameState (timerTick lastSecondGame) = GAME_OVER /\
   highScore lastSecondGame < score lastSecondGame /\
   highScore (timerTick lastSecondGame) = score lastSecondGame).
Proof.
  apply (step_highScore 1 lastSecondGame (timerTick lastSecondGame) EvSecond (mkTape []) (mkTape [])).
  reflexivity.
Defined.

(** ** Bounds *)

(** C18: the snake of a reachable state never has more than 400 segments,
    the cells of the board. *)
Theorem reachable_snake_length {Rs : Type} `{!MathRandom Rs, !MathRandomLaws Rs} (g : Game) :
  reachable Rs g -> (length (snake g) <= 400)%nat.
Proof.
  intros Hr. destruct (wf_snake g (reachable_wf g Hr)) as (_ & Hnd & Hin & _).
  by apply length_in_grid.
Qed.

Lemma reachable_snake_length_witness : (length (snake startedGame) <= 400)%nat.
Proof. apply (reachable_snake_length startedGame reachable_startedGame). Defined.

(** ** Starting a game *)

(** C19: [resetGame(mode)] starts a fresh game: PLAYING in the chosen mode,
    unpaused, a one-cell snake at (10, 10) heading right, score 0, a full
    60-second countdown, the interval of the current difficulty, no bonus,
    the high score kept, and food on a board cell other than (10, 10). *)
Theorem resetGame_fresh {Rs : Type} `{!MathRandom Rs, !MathRandomLaws Rs}
    (fuel : nat) (m : GameMode) (g g' : Game) (s s' : Rs) :
  run (resetGame fuel m g) s = (Done g', s') ->
  gameState g' = PLAYING /\ gameMode g' = m /\ isPaused g' = false /\
  snake g' = [⟨10, 10⟩] /\ directionRef g' = ⟨1, 0⟩ /\ direction g' = ⟨1, 0⟩ /\
  score g' = 0 /\ timeLeft g' = TIMED_DURATION /\ speedRef g' = SPEEDS (difficulty g) /\
  bonusFood g' = None /\ highScore g' = highScore g /\
  inBounds (food g') /\ food g' <> ⟨10, 10⟩.
Proof.
  unfold resetGame. rand_simpl.
  destruct (generateFood fuel [⟨10, 10⟩] s) as [[f|] s1] eqn:Hgen; [|done].
  apply (generateFood_sound fuel) in Hgen as [Hf Hfs].
  intros [= <- _]. simpl. split_and!; try done. set_solver.
Qed.

Lemma resetGame_fresh_witness :
  let g' := startedGame in
  gameState g' = PLAYING /\ gameMode g' = UNLIMITED /\ isPaused g' = false /\
  snake g' = [⟨10, 10⟩] /\ directionRef g' = ⟨1, 0⟩ /\ direction g' = ⟨1, 0⟩ /\
  score g' = 0 /\ timeLeft g' = TIMED_DURATION /\ speedRef g' = SPEEDS (difficulty initialGame) /\
  bonusFood g' = None /\ highScore g' = highScore initialGame /\
  inBounds (food g') /\ food g' <> ⟨10, 10⟩.
Proof.
  apply (resetGame_fresh 1 UNLIMITED initialGame startedGame (mkTape (tapeOf ⟨15, 10⟩)) (mkTape [])).
  vm_compute. reflexivity.
Defined.
