(* ===== verification/Tick.v ===== *)
(** * Tick: what one firing of [moveSnake] does

    The functional behaviour of [moveSnake] (useSnakeGame.ts, lines
    92-150) on each of its branches, stated with the board and body
    membership as propositions so that the code's tests are checked
    against them:
    - a wall or self collision ends the game ([moveSnake_wall_game_over],
      [moveSnake_self_game_over]);
    - eating the food scores and grows ([moveSnake_eat_food]);
    - any other free move shifts the body ([moveSnake_plain_move]);
    and what follows from the code where it departs from the spec: the
    tick that fills the board never returns, two direction requests
    between ticks can reverse the snake into its neck, and food and bonus
    food can share a cell and are then both eaten. *)

From S2P Require Import Prelude Double Grid Random Food Snake Direction Engine Machine.

(** ** The behaviour of [moveSnake] on each branch *)

Lemma handleGameOver_fields (g : Game) :
  gameState (handleGameOver g) = GAME_OVER /\ snake (handleGameOver g) = snake g /\
  score (handleGameOver g) = score g /\
  highScore (handleGameOver g) = Z.max (highScore g) (score g).
Proof.
  unfold handleGameOver. simpl. split_and!; try done.
  destruct (Z.gtb_spec (score g) (highScore g)); lia.
Qed.

Lemma newHead_tests (g : Game) (nh : Point) :
  inBounds nh -> nh ∉ snake g -> wallCollision nh = false /\ onSnake (snake g) nh = false.
Proof. intros Hin Hfree. split; [by apply wallCollision_false_iff|by apply onSnake_false_iff]. Qed.

(** C2: a new head off the board ends the game: GAME_OVER, the snake and
    the score unchanged, the high score raised to the score, and no random
    draw. *)
Theorem moveSnake_wall_game_over {Rs : Type} `{!MathRandom Rs}
    (fuel : nat) (g g' : Game) (h nh : Point) (t : list Point) (s s' : Rs) :
  snake g = h :: t -> nh = advance h (directionRef g) -> ~ inBounds nh ->
  run (moveSnake fuel g) s = (Done g', s') ->
  gameState g' = GAME_OVER /\ snake g' = snake g /\ score g' = score g /\
  highScore g' = Z.max (highScore g) (score g) /\ s' = s.
Proof.
  intros Hs -> Hout%wallCollision_true_iff.
  rewrite (moveSnake_wall_run fuel g h t s Hs Hout). intros [= <- <-].
  pose proof (handleGameOver_fields g). tauto.
Qed.

(** C3: a new head on the snake (checked against the whole body, tail
    included) ends the game the same way. *)
Theorem moveSnake_self_game_over {Rs : Type} `{!MathRandom Rs}
    (fuel : nat) (g g' : Game) (h nh : Point) (t : list Point) (s s' : Rs) :
  snake g = h :: t -> nh = advance h (directionRef g) -> inBounds nh -> nh ∈ snake g ->
  run (moveSnake fuel g) s = (Done g', s') ->
  gameState g' = GAME_OVER /\ snake g' = snake g /\ score g' = score g /\
  highScore g' = Z.max (highScore g) (score g) /\ s' = s.
Proof.
  intros Hs -> Hin%wallCollision_false_iff Hon%onSnake_true_iff.
  rewrite (moveSnake_self_run fuel g h t s Hs Hin Hon). intros [= <- <-].
  pose proof (handleGameOver_fields g). tauto.
Qed.

(** C5: a move onto a free cell with no food and no bonus shifts the
    snake by one cell: the new head in front, the tail dropped, the length
    kept, nothing else changed and no random draw. *)
Theorem moveSnake_plain_move {Rs : Type} `{!MathRandom Rs}
    (fuel : nat) (g : Game) (h nh : Point) (t : list Point) (s : Rs) :
  snake g = h :: t -> nh = advance h (directionRef g) -> inBounds nh -> nh ∉ snake g ->
  nh <> food g -> bonusFood g <> Some nh ->
  run (moveSnake fuel g) s = (Done (setSnake (nh :: removelast (snake g)) g), s) /\
  length (nh :: removelast (snake g)) = length (snake g).
Proof.
  intros Hs -> Hin Hfree Hf Hb.
  destruct (newHead_tests g _ Hin Hfree) as [Hw Hon].
  assert (Hb' : ateBonusAt (bonusFood g) (advance h (directionRef g)) = false).
  { destruct (bonusFood g) as [b|]; [|done]. apply samePoint_false_iff. congruence. }
  split.
  - rewrite (moveSnake_move_run fuel g h t s Hs Hw Hon); [|by apply samePoint_false_iff|done].
    by rewrite Hs.
  - rewrite Hs. exact (length_moveTo _ (h :: t)).
Qed.

(** C4: eating the food (with no bonus under the head) scores one point,
    grows the snake by the new head, and places a new food on a free cell
    of the board; the game goes on. *)
Theorem moveSnake_eat_food {Rs : Type} `{!MathRandom Rs, !MathRandomLaws Rs}
    (fuel : nat) (g g' : Game) (h nh : Point) (t : list Point) (s s' : Rs) :
  snake g = h :: t -> nh = advance h (directionRef g) -> inBounds nh -> nh ∉ snake g ->
  nh = food g -> bonusFood g <> Some nh ->
  run (moveSnake fuel g) s = (Done g', s') ->
  score g' = score g + 1 /\ snake g' = nh :: snake g /\
  inBounds (food g') /\ (food g' ∉ snake g') /\ gameState g' = gameState g.
Proof.
  intros Hs Hnh Hin Hfree Hf Hb. subst nh.
  destruct (newHead_tests g _ Hin Hfree) as [Hw Hon].
  assert (Hb' : ateBonusAt (bonusFood g) (advance h (directionRef g)) = false).
  { destruct (bonusFood g) as [b|]; [|done]. apply samePoint_false_iff. congruence. }
  rewrite (moveSnake_food_run fuel g h t s Hs Hw Hon); [|by apply samePoint_true_iff].
  rewrite Hb'. destruct (run (eatFood _ _ _ _ _) s) as [[g2|] s2] eqn:He; [|done].
  intros [= <- _]. apply eatFood_spec in He as (nf & nb & Hnf & Hnfs & _ & ->).
  unfold applySpeedRamp. case_decide; simpl; split_and!; done.
Qed.

(** ** Concrete states for the witnesses *)

(** A game in progress with the given snake, direction, food and bonus. *)
Definition playingWith (sn : list Point) (dir f : Point) (b : option Point) : Game :=
  initialGame |> setGameState PLAYING |> setSnake sn |> setDirection dir
    |> setDirectionRef dir |> setFood f |> setBonusFood b.

(** The spec's wall scenario: head at (19, 10) moving right. *)
Definition wallGame : Game := playingWith [⟨19, 10⟩] ⟨1, 0⟩ ⟨5, 5⟩ None.

Lemma moveSnake_wall_game_over_witness :
  gameState (handleGameOver wallGame) = GAME_OVER /\
  snake (handleGameOver wallGame) = snake wallGame /\
  score (handleGameOver wallGame) = score wallGame /\
  highScore (handleGameOver wallGame) = Z.max (highScore wallGame) (score wallGame) /\
  mkTape [] = mkTape [].
Proof.
  apply (moveSnake_wall_game_over 1 wallGame _ ⟨19, 10⟩ ⟨20, 10⟩ [] (mkTape []) (mkTape []));
    [reflexivity|reflexivity|decide_prop|vm_compute; reflexivity].
Defined.

(** The spec's self-collision scenario: the head at (5, 5) moves down onto
    (5, 6), the second segment. *)
Definition selfGame : Game :=
  playingWith [⟨5, 5⟩; ⟨5, 6⟩; ⟨6, 6⟩; ⟨6, 5⟩] ⟨0, 1⟩ ⟨1, 1⟩ None.

Lemma moveSnake_self_game_over_witness :
  gameState (handleGameOver selfGame) = GAME_OVER /\
  snake (handleGameOver selfGame) = snake selfGame /\
  score (handleGameOver selfGame) = score selfGame /\
  highScore (handleGameOver selfGame) = Z.max (highScore selfGame) (score selfGame) /\
  mkTape [] = mkTape [].
Proof.
  apply (moveSnake_self_game_over 1 selfGame _ ⟨5, 5⟩ ⟨5, 6⟩ [⟨5, 6⟩; ⟨6, 6⟩; ⟨6, 5⟩]
           (mkTape []) (mkTape []));
    [reflexivity|reflexivity|decide_prop|decide_prop|vm_compute; reflexivity].
Defined.

(** A two-segment snake moving right onto a free cell. *)
Definition moveGame : Game := playingWith [⟨10, 10⟩; ⟨9, 10⟩] ⟨1, 0⟩ ⟨15, 10⟩ None.

Lemma moveSnake_plain_move_witness :
  run (moveSnake 1 moveGame) (mkTape []) =
    (Done (setSnake (⟨11, 10⟩ :: removelast (snake moveGame)) moveGame), mkTape []) /\
  length (⟨11, 10⟩ :: removelast (snake moveGame)) = length (snake moveGame).
Proof.
  apply (moveSnake_plain_move 1 moveGame ⟨10, 10⟩ ⟨11, 10⟩ [⟨9, 10⟩] (mkTape []));
    [reflexivity|reflexivity|decide_prop|decide_prop|decide_prop|decide_prop].
Defined.

(** The head at (10, 10) moves right onto the food at (11, 10); the tape
    places the next food at (3, 4) and rolls no bonus. *)
Definition foodGame : Game := playingWith [⟨10, 10⟩] ⟨1, 0⟩ ⟨11, 10⟩ None.
Definition foodTape : Tape := mkTape (tapeOf ⟨3, 4⟩ ++ [0]).
Definition foodGame' : Game :=
  match fst (run (moveSnake 1 foodGame) foodTape) with Done g => g | Failed _ => foodGame end.

Lemma moveSnake_eat_food_witness :
  score foodGame' = score foodGame + 1 /\ snake foodGame' = ⟨11, 10⟩ :: snake foodGame /\
  inBounds (food foodGame') /\ (food foodGame' ∉ snake foodGame') /\
  gameState foodGame' = gameState foodGame.
Proof.
  apply (moveSnake_eat_food 1 foodGame foodGame' ⟨10, 10⟩ ⟨11, 10⟩ [] foodTape (mkTape []));
    [reflexivity|reflexivity|decide_prop|decide_prop|reflexivity|decide_prop
    |vm_compute; reflexivity].
Defined.

(** ** Direction requests between two ticks *)

Lemma handleDirection_ref (g : Game) (d : Dir) :
  directionRef (handleDirection g d) = turn d (directionRef g).
Proof. unfold handleDirection, turn. by destruct (blocked d (directionRef g)). Qed.

Lemma handleDirection_snake (g : Game) (d : Dir) : snake (handleDirection g d) = snake g.
Proof. unfold handleDirection. by destruct (blocked d (directionRef g)). Qed.

(** Going back along [d] from [advance n d] lands on [n] only with the
    reverse of [d]. *)
Lemma advance_back (n d e : Point) : advance (advance n d) e = n <-> e = reverse d.
Proof.
  destruct n as [nx ny], d as [dx dy], e as [ex ey]. unfold advance, reverse. simpl.
  split; [intros [=]; f_equal; lia|intros [= -> ->]; f_equal; lia].
Qed.

(** C9: when the snake has just moved along [directionRef] (its head is
    one step past its neck in that direction), a single direction request
    never points the next head into the neck. *)
Theorem handleDirection_single_request_safe (g : Game) (d : Dir) (h n : Point) (t : list Point) :
  snake g = h :: n :: t -> h = advance n (directionRef g) ->
  isUnit (directionRef g) = true ->
  advance h (directionRef (handleDirection g d)) <> n.
Proof.
  intros _ -> Hu. rewrite handleDirection_ref, advance_back.
  by apply turn_no_reverse.
Qed.

(** The keys that turn [dir] into its reverse in two requests: a
    perpendicular one, then the opposite one. *)
Definition reversingKeys (dir : Point) : Dir * Dir :=
  if x dir =? 1 then (UP, LEFT)
  else if x dir =? -1 then (UP, RIGHT)
  else if y dir =? 1 then (LEFT, UP)
  else (LEFT, DOWN).

Lemma reversingKeys_reverse (dir : Point) :
  isUnit dir = true ->
  turn (snd (reversingKeys dir)) (turn (fst (reversingKeys dir)) dir) = reverse dir.
Proof. intros Hu. apply isUnit_cases in Hu as [-> | [-> | [-> | ->]]]; reflexivity. Qed.

(** C10: two direction requests between ticks defeat the reversal guard:
    from a snake that has just moved along [directionRef], pressing a
    perpendicular key and then the key opposite to the motion points the
    head into the neck, and the next tick ends the game. *)
Theorem handleDirection_two_requests_game_over {Rs : Type} `{!MathRandom Rs}
    (g : Game) (h n : Point) (t : list Point) :
  snake g = h :: n :: t -> h = advance n (directionRef g) ->
  isUnit (directionRef g) = true -> inBounds n ->
  exists d1 d2, forall fuel (s : Rs),
    let g2 := handleDirection (handleDirection g d1) d2 in
    run (moveSnake fuel g2) s = (Done (handleGameOver g2), s).
Proof.
  intros Hs Hh Hu Hn. exists (fst (reversingKeys (directionRef g))), (snd (reversingKeys (directionRef g))).
  intros fuel s g2.
  assert (Hs2 : snake g2 = h :: n :: t) by (unfold g2; by rewrite !handleDirection_snake).
  assert (Hnh : advance h (directionRef g2) = n).
  { unfold g2. rewrite !handleDirection_ref, reversingKeys_reverse by done.
    subst h. by apply advance_back. }
  apply (moveSnake_self_run fuel g2 h (n :: t) s Hs2).
  - rewrite Hnh. by apply wallCollision_false_iff.
  - rewrite Hnh, Hs2. apply onSnake_true_iff. set_solver.
Qed.

(** ** Eating when the board is full *)

Lemma eatFood_no_cell {Rs : Type} `{!MathRandom Rs} (fuel : nat) (bonus : option Point)
    (mode : GameMode) (newSnake : list Point) (g : Game) (s : Rs) :
  fst (run (generateFood fuel newSnake) s) = None ->
  exists s', run (eatFood fuel bonus mode newSnake g) s = (None, s').
Proof.
  unfold eatFood. rand_simpl. destruct (generateFood fuel newSnake s) as [[]]; [done|eauto].
Qed.

(** C8: the tick that makes the snake fill the board never returns: when
    a snake of 399 cells eats the food on the last free cell,
    [generateFood] finds no free cell and loops for any fuel and any
    random source. *)
Theorem moveSnake_full_board_hangs {Rs : Type} `{!MathRandom Rs, !MathRandomLaws Rs}
    (g : Game) (h nh : Point) (t : list Point) :
  snake g = h :: t -> snake_wf (snake g) -> length (snake g) = 399%nat ->
  nh = advance h (directionRef g) -> inBounds nh -> nh ∉ snake g -> nh = food g ->
  forall fuel (s : Rs), exists s', run (moveSnake fuel g) s = (Failed NoFreeCell, s').
Proof.
  intros Hs (_ & Hnd & Hin & _) Hlen -> Hb Hfree Hf fuel s.
  destruct (newHead_tests g _ Hb Hfree) as [Hw Hon].
  rewrite (moveSnake_food_run fuel g h t s Hs Hw Hon); [|by apply samePoint_true_iff].
  assert (Hfull : forall p, inBounds p -> p ∈ growTo (advance h (directionRef g)) (snake g)).
  { apply cells_covered; [by constructor|by constructor|].
    rewrite length_growTo, Hlen. lia. }
  destruct (eatFood_no_cell fuel (bonusFood g) (gameMode g)
              (growTo (advance h (directionRef g)) (snake g))
              (if ateBonusAt (bonusFood g) (advance h (directionRef g)) then eatBonus g else g) s
              (generateFood_full_grid _ Hfull fuel s)) as [s' Hrun].
  rewrite Hrun. eauto.
Qed.

(** The board walked row by row, alternating direction: every cell once,
    consecutive cells neighbours. *)
Definition serpentineRow (j : Z) : list Point :=
  let row := map (fun i => ⟨i, j⟩) (seqZ 0 GRID_SIZE) in
  if Z.even j then row else rev row.

Definition serpentine : list Point := concat (map serpentineRow (seqZ 0 GRID_SIZE)).

(** The snake of the first 399 cells of the walk, head last walked, about
    to eat the food on the 400th. *)
Definition fullGame : Game :=
  playingWith (rev (firstn 399 serpentine)) ⟨-1, 0⟩ ⟨0, 19⟩ None |> setScore 398.

Lemma moveSnake_full_board_hangs_witness :
  exists s', run (moveSnake 3 fullGame) (mkTape []) = (Failed NoFreeCell, s').
Proof.
  apply (moveSnake_full_board_hangs fullGame ⟨1, 19⟩ ⟨0, 19⟩ (tail (snake fullGame)));
    [vm_compute; reflexivity|decide_prop|vm_compute; reflexivity|reflexivity
    |decide_prop|decide_prop|reflexivity].
Defined.

(** ** Food and bonus food on one cell *)

(** What the tick does when the head enters a cell holding both the food
    and the bonus food. *)
Lemma moveSnake_both_eaten {Rs : Type} `{!MathRandom Rs, !MathRandomLaws Rs}
    (fuel : nat) (g g' : Game) (h nh : Point) (t : list Point) (s s' : Rs) :
  snake g = h :: t -> nh = advance h (directionRef g) -> inBounds nh -> nh ∉ snake g ->
  nh = food g -> bonusFood g = Some nh ->
  run (moveSnake fuel g) s = (Done g', s') ->
  score g' = score g + 11 /\ bonusFood g' = None /\ (food g' ∉ nh :: snake g) /\
  snake g' = nh :: snake g /\ gameState g' = gameState g.
Proof.
  intros Hs Hnh Hin Hfree Hf Hb. subst nh.
  destruct (newHead_tests g _ Hin Hfree) as [Hw Hon].
  assert (Hb' : ateBonusAt (bonusFood g) (advance h (directionRef g)) = true)
    by (rewrite Hb; apply samePoint_true_iff; done).
  rewrite (moveSnake_food_run fuel g h t s Hs Hw Hon); [|by apply samePoint_true_iff].
  rewrite Hb'. destruct (run (eatFood _ _ _ _ _) s) as [[g2|] s2] eqn:He; [|done].
  intros [= <- _]. apply eatFood_spec in He as (nf & nb & Hnf & Hnfs & Hnb & ->).
  destruct Hnb as [-> | [Hnone _]]; [|congruence].
  unfold applySpeedRamp. case_decide; simpl; split_and!; try done; lia.
Qed.

(** C11: when the head reaches a cell holding both the food and the bonus
    food, both branches fire: the score rises by 11, the bonus is cleared
    and a new food is placed elsewhere; the snake grows by one. *)
Theorem moveSnake_food_and_bonus {Rs : Type} `{!MathRandom Rs, !MathRandomLaws Rs}
    (fuel : nat) (g g' : Game) (h nh : Point) (t : list Point) (s s' : Rs) :
  snake g = h :: t -> nh = advance h (directionRef g) -> inBounds nh -> nh ∉ snake g ->
  nh = food g -> bonusFood g = Some nh ->
  run (moveSnake fuel g) s = (Done g', s') ->
  score g' = score g + 11 /\ bonusFood g' = None /\ food g' <> food g /\
  length (snake g') = S (length (snake g)).
Proof.
  intros Hs Hnh Hin Hfree Hf Hb Hrun.
  destruct (moveSnake_both_eaten fuel g g' h nh t s s' Hs Hnh Hin Hfree Hf Hb Hrun)
    as (Hsc & Hbn & Hfd & Hsn & _).
  split_and!; [done|done| |by rewrite Hsn].
  intros Heq. apply Hfd. rewrite Heq, <- Hf. left.
Qed.

Definition bothGame : Game := playingWith [⟨10, 10⟩] ⟨1, 0⟩ ⟨11, 10⟩ (Some ⟨11, 10⟩).
Definition bothTape : Tape := mkTape (tapeOf ⟨3, 4⟩).
Definition bothGame' : Game :=
  match fst (run (moveSnake 1 bothGame) bothTape) with Done g => g | Failed _ => bothGame end.

Lemma moveSnake_food_and_bonus_witness :
  score bothGame' = score bothGame + 11 /\ bonusFood bothGame' = None /\
  food bothGame' <> food bothGame /\ length (snake bothGame') = S (length (snake bothGame)).
Proof.
  apply (moveSnake_food_and_bonus 1 bothGame bothGame' ⟨10, 10⟩ ⟨11, 10⟩ [] bothTape (mkTape []));
    [reflexivity|reflexivity|decide_prop|decide_prop|reflexivity|reflexivity
    |vm_compute; reflexivity].
Defined.

(** The bonus spawned by [generateFood(newSnake)] avoids the snake but not
    the food just placed: starting a game whose first food is (11, 10) and
    eating it with a tape that draws (3, 4) for the food, a winning bonus
    roll, and (3, 4) again for the bonus puts both on one cell. *)
Definition coincideTape1 : Tape := mkTape (tapeOf ⟨11, 10⟩).
Definition coincideTape2 : Tape := mkTape (tapeOf ⟨3, 4⟩ ++ [RAND_SCALE - 1] ++ tapeOf ⟨3, 4⟩).
Definition coincideGame : Game :=
  match fst (run (step 1 initialGame (EvStart UNLIMITED)) coincideTape1) with
  | Done g => match fst (run (step 1 g EvTick) coincideTape2) with
              | Done g' => g' | Failed _ => g end
  | Failed _ => initialGame
  end.

(** C12: food and bonus food can occupy the same cell in a reachable
    state. *)
Theorem food_bonus_coincide_reachable :
  reachable Tape coincideGame /\ bonusFood coincideGame = Some (food coincideGame).
Proof.
  split; [|vm_compute; reflexivity].
  set (g1 := match fst (run (step 1 initialGame (EvStart UNLIMITED)) coincideTape1) with
             | Done g => g | Failed _ => initialGame end).
  assert (H1 : reachable Tape g1).
  { eapply (reach_step 1 initialGame (EvStart UNLIMITED) coincideTape1);
      [apply reach_init|reflexivity|vm_compute; reflexivity]. }
  eapply (reach_step 1 g1 EvTick coincideTape2); [exact H1|vm_compute; reflexivity|].
  vm_compute. reflexivity.
Qed.

(** ** Witnesses for the direction requests *)

Lemma handleDirection_single_request_safe_witness :
  advance ⟨10, 10⟩ (directionRef (handleDirection moveGame LEFT)) <> ⟨9, 10⟩.
Proof.
  apply (handleDirection_single_request_safe moveGame LEFT ⟨10, 10⟩ ⟨9, 10⟩ []);
    reflexivity.
Defined.

Lemma handleDirection_two_requests_game_over_witness :
  exists d1 d2, forall fuel (s : Tape),
    let g2 := handleDirection (handleDirection moveGame d1) d2 in
    run (moveSnake fuel g2) s = (Done (handleGameOver g2), s).
Proof.
  apply (handleDirection_two_requests_game_over moveGame ⟨10, 10⟩ ⟨9, 10⟩ []);
    [reflexivity|reflexivity|reflexivity|decide_prop].
Defined.

(** ** The speed ramp *)

Lemma applySpeedRamp_speed (mode : GameMode) (g : Game) :
  speedRef (applySpeedRamp mode g) =
  if decide (mode = UNLIMITED) then rampSpeed (speedRef g) else speedRef g.
Proof. unfold applySpeedRamp. by case_decide. Qed.

(** C13: a tick changes [speedRef] exactly when the head moves onto the
    food on a free cell of the board in UNLIMITED mode, and then to
    [max(50, speedRef - 2)]. *)
Theorem moveSnake_speed {Rs : Type} `{!MathRandom Rs, !MathRandomLaws Rs}
    (fuel : nat) (g g' : Game) (h nh : Point) (t : list Point) (s s' : Rs) :
  snake g = h :: t -> nh = advance h (directionRef g) ->
  run (moveSnake fuel g) s = (Done g', s') ->
  speedRef g' = if bool_decide (inBounds nh /\ (nh ∉ snake g) /\ nh = food g /\ gameMode g = UNLIMITED)
                then rampSpeed (speedRef g) else speedRef g.
Proof.
  intros Hs -> Hrun.
  destruct (moveSnake_Done fuel g g' s s' Hrun) as
    [h' t' Hs' Hc|h' t' Hs' _ _ Hf _|h' t' Hs' _ _ Hf _|h' t' g2 s2 Hs' Hw Hon Hf He];
    rewrite Hs in Hs'; injection Hs' as <- <-.
  - rewrite bool_decide_false; [done|].
    intros (Hin%wallCollision_false_iff & Hfree%onSnake_false_iff & _). destruct Hc; congruence.
  - rewrite bool_decide_false; [done|]. apply samePoint_false_iff in Hf. naive_solver.
  - rewrite bool_decide_false; [done|]. apply samePoint_false_iff in Hf. naive_solver.
  - apply eatFood_spec in He as (nf & nb & _ & _ & _ & ->).
    simpl. rewrite applySpeedRamp_speed.
    assert (Hsp : speedRef (if ateBonusAt (bonusFood g) (advance h (directionRef g))
                            then eatBonus g else g) = speedRef g)
      by (by destruct (ateBonusAt _ _)).
    simpl. rewrite Hsp. apply samePoint_true_iff in Hf.
    apply wallCollision_false_iff in Hw. apply onSnake_false_iff in Hon.
    case_decide; [rewrite bool_decide_true|rewrite bool_decide_false]; naive_solver.
Qed.

(** C14: from any interval of at least 50 ms, [n] speed-ups give
    [max(50, interval - 2n)]: 90 ms reaches the 50 ms floor after 20 and
    stays there. *)
Theorem rampSpeed_iter (n : nat) (sp : Z) :
  minSpeed <= sp -> Nat.iter n rampSpeed sp = Z.max minSpeed (sp - 2 * Z.of_nat n).
Proof.
  intros Hsp. induction n as [|n IH].
  - simpl. unfold minSpeed in *. lia.
  - rewrite Nat.iter_succ, IH. unfold rampSpeed, minSpeed in *. lia.
Qed.

Lemma rampSpeed_iter_witness :
  Nat.iter 20 rampSpeed 90 = 50 /\ Nat.iter 21 rampSpeed 90 = 50.
Proof.
  assert (H : minSpeed <= 90) by (unfold minSpeed; lia).
  split; [rewrite (rampSpeed_iter 20 90 H)|rewrite (rampSpeed_iter 21 90 H)]; reflexivity.
Defined.

Lemma moveSnake_speed_witness :
  speedRef foodGame' = rampSpeed (speedRef foodGame).
Proof.
  rewrite (moveSnake_speed 1 foodGame foodGame' ⟨10, 10⟩ ⟨11, 10⟩ [] foodTape (mkTape []));
    [|reflexivity|reflexivity|vm_compute; reflexivity].
  rewrite bool_decide_true; [reflexivity|].
  split_and!; [decide_prop|decide_prop|reflexivity|reflexivity].
Defined.

(** ** How a tick can fail *)

(** C22: from a well-formed state, a tick can only fail by [generateFood]
    not returning, and only when the head moves onto the food: the body is
    never empty, and collisions and plain moves always complete. *)
Theorem moveSnake_failure {Rs : Type} `{!MathRandom Rs}
    (fuel : nat) (g : Game) (e : Fault) (s s' : Rs) :
  game_wf g -> run (moveSnake fuel g) s = (Failed e, s') ->
  e = NoFreeCell /\ exists h t, snake g = h :: t /\ advance h (directionRef g) = food g.
Proof.
  intros Hwf. destruct (snake g) as [|h t] eqn:Hs.
  { destruct (wf_snake g Hwf) as [Hne _]. by rewrite Hs in Hne. }
  destruct (wallCollision (advance h (directionRef g))) eqn:Hw.
  { by rewrite (moveSnake_wall_run fuel g h t s Hs Hw). }
  destruct (onSnake (snake g) (advance h (directionRef g))) eqn:Hon.
  { by rewrite (moveSnake_self_run fuel g h t s Hs Hw Hon). }
  destruct (samePoint (advance h (directionRef g)) (food g)) eqn:Hf.
  - rewrite (moveSnake_food_run fuel g h t s Hs Hw Hon Hf).
    destruct (run (eatFood _ _ _ _ _) s) as [[g2|] s2]; [done|].
    intros [= <- _]. split; [done|]. exists h, t. split; [done|]. by apply samePoint_true_iff.
  - destruct (ateBonusAt (bonusFood g) (advance h (directionRef g))) eqn:Hb.
    + by rewrite (moveSnake_bonus_run fuel g h t s Hs Hw Hon Hf Hb).
    + by rewrite (moveSnake_move_run fuel g h t s Hs Hw Hon Hf Hb).
Qed.

Lemma fullGame_wf : game_wf fullGame.
Proof.
  split; try decide_prop; done.
Qed.

Lemma moveSnake_failure_witness :
  NoFreeCell = NoFreeCell /\
  exists h t, snake fullGame = h :: t /\ advance h (directionRef fullGame) = food fullGame.
Proof.
  apply (moveSnake_failure 3 fullGame NoFreeCell (mkTape [])
           (snd (run (moveSnake 3 fullGame) (mkTape []))) fullGame_wf).
  vm_compute. reflexivity.
Defined.

(** ** The bonus roll *)

(** The double [0.8]: the draw [7205759403792794 * 2^-53]. *)
Lemma doubleLiteral_0_8 : doubleLiteral 8 10 = 7205759403792794.
Proof. reflexivity. Qed.

(** C37: the bonus roll of a food tick ([!bonusFood && Math.random() > 0.8])
    on every draw [u * 2^-53]: with no bonus on the board it consumes one
    draw and spawns a bonus exactly when the draw exceeds [0.8], except
    on the one draw [7205759403792794 * 2^-53], the double [0.8] itself,
    which lies above [0.8] but is not greater than the literal; with a
    bonus on the board it consumes no draw and spawns none. *)
Theorem rollBonus_threshold (bonus : option Point) (u : Z) (rest : list Z) :
  0 <= u < RAND_SCALE ->
  run (rollBonus bonus) (mkTape (u :: rest)) =
  match bonus with
  | None => (bool_decide (8 * RAND_SCALE < 10 * u /\ u <> 7205759403792794), mkTape rest)
  | Some _ => (false, mkTape (u :: rest))
  end.
Proof.
  intros Hu. destruct bonus as [b|]; [reflexivity|].
  unfold rollBonus, mathRandomGt. rand_simpl. unfold math_random, Tape_random. simpl.
  rewrite Z.mod_small, doubleLiteral_0_8 by done. f_equal.
  change RAND_SCALE with 9007199254740992 in *.
  destruct (Z.ltb_spec 7205759403792794 u); case_bool_decide; lia.
Qed.

Lemma rollBonus_threshold_witness :
  0 <= 7205759403792794 < RAND_SCALE /\
  run (rollBonus None) (mkTape [7205759403792794]) = (false, mkTape []).
Proof.
  assert (Hu : 0 <= 7205759403792794 < RAND_SCALE) by (change RAND_SCALE with 9007199254740992; lia).
  split; [exact Hu|]. rewrite (rollBonus_threshold None _ [] Hu).
  f_equal.
Defined.
