(* ===== verification/Spec.v ===== *)
(** * Spec: the tick the specification describes, and its refinement

    [AbsGame] is the part of the state the specification's per-tick
    algorithm (spec, section 4.5, steps 1-8) talks about.  [spec_tick] is
    that algorithm as a relation: the food generator is any choice of a
    free board cell, the 20% bonus roll any choice between keeping the
    bonus and spawning one on a free cell when there is none.

    [moveSnake_refines_spec] shows that every completed [moveSnake] is a
    [spec_tick] of the abstraction, except when the food and the bonus
    share a cell: there the specification lets the bonus win and leaves the
    food alone, while the code eats both ([Tick.moveSnake_food_and_bonus]).
    [spec_tick_realized] is the converse: each step of [spec_tick] from
    such a state is a tick on some [Tape], built by [rollTape] and the
    draws [tapeOf] of the cells the step chooses. *)

From S2P Require Import Prelude Grid Random Food Snake Direction Engine Machine Tick.

Record AbsGame := mkAbs {
  aState : GameState;
  aMode : GameMode;
  aSnake : list Point;
  aDir : Point;
  aFood : Point;
  aBonus : option Point;
  aScore : Z;
  aHigh : Z;
  aSpeed : Z
}.

Definition abs (g : Game) : AbsGame :=
  mkAbs (gameState g) (gameMode g) (snake g) (directionRef g) (food g) (bonusFood g)
        (score g) (highScore g) (speedRef g).

(** Step 2-3's outcome: GAME_OVER with [HighScore := max(HighScore, Score)]. *)
Definition absOver (a : AbsGame) : AbsGame :=
  mkAbs GAME_OVER (aMode a) (aSnake a) (aDir a) (aFood a) (aBonus a) (aScore a)
        (Z.max (aHigh a) (aScore a)) (aSpeed a).

(** The per-tick algorithm, with [nh = head + currentDirection]. *)
Inductive spec_tick : AbsGame -> AbsGame -> Prop :=
  | st_wall a h t :
      aSnake a = h :: t -> ~ inBounds (advance h (aDir a)) ->
      spec_tick a (absOver a)
  | st_self a h t :
      aSnake a = h :: t -> inBounds (advance h (aDir a)) -> advance h (aDir a) ∈ aSnake a ->
      spec_tick a (absOver a)
  | st_bonus a h t :
      aSnake a = h :: t -> inBounds (advance h (aDir a)) -> advance h (aDir a) ∉ aSnake a ->
      aBonus a = Some (advance h (aDir a)) ->
      spec_tick a (mkAbs (aState a) (aMode a) (advance h (aDir a) :: aSnake a) (aDir a)
                         (aFood a) None (aScore a + 10) (aHigh a) (aSpeed a))
  | st_food a h t f b :
      aSnake a = h :: t -> inBounds (advance h (aDir a)) -> advance h (aDir a) ∉ aSnake a ->
      aBonus a <> Some (advance h (aDir a)) -> advance h (aDir a) = aFood a ->
      inBounds f -> f ∉ advance h (aDir a) :: aSnake a ->
      (b = aBonus a \/
       aBonus a = None /\ (exists p, b = Some p /\ inBounds p /\ p ∉ advance h (aDir a) :: aSnake a)) ->
      spec_tick a (mkAbs (aState a) (aMode a) (advance h (aDir a) :: aSnake a) (aDir a) f b
                         (aScore a + 1) (aHigh a)
                         (if decide (aMode a = UNLIMITED) then Z.max 50 (aSpeed a - 2) else aSpeed a))
  | st_move a h t :
      aSnake a = h :: t -> inBounds (advance h (aDir a)) -> advance h (aDir a) ∉ aSnake a ->
      aBonus a <> Some (advance h (aDir a)) -> advance h (aDir a) <> aFood a ->
      spec_tick a (mkAbs (aState a) (aMode a) (advance h (aDir a) :: removelast (aSnake a))
                         (aDir a) (aFood a) (aBonus a) (aScore a) (aHigh a) (aSpeed a)).

(** ** Refinement *)

Lemma spec_tick_eq (a b c : AbsGame) : spec_tick a b -> b = c -> spec_tick a c.
Proof. by intros ? <-. Qed.

Lemma abs_handleGameOver (g : Game) : abs (handleGameOver g) = absOver (abs g).
Proof.
  unfold abs, absOver, handleGameOver. simpl. f_equal.
  destruct (Z.gtb_spec (score g) (highScore g)); lia.
Qed.

(** C20: every completed tick of [moveSnake] is a step of the
    specification's per-tick algorithm on the abstract state, whenever
    the food and the bonus food are not on one cell. *)
Theorem moveSnake_refines_spec {Rs : Type} `{!MathRandom Rs, !MathRandomLaws Rs}
    (fuel : nat) (g g' : Game) (s s' : Rs) :
  bonusFood g <> Some (food g) ->
  run (moveSnake fuel g) s = (Done g', s') -> spec_tick (abs g) (abs g').
Proof.
  intros Hbf Hrun.
  destruct (moveSnake_Done fuel g g' s s' Hrun) as
    [h t Hs Hc|h t Hs Hw Hon Hf Hb|h t Hs Hw Hon Hf Hb|h t g2 s2 Hs Hw Hon Hf He].
  - rewrite abs_handleGameOver.
    destruct (wallCollision (advance h (directionRef g))) eqn:Hw.
    + apply (st_wall (abs g) h t Hs). by apply wallCollision_true_iff.
    + destruct Hc as [|Hon]; [congruence|].
      apply (st_self (abs g) h t Hs); [by apply wallCollision_false_iff|by apply onSnake_true_iff].
  - eapply spec_tick_eq; [apply (st_move (abs g) h t Hs)|].
    + by apply wallCollision_false_iff.
    + by apply onSnake_false_iff.
    + simpl. intros Hb'. exact (ateBonusAt_false _ _ Hb _ Hb' eq_refl).
    + by apply samePoint_false_iff.
    + unfold abs. simpl. by rewrite Hs.
  - eapply spec_tick_eq; [apply (st_bonus (abs g) h t Hs)|].
    + by apply wallCollision_false_iff.
    + by apply onSnake_false_iff.
    + by apply ateBonusAt_true.
    + reflexivity.
  - apply samePoint_true_iff in Hf.
    assert (Hb : ateBonusAt (bonusFood g) (advance h (directionRef g)) = false).
    { destruct (bonusFood g) as [b|] eqn:Hbg; [|done]. apply samePoint_false_iff. congruence. }
    rewrite Hb in He. apply eatFood_spec in He as (nf & nb & Hnf & Hnfs & Hnb & ->).
    eapply spec_tick_eq; [apply (st_food (abs g) h t nf nb Hs)|].
    + by apply wallCollision_false_iff.
    + by apply onSnake_false_iff.
    + simpl. congruence.
    + done.
    + done.
    + done.
    + done.
    + unfold abs, applySpeedRamp, rampSpeed, minSpeed. simpl.
      destruct (decide (gameMode g = UNLIMITED)); reflexivity.
Qed.

(** ** The converse: every step of the specification is a tick *)

(** The draws that make the food branch place the food on [f] and end
    with the bonus [b]: none for the roll when a bonus exists, a low draw
    to keep none, a high draw and the cell's draws to spawn one. *)
Definition rollTape (bonus b : option Point) : list Z :=
  match bonus, b with
  | Some _, _ => []
  | None, None => [0]
  | None, Some p => (RAND_SCALE - 1) :: tapeOf p
  end.

Lemma ateBonusAt_spec (bonus : option Point) (nh : Point) :
  ateBonusAt bonus nh = bool_decide (bonus = Some nh).
Proof.
  destruct bonus as [b|]; simpl; [|done].
  destruct (samePoint nh b) eqn:E; [apply samePoint_true_iff in E | apply samePoint_false_iff in E].
  - subst. by rewrite bool_decide_true.
  - rewrite bool_decide_false; congruence.
Qed.

Lemma setBonusFood_eq (b : option Point) (g : Game) : bonusFood g = b -> setBonusFood b g = g.
Proof. intros <-. apply setBonusFood_same. Qed.

Lemma eatFood_tape (fuel : nat) (mode : GameMode) (newSnake : list Point) (g : Game)
    (f : Point) (b : option Point) :
  inBounds f -> f ∉ newSnake ->
  (b = bonusFood g \/ bonusFood g = None /\ exists p, b = Some p /\ inBounds p /\ p ∉ newSnake) ->
  run (eatFood (S fuel) (bonusFood g) mode newSnake g) (mkTape (tapeOf f ++ rollTape (bonusFood g) b)) =
  (Some (applySpeedRamp mode (g |> setScore (score g + 1) |> setFood f |> setBonusFood b)), mkTape []).
Proof.
  intros Hf Hfree Hb. unfold eatFood. rewrite run_bind, generateFood_tapeOf by done.
  cbn zeta. rewrite run_bind.
  destruct (bonusFood g) as [c|] eqn:Hc; [destruct Hb as [->|[[=] _]] | destruct Hb as [->|(_ & p & -> & Hp & Hpf)]];
    cbn [rollTape rollBonus].
  - rewrite run_ret. simpl. by rewrite setBonusFood_eq.
  - rewrite mathRandomGt_tape_low. simpl. by rewrite setBonusFood_eq.
  - rewrite mathRandomGt_tape_high, run_bind. unfold spawnBonus.
    rewrite run_bind, <- (app_nil_r (tapeOf p)), (generateFood_tapeOf fuel newSnake p []) by done.
    reflexivity.
Qed.

(** C34: conversely, every step the specification allows from a state
    whose food and bonus are apart is a tick of [moveSnake] for some
    sequence of [Math.random()] results: the collisions, the bonus, a plain
    move, and eating the food with any free cell for the new food and any
    allowed outcome of the bonus roll.  With C20, [moveSnake] and
    [spec_tick] have the same steps there, up to the choice of the random
    draws. *)
Theorem spec_tick_realized (g : Game) (a' : AbsGame) :
  bonusFood g <> Some (food g) -> spec_tick (abs g) a' ->
  exists (tp tp' : Tape) (g' : Game), run (moveSnake 1 g) tp = (Done g', tp') /\ abs g' = a'.
Proof.
  intros Hbf Hst. remember (abs g) as a eqn:Ha.
  destruct Hst as [a h t Hs Hw|a h t Hs Hin Hon|a h t Hs Hin Hon Hb
                  |a h t f b Hs Hin Hon Hb Hf Hfin Hffree Hbb|a h t Hs Hin Hon Hb Hf];
    subst a; cbn [aSnake aDir aBonus aFood abs] in *.
  - exists (mkTape []), (mkTape []), (handleGameOver g). split; [|apply abs_handleGameOver].
    apply (moveSnake_wall_run 1 g h t _ Hs). by apply wallCollision_true_iff.
  - exists (mkTape []), (mkTape []), (handleGameOver g). split; [|apply abs_handleGameOver].
    apply (moveSnake_self_run 1 g h t _ Hs);
      [by apply wallCollision_false_iff | by apply onSnake_true_iff].
  - exists (mkTape []), (mkTape []), (setSnake (growTo (advance h (directionRef g)) (snake g)) (eatBonus g)).
    split; [|reflexivity].
    apply (moveSnake_bonus_run 1 g h t _ Hs);
      [by apply wallCollision_false_iff | by apply onSnake_false_iff
      | apply samePoint_false_iff; congruence | by rewrite ateBonusAt_spec, bool_decide_true].
  - exists (mkTape (tapeOf f ++ rollTape (bonusFood g) b)), (mkTape []).
    eexists. split.
    + rewrite (moveSnake_food_run 1 g h t _ Hs);
        [| by apply wallCollision_false_iff | by apply onSnake_false_iff | by apply samePoint_true_iff].
      rewrite ateBonusAt_spec, bool_decide_false by done.
      rewrite eatFood_tape by done. reflexivity.
    + unfold abs, applySpeedRamp, rampSpeed, minSpeed. simpl. by case_decide.
  - exists (mkTape []), (mkTape []), (setSnake (moveTo (advance h (directionRef g)) (snake g)) g).
    split.
    + apply (moveSnake_move_run 1 g h t _ Hs);
        [by apply wallCollision_false_iff | by apply onSnake_false_iff
        | by apply samePoint_false_iff | by rewrite ateBonusAt_spec, bool_decide_false].
    + unfold abs. simpl. by rewrite Hs, moveTo_cons.
Qed.

(** No step of the specification from a cell holding both the food and
    the bonus adds 11 points. *)
Lemma spec_tick_no_eleven (a b : AbsGame) (h : Point) (t : list Point) :
  aSnake a = h :: t -> aBonus a = Some (advance h (aDir a)) -> aFood a = advance h (aDir a) ->
  spec_tick a b -> aScore b <> aScore a + 11.
Proof.
  intros Hs Hb Hf Hst.
  destruct Hst as [a h' t' Hs'|a h' t' Hs'|a h' t' Hs'|a h' t' f b' Hs' _ _ Hnb|a h' t' Hs' _ _ _ Hne];
    rewrite Hs in Hs'; injection Hs' as <- <-; simpl; try lia; congruence.
Qed.

(** C21: in that case the code leaves the specification: the tick that
    eats food and bonus food on one cell is no step of [spec_tick]. *)
Theorem moveSnake_food_and_bonus_not_spec {Rs : Type} `{!MathRandom Rs, !MathRandomLaws Rs}
    (fuel : nat) (g g' : Game) (h nh : Point) (t : list Point) (s s' : Rs) :
  snake g = h :: t -> nh = advance h (directionRef g) -> inBounds nh -> nh ∉ snake g ->
  nh = food g -> bonusFood g = Some nh ->
  run (moveSnake fuel g) s = (Done g', s') ->
  ~ spec_tick (abs g) (abs g').
Proof.
  intros Hs Hnh Hin Hfree Hf Hb Hrun Hst.
  destruct (moveSnake_both_eaten fuel g g' h nh t s s' Hs Hnh Hin Hfree Hf Hb Hrun)
    as (Hsc & _ & _ & _ & _).
  subst nh. apply (spec_tick_no_eleven (abs g) (abs g') h t Hs Hb (eq_sym Hf) Hst). exact Hsc.
Qed.

Lemma moveSnake_food_and_bonus_not_spec_witness : ~ spec_tick (abs bothGame) (abs bothGame').
Proof.
  apply (moveSnake_food_and_bonus_not_spec 1 bothGame bothGame' ⟨10, 10⟩ ⟨11, 10⟩ [] bothTape (mkTape []));
    [reflexivity|reflexivity|decide_prop|decide_prop|reflexivity|reflexivity
    |vm_compute; reflexivity].
Defined.

Lemma moveSnake_refines_spec_witness : spec_tick (abs foodGame) (abs foodGame').
Proof.
  apply (moveSnake_refines_spec 1 foodGame foodGame' foodTape (mkTape []));
    [discriminate|vm_compute; reflexivity].
Defined.

(** The spec's food step from [foodGame] that places the new food on
    (3, 4) and spawns no bonus. *)
Definition foodAbs' : AbsGame := Eval vm_compute in abs foodGame'.

Lemma spec_tick_realized_witness :
  bonusFood foodGame <> Some (food foodGame) /\ spec_tick (abs foodGame) foodAbs' /\
  exists (tp tp' : Tape) (g' : Game), run (moveSnake 1 foodGame) tp = (Done g', tp') /\ abs g' = foodAbs'.
Proof.
  assert (Hst : spec_tick (abs foodGame) foodAbs').
  { eapply spec_tick_eq; [eapply (st_food (abs foodGame) ⟨10, 10⟩ [] ⟨3, 4⟩ None)|];
      [reflexivity|decide_prop|decide_prop|discriminate|reflexivity|decide_prop|decide_prop
      |left; reflexivity|vm_compute; reflexivity]. }
  split_and!; [discriminate | exact Hst |].
  exact (spec_tick_realized foodGame foodAbs' ltac:(discriminate) Hst).
Defined.
