(* ===== verification/Scheduler.v ===== *)
(** * Scheduler: the timers of [useSnakeGame] in time

    The hook arms three timers from its effects, each re-created when the
    effect's dependency list changes after a render:
    - the game loop (lines 200-211): [setInterval(moveSnake, speedRef.current)]
      kept in [gameLoopRef], armed while PLAYING and not paused, with
      dependencies [[gameState, moveSnake, score, isPaused]], where
      [moveSnake] is re-created when [food], [bonusFood], [gameMode],
      [difficulty] or [handleGameOver] change, and [handleGameOver] when
      [score] changes;
    - the countdown (lines 213-227): [setInterval(..., 1000)], armed while
      PLAYING in TIMED mode and not paused, with dependencies
      [[gameState, gameMode, handleGameOver, isPaused]], so also [score];
    - the bonus timeout (lines 62-67): [setTimeout(..., 5000)], armed while
      [bonusFood] is set, with dependencies [[bonusFood]].

    [Sched] adds to the hook state the current time in milliseconds and
    the three timers, each with its next due time and its period.
    [commit] is what React does after a state change: for each effect
    whose dependencies changed, clear its timer and run it again.  The
    dependencies are compared by value, which matches React's [Object.is]
    on this program: a new [food] or [bonusFood] object is only created
    together with a change of score or of game state, or from [null].
    [sstep] is one step of the system: a user event at some instant before
    the next due timer, or the firing of the earliest timer.  The
    [clearInterval] of [handleGameOver] is subsumed by [commit], which
    clears the game loop as soon as the state leaves PLAYING. *)

From S2P Require Import Prelude Grid Random Food Snake Direction Engine Machine Tick.

Record Timer := mkTimer { due : Z; period : Z }.

#[export] Instance Timer_eq_dec : EqDecision Timer.
Proof. solve_decision. Defined.

Record Sched := mkSched {
  game : Game;
  now : Z;
  gameLoopRef : option Timer;
  countdownTimer : option Timer;
  bonusTimer : option Timer
}.

(** The state after mounting: the menu, no timer armed. *)
Definition mountSched : Sched := mkSched initialGame 0 None None None.

(** The dependencies of each effect, as values of the state. *)
Definition loopDeps (g : Game) :=
  (gameState g, food g, bonusFood g, gameMode g, difficulty g, score g, isPaused g).
Definition countdownDeps (g : Game) := (gameState g, gameMode g, score g, isPaused g).

(** Each effect's body: the timer it arms at time [t], if any. *)
Definition armGameLoop (t : Z) (g : Game) : option Timer :=
  if playing g && negb (isPaused g) then Some (mkTimer (t + speedRef g) (speedRef g)) else None.
Definition armCountdown (t : Z) (g : Game) : option Timer :=
  if playing g && bool_decide (gameMode g = TIMED) && negb (isPaused g)
  then Some (mkTimer (t + 1000) 1000) else None.
Definition armBonus (t : Z) (g : Game) : option Timer :=
  match bonusFood g with Some _ => Some (mkTimer (t + 5000) 5000) | None => None end.

(** The effects after a render that went from [prev] to [game sc]. *)
Definition commit (prev : Game) (sc : Sched) : Sched :=
  let g := game sc in
  mkSched g (now sc)
    (if decide (loopDeps prev = loopDeps g) then gameLoopRef sc else armGameLoop (now sc) g)
    (if decide (countdownDeps prev = countdownDeps g) then countdownTimer sc
     else armCountdown (now sc) g)
    (if decide (bonusFood prev = bonusFood g) then bonusTimer sc else armBonus (now sc) g).

(** An interval after firing: due again one period later. *)
Definition reschedule (tm : Timer) : Timer := mkTimer (due tm + period tm) (period tm).

(** No timer is due before [t]. *)
Definition dueNotBefore (t : Z) (o : option Timer) : Prop :=
  match o with Some tm => t <= due tm | None => True end.
Definition noTimerBefore (t : Z) (sc : Sched) : Prop :=
  dueNotBefore t (gameLoopRef sc) /\ dueNotBefore t (countdownTimer sc) /\
  dueNotBefore t (bonusTimer sc).

(** The events a user produces (the others are the timers'). *)
Definition userEvent (ev : Event) : bool :=
  match ev with EvTick | EvSecond | EvBonusTimeout => false | _ => true end.

Inductive SLabel := LUser (ev : Event) | LLoop | LCount | LBonus.

Section sched.
Context {Rs : Type} `{!MathRandom Rs}.

Inductive sstep : Sched -> SLabel -> Sched -> Prop :=
  | ss_user sc ev t fuel s g' s' :
      userEvent ev = true -> now sc <= t -> noTimerBefore t sc ->
      enabled (game sc) ev = true ->
      run (step fuel (game sc) ev) s = (Done g', s') ->
      sstep sc (LUser ev)
        (commit (game sc) (mkSched g' t (gameLoopRef sc) (countdownTimer sc) (bonusTimer sc)))
  | ss_loop sc tm fuel s g' s' :
      gameLoopRef sc = Some tm -> now sc <= due tm -> noTimerBefore (due tm) sc ->
      run (moveSnake fuel (game sc)) s = (Done g', s') ->
      sstep sc LLoop
        (commit (game sc) (mkSched g' (due tm) (Some (reschedule tm)) (countdownTimer sc) (bonusTimer sc)))
  | ss_count sc tm :
      countdownTimer sc = Some tm -> now sc <= due tm -> noTimerBefore (due tm) sc ->
      sstep sc LCount
        (commit (game sc) (mkSched (timerTick (game sc)) (due tm) (gameLoopRef sc)
                             (Some (reschedule tm)) (bonusTimer sc)))
  | ss_bonus sc tm :
      bonusTimer sc = Some tm -> now sc <= due tm -> noTimerBefore (due tm) sc ->
      sstep sc LBonus
        (commit (game sc) (mkSched (expireBonus (game sc)) (due tm) (gameLoopRef sc)
                             (countdownTimer sc) None)).

(** Runs: finite sequences of steps, with their labels. *)
Inductive srun : Sched -> list SLabel -> Sched -> Prop :=
  | srun_nil sc : srun sc [] sc
  | srun_cons sc l sc' ls sc'' : sstep sc l sc' -> srun sc' ls sc'' -> srun sc (l :: ls) sc''.
End sched.

Arguments sstep Rs {_} _ _ _.
Arguments srun Rs {_} _ _ _.

(** The timer steps with their target state given up to conversion. *)
Lemma ss_loop_eq {Rs : Type} `{!MathRandom Rs} (sc sc' : Sched) (tm : Timer) (fuel : nat) (s s' : Rs) (g' : Game) :
  gameLoopRef sc = Some tm -> now sc <= due tm -> noTimerBefore (due tm) sc ->
  run (moveSnake fuel (game sc)) s = (Done g', s') ->
  sc' = commit (game sc) (mkSched g' (due tm) (Some (reschedule tm)) (countdownTimer sc) (bonusTimer sc)) ->
  sstep Rs sc LLoop sc'.
Proof. intros ? ? ? ? ->. by eapply ss_loop. Qed.

Lemma ss_count_eq {Rs : Type} `{!MathRandom Rs} (sc sc' : Sched) (tm : Timer) :
  countdownTimer sc = Some tm -> now sc <= due tm -> noTimerBefore (due tm) sc ->
  sc' = commit (game sc) (mkSched (timerTick (game sc)) (due tm) (gameLoopRef sc)
                            (Some (reschedule tm)) (bonusTimer sc)) ->
  sstep Rs sc LCount sc'.
Proof. intros ? ? ? ->. by eapply ss_count. Qed.

(** ** What [commit] does to each timer *)

Lemma commit_game (prev : Game) (sc : Sched) : game (commit prev sc) = game sc.
Proof. reflexivity. Qed.

Lemma commit_now (prev : Game) (sc : Sched) : now (commit prev sc) = now sc.
Proof. reflexivity. Qed.

Lemma commit_countdown_cases (prev : Game) (sc : Sched) :
  countdownTimer (commit prev sc) = countdownTimer sc \/
  countdownTimer (commit prev sc) = armCountdown (now sc) (game sc).
Proof. unfold commit. simpl. case_decide; auto. Qed.

(** A change of score re-runs the countdown effect. *)
Lemma commit_countdown_score (prev : Game) (sc : Sched) :
  score prev <> score (game sc) ->
  countdownTimer (commit prev sc) = armCountdown (now sc) (game sc).
Proof.
  intros Hne. unfold commit. simpl. rewrite decide_False; [done|].
  unfold countdownDeps. intros [=]. congruence.
Qed.

(** Each effect keeps its timer when its dependencies are unchanged and
    runs again when they changed. *)
Lemma commit_loop (prev : Game) (sc : Sched) :
  gameLoopRef (commit prev sc) =
  if decide (loopDeps prev = loopDeps (game sc)) then gameLoopRef sc else armGameLoop (now sc) (game sc).
Proof. reflexivity. Qed.

Lemma commit_countdown (prev : Game) (sc : Sched) :
  countdownTimer (commit prev sc) =
  if decide (countdownDeps prev = countdownDeps (game sc)) then countdownTimer sc
  else armCountdown (now sc) (game sc).
Proof. reflexivity. Qed.

Lemma commit_bonus (prev : Game) (sc : Sched) :
  bonusTimer (commit prev sc) =
  if decide (bonusFood prev = bonusFood (game sc)) then bonusTimer sc else armBonus (now sc) (game sc).
Proof. reflexivity. Qed.

Lemma isPaused_deps (g1 g2 : Game) :
  isPaused g1 <> isPaused g2 -> loopDeps g1 <> loopDeps g2 /\ countdownDeps g1 <> countdownDeps g2.
Proof. intros Hne. unfold loopDeps, countdownDeps. split; intros [=]; congruence. Qed.

Lemma arm_paused (t : Z) (g : Game) :
  isPaused g = true -> armGameLoop t g = None /\ armCountdown t g = None.
Proof. intros Hp. unfold armGameLoop, armCountdown. rewrite Hp, !andb_false_r. done. Qed.

Lemma sstep_now {Rs : Type} `{!MathRandom Rs} (sc sc' : Sched) (l : SLabel) :
  sstep Rs sc l sc' -> now sc <= now sc'.
Proof. destruct 1; simpl; lia. Qed.

(** ** The countdown after a change of score *)

(** The countdown is not due before [t + 1000], and the clock is past [t]. *)
Definition countdownAfter (t : Z) (sc : Sched) : Prop :=
  t <= now sc /\
  match countdownTimer sc with Some tm => t + 1000 <= due tm /\ 0 <= period tm | None => True end.

Lemma armCountdown_after (t t' : Z) (g : Game) :
  t <= t' ->
  match armCountdown t' g with Some tm => t + 1000 <= due tm /\ 0 <= period tm | None => True end.
Proof. intros Ht. unfold armCountdown. destruct (_ && _ && _); simpl; lia. Qed.

Lemma commit_countdownAfter (t : Z) (prev : Game) (sc : Sched) :
  countdownAfter t sc -> countdownAfter t (commit prev sc).
Proof.
  intros [Ht Hd]. split; [done|].
  destruct (commit_countdown_cases prev sc) as [-> | ->]; [done|].
  by apply armCountdown_after.
Qed.

Lemma sstep_countdownAfter {Rs : Type} `{!MathRandom Rs} (t : Z) (sc sc' : Sched) (l : SLabel) :
  countdownAfter t sc -> sstep Rs sc l sc' -> countdownAfter t sc'.
Proof.
  intros [Ht Hd] Hst. destruct Hst as [sc ev t' ? ? ? ? _ Hle| sc tm ? ? ? ? _ Hle| sc tm Htm Hle| sc tm _ Hle];
    apply commit_countdownAfter; split; simpl; try lia; try done.
  rewrite Htm in Hd. simpl in *. lia.
Qed.

Lemma srun_countdownAfter {Rs : Type} `{!MathRandom Rs} (t : Z) (sc sc' : Sched) (ls : list SLabel) :
  countdownAfter t sc -> srun Rs sc ls sc' -> countdownAfter t sc'.
Proof. intros H Hr. induction Hr; eauto using sstep_countdownAfter. Qed.

(** A step that changes the countdown's dependencies re-runs its effect. *)
Lemma sstep_countdown_rearmed {Rs : Type} `{!MathRandom Rs} (sc0 sc1 : Sched) (l : SLabel) :
  sstep Rs sc0 l sc1 -> countdownDeps (game sc0) <> countdownDeps (game sc1) ->
  countdownTimer sc1 = armCountdown (now sc1) (game sc1).
Proof. destruct 1; intros Hd; rewrite commit_countdown; cbn [game now] in *; by rewrite decide_False. Qed.

(** Once the countdown is re-armed, it does not fire for a full second. *)
Lemma countdown_rearmed_waits {Rs : Type} `{!MathRandom Rs}
    (sc1 sc2 sc3 : Sched) (ls : list SLabel) :
  countdownTimer sc1 = armCountdown (now sc1) (game sc1) ->
  srun Rs sc1 ls sc2 -> sstep Rs sc2 LCount sc3 -> now sc1 + 1000 <= now sc3.
Proof.
  intros Harm H12 H23.
  assert (Hc1 : countdownAfter (now sc1) sc1) by (split; [lia|]; rewrite Harm; apply armCountdown_after; lia).
  destruct (srun_countdownAfter _ _ _ _ Hc1 H12) as [_ Hd].
  inversion H23 as [| |sc tm Htm _ _ Heq|]; subst. rewrite Htm in Hd. simpl in *. lia.
Qed.

(** C23: once a step changes the score, the countdown cannot fire for a
    full second, whatever happens in between: every score change restarts
    the one-second interval, because the countdown effect depends on
    [handleGameOver], which is re-created with [score].  A timed game in
    which the player scores at least once a second never counts down. *)
Theorem countdown_waits_after_score {Rs : Type} `{!MathRandom Rs}
    (sc0 sc1 sc2 sc3 : Sched) (l : SLabel) (ls : list SLabel) :
  sstep Rs sc0 l sc1 -> score (game sc1) <> score (game sc0) ->
  srun Rs sc1 ls sc2 -> sstep Rs sc2 LCount sc3 ->
  now sc1 + 1000 <= now sc3.
Proof.
  intros H01 Hsc. apply countdown_rearmed_waits.
  apply (sstep_countdown_rearmed sc0 sc1 l H01). unfold countdownDeps. intros [=]. congruence.
Qed.

(** ** The scheduler invariant: a timer is armed exactly when the machine
    enables its event *)

(** The event a label stands for in [Machine]. *)
Definition labelEvent (l : SLabel) : Event :=
  match l with LUser ev => ev | LLoop => EvTick | LCount => EvSecond | LBonus => EvBonusTimeout end.

(** A timer is armed. *)
Definition armed (o : option Timer) : bool := match o with Some _ => true | None => false end.

(** A timer due no earlier than [t], with a positive period. *)
Definition timerOk (t : Z) (o : option Timer) : Prop :=
  match o with Some tm => t <= due tm /\ 0 < period tm | None => True end.

Record sched_inv (sc : Sched) : Prop := {
  inv_game : game_wf (game sc);
  inv_loop : armed (gameLoopRef sc) = enabled (game sc) EvTick;
  inv_count : armed (countdownTimer sc) = enabled (game sc) EvSecond;
  inv_bonus : armed (bonusTimer sc) = enabled (game sc) EvBonusTimeout;
  inv_loop_ok : timerOk (now sc) (gameLoopRef sc);
  inv_count_ok : timerOk (now sc) (countdownTimer sc);
  inv_bonus_ok : timerOk (now sc) (bonusTimer sc)
}.

Lemma loopDeps_enabled (g1 g2 : Game) :
  loopDeps g1 = loopDeps g2 -> enabled g1 EvTick = enabled g2 EvTick.
Proof. unfold loopDeps, enabled, playing. intros [= -> _ _ _ _ _ ->]. done. Qed.

Lemma countdownDeps_enabled (g1 g2 : Game) :
  countdownDeps g1 = countdownDeps g2 -> enabled g1 EvSecond = enabled g2 EvSecond.
Proof. unfold countdownDeps, enabled, playing. intros [= -> -> _ ->]. done. Qed.

Lemma bonusFood_enabled (g1 g2 : Game) :
  bonusFood g1 = bonusFood g2 -> enabled g1 EvBonusTimeout = enabled g2 EvBonusTimeout.
Proof. unfold enabled. by intros ->. Qed.

Lemma arm_armed (t : Z) (g : Game) :
  armed (armGameLoop t g) = enabled g EvTick /\
  armed (armCountdown t g) = enabled g EvSecond /\
  armed (armBonus t g) = enabled g EvBonusTimeout.
Proof.
  unfold armGameLoop, armCountdown, armBonus, enabled.
  split_and!; [by destruct (_ && _)|by destruct (_ && _ && _)|by destruct (bonusFood g)].
Qed.

Lemma arm_ok (t : Z) (g : Game) :
  0 < speedRef g ->
  timerOk t (armGameLoop t g) /\ timerOk t (armCountdown t g) /\ timerOk t (armBonus t g).
Proof.
  intros Hs. unfold armGameLoop, armCountdown, armBonus.
  split_and!; [destruct (_ && _)|destruct (_ && _ && _)|destruct (bonusFood g)]; simpl; lia.
Qed.

Lemma timerOk_le (t t' : Z) (o : option Timer) : t' <= t -> timerOk t o -> timerOk t' o.
Proof. destruct o; simpl; lia. Qed.

Lemma timerOk_reschedule (tm : Timer) : 0 < period tm -> timerOk (due tm) (Some (reschedule tm)).
Proof. simpl. lia. Qed.

Lemma timerOk_after (t : Z) (o : option Timer) :
  dueNotBefore t o -> (forall tm, o = Some tm -> 0 < period tm) -> timerOk t o.
Proof. destruct o; simpl; [|done]. intros ? Hp. split; [done|]. by apply Hp. Qed.

(** [commit] re-establishes the invariant from the timers the step left,
    when each is right for the previous state or its effect runs again. *)
Lemma commit_inv (prev : Game) (sc : Sched) :
  game_wf (game sc) ->
  (loopDeps prev = loopDeps (game sc) -> armed (gameLoopRef sc) = enabled prev EvTick) ->
  (countdownDeps prev = countdownDeps (game sc) -> armed (countdownTimer sc) = enabled prev EvSecond) ->
  (bonusFood prev = bonusFood (game sc) -> armed (bonusTimer sc) = enabled prev EvBonusTimeout) ->
  timerOk (now sc) (gameLoopRef sc) -> timerOk (now sc) (countdownTimer sc) ->
  timerOk (now sc) (bonusTimer sc) ->
  sched_inv (commit prev sc).
Proof.
  intros Hwf Hl Hc Hb Hlo Hco Hbo.
  pose proof (arm_armed (now sc) (game sc)) as (Al & Ac & Ab).
  pose proof (arm_ok (now sc) (game sc)) as (Ol & Oc & Ob); [pose proof (wf_speed _ Hwf); unfold minSpeed in *; lia|].
  unfold commit; split; cbn [game now gameLoopRef countdownTimer bonusTimer]; [done| | | |by case_decide..].
  - case_decide as H; [|done]. rewrite <- (loopDeps_enabled _ _ H). auto.
  - case_decide as H; [|done]. rewrite <- (countdownDeps_enabled _ _ H). auto.
  - case_decide as H; [|done]. rewrite <- (bonusFood_enabled _ _ H). auto.
Qed.

Lemma timerOk_move (t t' : Z) (o : option Timer) :
  timerOk t o -> dueNotBefore t' o -> timerOk t' o.
Proof. destruct o; simpl; lia. Qed.

Lemma timerOk_fired (t : Z) (tm : Timer) :
  timerOk t (Some tm) -> timerOk (due tm) (Some (reschedule tm)).
Proof. simpl. lia. Qed.

#[export] Hint Resolve timerOk_move timerOk_fired : snake.

(** Each step of the scheduler is a step of [Machine]: the event of its
    label is enabled, and the callback the event runs yields the new state. *)
Lemma sstep_machine {Rs : Type} `{!MathRandom Rs, !Inhabited Rs} (sc sc' : Sched) (l : SLabel) :
  sched_inv sc -> sstep Rs sc l sc' ->
  enabled (game sc) (labelEvent l) = true /\
  exists fuel s s', run (step fuel (game sc) (labelEvent l)) s = (Done (game sc'), s').
Proof.
  intros Hinv Hst. destruct Hst as [sc ev t fuel s g' s' _ _ _ Hen Hrun
    | sc tm fuel s g' s' Htm _ _ Hrun | sc tm Htm _ _ | sc tm Htm _ _]; cbn [labelEvent].
  - split; [done|]. by exists fuel, s, s'.
  - rewrite <- (inv_loop _ Hinv), Htm. split; [done|]. by exists fuel, s, s'.
  - rewrite <- (inv_count _ Hinv), Htm. split; [done|]. by exists O, inhabitant, inhabitant.
  - rewrite <- (inv_bonus _ Hinv), Htm. split; [done|]. by exists O, inhabitant, inhabitant.
Qed.

Section sched_inv.
Context {Rs : Type} `{!MathRandom Rs, !MathRandomLaws Rs, !Inhabited Rs}.

Lemma sstep_inv (sc sc' : Sched) (l : SLabel) :
  sched_inv sc -> sstep Rs sc l sc' -> sched_inv sc'.
Proof.
  intros Hinv Hst.
  pose proof (sstep_machine _ _ _ Hinv Hst) as (Hen & fuel & s & s' & Hrun).
  pose proof (step_wf _ _ _ _ _ _ (inv_game _ Hinv) Hen Hrun) as Hwf.
  destruct Hinv as [_ Il Ic Ib Olp Oc Ob].
  destruct Hst as [sc ev t ? ? g' ? _ _ (Nl & Nc & Nb)| sc tm ? ? g' ? Htm _ (Nl & Nc & Nb)
    | sc tm Htm _ (Nl & Nc & Nb) | sc tm Htm _ (Nl & Nc & Nb)];
    apply commit_inv; cbn [game now gameLoopRef countdownTimer bonusTimer]; eauto with snake.
  all: try (intros; congruence); try done; try (rewrite Htm in *; eauto with snake).
  intros H. by rewrite (bonusFood_enabled _ _ H).
Qed.
Lemma mountSched_inv : sched_inv mountSched.
Proof. split; try done. apply initialGame_wf. Qed.

Lemma srun_inv_reachable (sc sc' : Sched) (ls : list SLabel) :
  reachable Rs (game sc) -> sched_inv sc -> srun Rs sc ls sc' ->
  reachable Rs (game sc') /\ sched_inv sc'.
Proof.
  intros Hr Hi Hrun. induction Hrun as [|sc l sc1 ls sc2 Hst _ IH]; [done|].
  pose proof (sstep_machine _ _ _ Hi Hst) as (Hen & fuel & s & s' & Hstep).
  apply IH; [by eapply reach_step | by eapply sstep_inv].
Qed.

(** C24: the timed system refines the event machine of [Machine]: every
    state the timers and the user can bring the mounted hook to is a
    reachable state of the machine (so C1 and the other theorems on
    reachable states hold of it), and in it the game loop, the countdown
    and the bonus timeout are armed exactly when the machine enables a
    tick, a second and a bonus timeout, each due no earlier than the
    current time and with a positive period. *)
Theorem sched_refines_machine (sc : Sched) (ls : list SLabel) :
  srun Rs mountSched ls sc -> reachable Rs (game sc) /\ sched_inv sc.
Proof.
  apply srun_inv_reachable; [constructor | apply mountSched_inv].
Qed.

End sched_inv.

(** ** Pause and resume *)

Lemma togglePause_twice (g : Game) : togglePause (togglePause g) = g.
Proof. destruct g as [? ? ? ? ? ? ? ? ? [] ? ? ?]; reflexivity. Qed.

(** A user step that produced [g']. *)
Lemma sstep_user_inv {Rs : Type} `{!MathRandom Rs} (sc sc' : Sched) (ev : Event) :
  sstep Rs sc (LUser ev) sc' ->
  exists t fuel s g' s',
    now sc <= t /\ enabled (game sc) ev = true /\ run (step fuel (game sc) ev) s = (Done g', s') /\
    sc' = commit (game sc) (mkSched g' t (gameLoopRef sc) (countdownTimer sc) (bonusTimer sc)).
Proof. intros Hst. inversion Hst; subst. eauto 10. Qed.

(** ** Direction input and the timers *)

(** [handleDirection] writes only [direction] and [directionRef], which no
    effect depends on: [moveSnake] reads the ref, not the state. *)
Lemma handleDirection_deps (g : Game) (d : Dir) :
  loopDeps (handleDirection g d) = loopDeps g /\
  countdownDeps (handleDirection g d) = countdownDeps g /\
  bonusFood (handleDirection g d) = bonusFood g.
Proof. unfold handleDirection. by destruct (blocked d (directionRef g)). Qed.

(** A [commit] after a state change that no dependency sees keeps every timer. *)
Lemma commit_same_deps (prev : Game) (sc : Sched) :
  loopDeps prev = loopDeps (game sc) -> countdownDeps prev = countdownDeps (game sc) ->
  bonusFood prev = bonusFood (game sc) ->
  gameLoopRef (commit prev sc) = gameLoopRef sc /\ countdownTimer (commit prev sc) = countdownTimer sc /\
  bonusTimer (commit prev sc) = bonusTimer sc.
Proof.
  intros Hl Hc Hb. rewrite commit_loop, commit_countdown, commit_bonus.
  by rewrite !decide_True.
Qed.

(** C29: a key press or a touch on an arrow never touches the timers,
    even when it turns the snake: the game loop keeps its phase and its
    period, and the countdown and the bonus timeout are left as they
    were, because [handleDirection] writes [direction] and [directionRef],
    and no effect depends on either ([moveSnake] reads the ref). *)
Theorem direction_input_keeps_timers {Rs : Type} `{!MathRandom Rs} (sc sc' : Sched) (ev : Event) :
  ((exists key, ev = EvKeyDown key) \/ (exists d, ev = EvTouch d)) ->
  sstep Rs sc (LUser ev) sc' ->
  gameLoopRef sc' = gameLoopRef sc /\ countdownTimer sc' = countdownTimer sc /\
  bonusTimer sc' = bonusTimer sc.
Proof.
  intros Hev Hst. destruct (sstep_user_inv _ _ _ Hst) as (t & fuel & s & g' & s' & _ & _ & Hrun & ->).
  assert (Hd : loopDeps (game sc) = loopDeps g' /\ countdownDeps (game sc) = countdownDeps g' /\
               bonusFood (game sc) = bonusFood g').
  { destruct Hev as [[key ->]|[d ->]]; unfold step in Hrun;
      [destruct (handleKeyDown key) as [? [d|]]|]; rewrite run_ret in Hrun; injection Hrun as <- _;
      [destruct (handleDirection_deps (game sc) d) as (? & ? & ?) | | destruct (handleDirection_deps (game sc) d) as (? & ? & ?)];
      done. }
  destruct Hd as (Hl & Hc & Hb).
  exact (commit_same_deps (game sc) (mkSched g' t (gameLoopRef sc) (countdownTimer sc) (bonusTimer sc)) Hl Hc Hb).
Qed.

(** C25: pausing and resuming leaves the game as it was (the remaining
    time and the tick interval included) but restarts the game loop and
    the countdown from a fresh full interval at the instant of the resume:
    while paused both are cleared, and the phase they had before the pause
    is lost.  The bonus timeout is not touched by either toggle. *)
Theorem pause_resume_rearms {Rs : Type} `{!MathRandom Rs} (sc sc1 sc2 : Sched) :
  isPaused (game sc) = false ->
  sstep Rs sc (LUser EvTogglePause) sc1 -> sstep Rs sc1 (LUser EvTogglePause) sc2 ->
  gameLoopRef sc1 = None /\ countdownTimer sc1 = None /\
  game sc2 = game sc /\
  gameLoopRef sc2 = Some (mkTimer (now sc2 + speedRef (game sc)) (speedRef (game sc))) /\
  countdownTimer sc2 = (if decide (gameMode (game sc) = TIMED)
                        then Some (mkTimer (now sc2 + 1000) 1000) else None) /\
  bonusTimer sc2 = bonusTimer sc.
Proof.
  intros Hp H1 H2.
  apply sstep_user_inv in H1 as (t1 & ? & ? & g1 & ? & _ & Hen & Hrun1 & ->).
  apply sstep_user_inv in H2 as (t2 & ? & ? & g2 & ? & _ & _ & Hrun2 & ->).
  cbn [step] in Hrun1, Hrun2. injection Hrun1 as <- _. injection Hrun2 as <- _.
  cbn [enabled] in Hen. rewrite !commit_loop, !commit_countdown, !commit_bonus.
  cbn [game now gameLoopRef countdownTimer bonusTimer].
  destruct (isPaused_deps (game sc) (togglePause (game sc))) as [Hl1 Hc1];
    [unfold togglePause; simpl; by rewrite Hp|].
  destruct (isPaused_deps (togglePause (game sc)) (togglePause (togglePause (game sc)))) as [Hl2 Hc2];
    [unfold togglePause; simpl; by rewrite Hp|].
  rewrite togglePause_twice in *.
  rewrite (decide_False _ _ Hl1), (decide_False _ _ Hc1), (decide_False _ _ Hl2), (decide_False _ _ Hc2).
  rewrite !decide_True by done.
  destruct (arm_paused t1 (togglePause (game sc))) as [-> ->]; [unfold togglePause; simpl; by rewrite Hp|].
  unfold armGameLoop, armCountdown. rewrite Hen, Hp. simpl. split_and!; try done; [|by rewrite decide_True].
  case_decide; [rewrite bool_decide_true | rewrite bool_decide_false]; done.
Qed.
(** C38: resuming a paused game restarts the countdown's second: after
    the resume, the countdown cannot fire for a full second, whatever
    happens in between.  A player who pauses and resumes within every
    second keeps [timeLeft] from ever decreasing, while the snake moves
    between the toggles. *)
Theorem countdown_waits_after_resume {Rs : Type} `{!MathRandom Rs}
    (sc0 sc1 sc2 sc3 : Sched) (ls : list SLabel) :
  isPaused (game sc0) = true ->
  sstep Rs sc0 (LUser EvTogglePause) sc1 ->
  srun Rs sc1 ls sc2 -> sstep Rs sc2 LCount sc3 ->
  now sc1 + 1000 <= now sc3.
Proof.
  intros Hp H01. apply countdown_rearmed_waits.
  apply (sstep_countdown_rearmed sc0 sc1 _ H01).
  apply sstep_user_inv in H01 as (t & fuel & s & g' & s' & _ & _ & Hrun & ->).
  cbn [step] in Hrun. injection Hrun as <- _.
  unfold countdownDeps, togglePause. simpl. rewrite Hp. by intros [=].
Qed.


(** ** The bonus timeout while paused *)

(** C26: pausing does not stop the bonus timeout.  In any state of the
    timed system that is paused with a bonus on the board, the game loop
    and the countdown are cleared, and the next thing that can happen
    without the player is the bonus timeout firing and removing the bonus,
    the game still paused: a bonus spawned just before a pause is lost
    while the game stands still. *)
Theorem bonus_expires_while_paused {Rs : Type} `{!MathRandom Rs} (sc : Sched) (b : Point) :
  sched_inv sc -> isPaused (game sc) = true -> bonusFood (game sc) = Some b ->
  gameLoopRef sc = None /\ countdownTimer sc = None /\
  exists sc', sstep Rs sc LBonus sc' /\ game sc' = expireBonus (game sc) /\
              bonusFood (game sc') = None /\ isPaused (game sc') = true.
Proof.
  intros [_ Il Ic Ib _ _ Ob] Hp Hb.
  cbn [enabled] in Il, Ic, Ib. rewrite Hp, andb_false_r in Il, Ic. rewrite Hb in Ib.
  destruct (gameLoopRef sc) eqn:Hl, (countdownTimer sc) eqn:Hc; try discriminate.
  destruct (bonusTimer sc) as [tm|] eqn:Htm; [|discriminate].
  split_and!; [done|done|]. simpl in Ob.
  eexists. split_and!; [eapply ss_bonus; [done|lia|] | done | done | simpl; done].
  unfold noTimerBefore, dueNotBefore. rewrite Hl, Hc, Htm. split_and!; done || lia.
Qed.

(** ** A new tick interval re-arms the game loop *)

Lemma moveSnake_speed_score {Rs : Type} `{!MathRandom Rs, !MathRandomLaws Rs}
    (fuel : nat) (g g' : Game) (s s' : Rs) :
  run (moveSnake fuel g) s = (Done g', s') -> speedRef g' <> speedRef g -> score g' <> score g.
Proof.
  intros Hrun Hne.
  destruct (moveSnake_Done fuel g g' s s' Hrun) as [| | |h t g2 s2 _ _ _ _ He]; try done.
  apply eatFood_spec in He as (nf & nb & _ & _ & _ & ->).
  unfold applySpeedRamp. case_decide; simpl; by destruct (ateBonusAt _ _); simpl; lia.
Qed.

(** The machine steps that change the tick interval change the
    dependencies of the game loop effect: the score, or the game state. *)
Lemma step_speed_deps {Rs : Type} `{!MathRandom Rs, !MathRandomLaws Rs}
    (fuel : nat) (g g' : Game) (ev : Event) (s s' : Rs) :
  enabled g ev = true -> run (step fuel g ev) s = (Done g', s') ->
  speedRef g' <> speedRef g -> loopDeps g <> loopDeps g'.
Proof.
  intros Hen Hrun Hne Hdeps. unfold loopDeps in Hdeps.
  destruct ev; cbn [step] in Hrun.
  - by apply (moveSnake_speed_score fuel g g' s s' Hrun Hne); injection Hdeps.
  - injection Hrun as <- _. unfold timerTick in Hne. by destruct (_ <=? 1).
  - by injection Hrun as <- _.
  - destruct (snd (handleKeyDown key)) as [d|]; injection Hrun as <- _; [|done].
    unfold handleDirection in Hne. by destruct (blocked _ _).
  - injection Hrun as <- _. unfold handleDirection in Hne. by destruct (blocked _ _).
  - by injection Hrun as <- _.
  - by injection Hrun as <- _.
  - unfold resetGame in Hrun. rand_simpl.
    destruct (generateFood fuel [⟨10, 10⟩] s) as [[f|] s1]; [|done]. injection Hrun as <- _.
    injection Hdeps as Hgs. cbn [enabled] in Hen. simpl in Hgs.
    rewrite Hgs in Hen. by rewrite !bool_decide_false in Hen by naive_solver.
  - by injection Hrun as <- _.
Qed.

(** C27: whenever a step of the timed system changes the tick interval
    ([speedRef]), the game loop is cleared and re-armed with the new
    interval at the instant of the step.  [speedRef] is a ref and not a
    dependency of the effect; the loop is re-armed because every change
    of interval comes with a change of score (food eaten in UNLIMITED
    mode) or of game state (a new game). *)
Theorem speed_change_rearms_loop {Rs : Type} `{!MathRandom Rs, !MathRandomLaws Rs, !Inhabited Rs}
    (sc sc' : Sched) (l : SLabel) :
  sched_inv sc -> sstep Rs sc l sc' -> speedRef (game sc') <> speedRef (game sc) ->
  gameLoopRef sc' = armGameLoop (now sc') (game sc').
Proof.
  intros Hinv Hst Hne.
  pose proof (sstep_machine _ _ _ Hinv Hst) as (Hen & fuel & s & s' & Hrun).
  pose proof (step_speed_deps _ _ _ _ _ _ Hen Hrun Hne) as Hd.
  destruct Hst; rewrite commit_loop; cbn [game now] in *; by rewrite decide_False.
Qed.

(** ** Each timer runs at its current period *)

(** An armed timer has period [p] and is due within one period of [t]. *)
Definition runsAt (t p : Z) (o : option Timer) : Prop :=
  match o with Some tm => period tm = p /\ due tm <= t + p | None => True end.

(** The game loop runs at the current [speedRef], the countdown every
    second, the bonus timeout after five seconds. *)
Definition timing_inv (sc : Sched) : Prop :=
  runsAt (now sc) (speedRef (game sc)) (gameLoopRef sc) /\
  runsAt (now sc) 1000 (countdownTimer sc) /\ runsAt (now sc) 5000 (bonusTimer sc).

Lemma runsAt_arm (t : Z) (g : Game) :
  runsAt t (speedRef g) (armGameLoop t g) /\ runsAt t 1000 (armCountdown t g) /\
  runsAt t 5000 (armBonus t g).
Proof.
  unfold armGameLoop, armCountdown, armBonus.
  split_and!; [destruct (_ && _)|destruct (_ && _ && _)|destruct (bonusFood g)]; simpl; lia.
Qed.

Lemma runsAt_later (t t' p : Z) (o : option Timer) : t <= t' -> runsAt t p o -> runsAt t' p o.
Proof. destruct o; simpl; lia. Qed.

Lemma runsAt_fired (t p : Z) (tm : Timer) :
  runsAt t p (Some tm) -> runsAt (due tm) p (Some (reschedule tm)).
Proof. simpl. lia. Qed.

#[export] Hint Resolve runsAt_later runsAt_fired : snake.

Lemma commit_timing (prev : Game) (sc : Sched) :
  (loopDeps prev = loopDeps (game sc) -> runsAt (now sc) (speedRef (game sc)) (gameLoopRef sc)) ->
  runsAt (now sc) 1000 (countdownTimer sc) -> runsAt (now sc) 5000 (bonusTimer sc) ->
  timing_inv (commit prev sc).
Proof.
  intros Hl Hc Hb. pose proof (runsAt_arm (now sc) (game sc)) as (Al & Ac & Ab).
  unfold timing_inv. rewrite commit_loop, commit_countdown, commit_bonus.
  cbn [game now]. split_and!; case_decide; auto.
Qed.

Section timing.
Context {Rs : Type} `{!MathRandom Rs, !MathRandomLaws Rs, !Inhabited Rs}.

Lemma sstep_timing (sc sc' : Sched) (l : SLabel) :
  sched_inv sc -> timing_inv sc -> sstep Rs sc l sc' -> timing_inv sc'.
Proof.
  intros Hinv (Tl & Tc & Tb) Hst.
  pose proof (sstep_machine _ _ _ Hinv Hst) as (Hen & fuel & s & s' & Hrun).
  assert (Hsp : loopDeps (game sc) = loopDeps (game sc') -> speedRef (game sc') = speedRef (game sc)).
  { intros Hd. destruct (Z.eq_dec (speedRef (game sc')) (speedRef (game sc))) as [|Hne]; [done|].
    by destruct (step_speed_deps _ _ _ _ _ _ Hen Hrun Hne). }
  destruct Hst as [sc ev t ? ? g' ? _ Ht _ _ _| sc tm ? ? g' ? Htm Ht _ _
    | sc tm Htm Ht _ | sc tm Htm Ht _]; rewrite ?commit_game in Hsp; cbn [game now] in *;
    apply commit_timing; cbn [game now gameLoopRef countdownTimer bonusTimer];
    try (intros Hd; rewrite (Hsp Hd)); try rewrite Htm in *; eauto with snake; done.
Qed.

Lemma srun_timing (sc sc' : Sched) (ls : list SLabel) :
  sched_inv sc -> timing_inv sc -> srun Rs sc ls sc' -> timing_inv sc'.
Proof.
  intros Hi Ht Hr. induction Hr as [|sc l sc1 ls sc2 Hst _ IH]; [done|].
  apply IH; [by eapply sstep_inv | by eapply sstep_timing].
Qed.

(** C39: in every state the mounted hook reaches, each armed timer runs
    at its current period and is due within one period: the game loop
    every [speedRef] ms (so a new interval takes effect at once), the
    countdown every 1000 ms, the bonus timeout within 5000 ms. *)
Theorem timers_run_at_period (sc : Sched) (ls : list SLabel) :
  srun Rs mountSched ls sc -> timing_inv sc.
Proof. apply srun_timing; [apply mountSched_inv | done]. Qed.
End timing.

(** The firing of the game loop and of the countdown, evaluated on a
    tape: the states of the runs below. *)
Definition loopFire (s : Tape) (sc : Sched) : Sched :=
  match gameLoopRef sc with
  | Some tm =>
      match run (moveSnake 1 (game sc)) s with
      | (Done g', _) =>
          commit (game sc) (mkSched g' (due tm) (Some (reschedule tm)) (countdownTimer sc) (bonusTimer sc))
      | _ => sc
      end
  | None => sc
  end.
Definition userFire (s : Tape) (t : Z) (ev : Event) (sc : Sched) : Sched :=
  match run (step 1 (game sc) ev) s with
  | (Done g', _) => commit (game sc) (mkSched g' t (gameLoopRef sc) (countdownTimer sc) (bonusTimer sc))
  | _ => sc
  end.
Definition countFire (sc : Sched) : Sched :=
  match countdownTimer sc with
  | Some tm =>
      commit (game sc) (mkSched (timerTick (game sc)) (due tm) (gameLoopRef sc)
                         (Some (reschedule tm)) (bonusTimer sc))
  | None => sc
  end.

(** The conditions of each firing, as booleans. *)
Definition dueNotBeforeb (t : Z) (o : option Timer) : bool :=
  match o with Some tm => t <=? due tm | None => true end.
Definition noTimerBeforeb (t : Z) (sc : Sched) : bool :=
  dueNotBeforeb t (gameLoopRef sc) && dueNotBeforeb t (countdownTimer sc) &&
  dueNotBeforeb t (bonusTimer sc).
Definition isDone (o : Outcome) : bool := match o with Done _ => true | Failed _ => false end.

Definition loopReady (s : Tape) (sc : Sched) : bool :=
  match gameLoopRef sc with
  | Some tm => (now sc <=? due tm) && noTimerBeforeb (due tm) sc &&
               isDone (fst (run (moveSnake 1 (game sc)) s))
  | None => false
  end.
Definition countReady (sc : Sched) : bool :=
  match countdownTimer sc with
  | Some tm => (now sc <=? due tm) && noTimerBeforeb (due tm) sc
  | None => false
  end.
Definition userReady (s : Tape) (t : Z) (ev : Event) (sc : Sched) : bool :=
  userEvent ev && (now sc <=? t) && noTimerBeforeb t sc && enabled (game sc) ev &&
  isDone (fst (run (step 1 (game sc) ev) s)).

Lemma noTimerBeforeb_spec (t : Z) (sc : Sched) : noTimerBeforeb t sc = true -> noTimerBefore t sc.
Proof.
  unfold noTimerBeforeb, noTimerBefore, dueNotBeforeb, dueNotBefore.
  destruct (gameLoopRef sc), (countdownTimer sc), (bonusTimer sc);
    rewrite ?andb_true_iff, ?Z.leb_le; tauto.
Qed.

Lemma loopReady_sstep (s : Tape) (sc : Sched) : loopReady s sc = true -> sstep Tape sc LLoop (loopFire s sc).
Proof.
  unfold loopReady, loopFire. destruct (gameLoopRef sc) as [tm|] eqn:Htm; [|done].
  rewrite !andb_true_iff, Z.leb_le. intros [[? ?%noTimerBeforeb_spec] Hd].
  destruct (run (moveSnake 1 (game sc)) s) as [[g'|] s'] eqn:Hrun; [|done].
  by eapply ss_loop_eq.
Qed.

Lemma countReady_sstep (sc : Sched) : countReady sc = true -> sstep Tape sc LCount (countFire sc).
Proof.
  unfold countReady, countFire. destruct (countdownTimer sc) as [tm|] eqn:Htm; [|done].
  rewrite !andb_true_iff, Z.leb_le. intros [? ?%noTimerBeforeb_spec]. by eapply ss_count_eq.
Qed.

Lemma userReady_sstep (s : Tape) (t : Z) (ev : Event) (sc : Sched) :
  userReady s t ev sc = true -> sstep Tape sc (LUser ev) (userFire s t ev sc).
Proof.
  unfold userReady, userFire. rewrite !andb_true_iff, Z.leb_le.
  intros [[[[? ?] ?%noTimerBeforeb_spec] ?] Hd].
  destruct (run (step 1 (game sc) ev) s) as [[g'|] s'] eqn:Hrun; [|done]. by eapply ss_user.
Qed.

(** [n] firings of the game loop in a row, and their conditions. *)
Fixpoint loopRun (n : nat) (s : Tape) (sc : Sched) : Sched :=
  match n with O => sc | S n => loopRun n s (loopFire s sc) end.
Fixpoint loopRunReady (n : nat) (s : Tape) (sc : Sched) : bool :=
  match n with O => true | S n => loopReady s sc && loopRunReady n s (loopFire s sc) end.

Lemma loopRun_srun (n : nat) (s : Tape) (sc : Sched) :
  loopRunReady n s sc = true -> srun Tape sc (repeat LLoop n) (loopRun n s sc).
Proof.
  revert sc. induction n as [|n IH]; intros sc; [constructor|].
  cbn [loopRunReady]. rewrite andb_true_iff. intros [H1 H2].
  econstructor; [by apply loopReady_sstep|]. by apply IH.
Qed.

Ltac loop_fire s := apply (loopReady_sstep s); vm_compute; reflexivity.
Ltac count_fire := apply countReady_sstep; vm_compute; reflexivity.
Ltac user_fire s t := apply (userReady_sstep s t); vm_compute; reflexivity.

(** A running timed game: the head at (10, 10) moves right onto the food
    at (11, 10) with the first tick, 140 ms after the start.  The countdown
    armed at the start would fire at 1000 ms; the score change re-arms it
    at 1140 ms, and the snake moves seven more times, 138 ms apart, before
    it fires. *)
Definition timedFoodGame : Game := foodGame |> setGameMode TIMED.
Definition schedA : Sched :=
  mkSched timedFoodGame 0 (armGameLoop 0 timedFoodGame) (armCountdown 0 timedFoodGame) None.
Definition schedB : Sched := loopFire foodTape schedA.
Definition schedB7 : Sched := loopRun 7 (mkTape []) schedB.
Definition schedC : Sched := countFire schedB7.

Lemma countdown_waits_after_score_witness :
  sstep Tape schedA LLoop schedB /\ score (game schedB) <> score (game schedA) /\
  srun Tape schedB (repeat LLoop 7) schedB7 /\ sstep Tape schedB7 LCount schedC /\
  now schedB + 1000 <= now schedC.
Proof.
  assert (H1 : sstep Tape schedA LLoop schedB) by loop_fire foodTape.
  assert (H2 : score (game schedB) <> score (game schedA)) by (vm_compute; congruence).
  assert (H3 : sstep Tape schedB7 LCount schedC) by count_fire.
  assert (H12 : srun Tape schedB (repeat LLoop 7) schedB7).
  { apply loopRun_srun. vm_compute. reflexivity. }
  split_and!; [exact H1 | exact H2 | exact H12 | exact H3 |].
  exact (countdown_waits_after_score schedA schedB schedB7 schedC LLoop _ H1 H2 H12 H3).
Defined.

(** "Timed Mode" pressed in the menu at time 0, then the first tick. *)
Definition startSched : Sched := userFire (mkTape (tapeOf ⟨15, 10⟩)) 0 (EvStart TIMED) mountSched.
Definition tickSched : Sched := loopFire (mkTape []) startSched.

Lemma sched_refines_machine_witness :
  srun Tape mountSched [LUser (EvStart TIMED); LLoop] tickSched /\
  reachable Tape (game tickSched) /\ sched_inv tickSched.
Proof.
  assert (H : srun Tape mountSched [LUser (EvStart TIMED); LLoop] tickSched).
  { apply (srun_cons _ _ startSched); [user_fire (mkTape (tapeOf ⟨15, 10⟩)) 0|].
    apply (srun_cons _ _ tickSched); [loop_fire (mkTape [])|]. constructor. }
  split; [exact H|]. exact (sched_refines_machine tickSched _ H).
Defined.

(** Pause 50 ms after the start of the timed game, resume at 300 ms. *)
Definition pauseSched : Sched := userFire (mkTape []) 50 EvTogglePause startSched.
Definition resumeSched : Sched := userFire (mkTape []) 300 EvTogglePause pauseSched.

Lemma pause_resume_rearms_witness :
  isPaused (game startSched) = false /\
  sstep Tape startSched (LUser EvTogglePause) pauseSched /\
  sstep Tape pauseSched (LUser EvTogglePause) resumeSched /\
  gameLoopRef resumeSched = Some (mkTimer 440 140) /\
  countdownTimer resumeSched = Some (mkTimer 1300 1000).
Proof.
  assert (H1 : sstep Tape startSched (LUser EvTogglePause) pauseSched) by user_fire (mkTape []) 50.
  assert (H2 : sstep Tape pauseSched (LUser EvTogglePause) resumeSched) by user_fire (mkTape []) 300.
  destruct (pause_resume_rearms startSched pauseSched resumeSched ltac:(reflexivity) H1 H2)
    as (_ & _ & _ & Hl & Hc & _).
  split_and!; [reflexivity | exact H1 | exact H2 | rewrite Hl | rewrite Hc]; vm_compute; reflexivity.
Defined.

(** An UNLIMITED game whose first tick eats the food at (11, 10) and
    spawns a bonus at (5, 5); the player pauses at 200 ms. *)
Definition unlimitedSched : Sched :=
  userFire (mkTape (tapeOf ⟨11, 10⟩)) 0 (EvStart UNLIMITED) mountSched.
Definition bonusTape : Tape := mkTape (tapeOf ⟨3, 4⟩ ++ [RAND_SCALE - 1] ++ tapeOf ⟨5, 5⟩).
Definition eatSched : Sched := loopFire bonusTape unlimitedSched.
Definition bonusPausedSched : Sched := userFire (mkTape []) 200 EvTogglePause eatSched.

Lemma unlimitedSched_inv : sched_inv unlimitedSched.
Proof.
  refine (proj2 (srun_inv_reachable (Rs := Tape) mountSched _ [LUser (EvStart UNLIMITED)]
                   reach_init mountSched_inv _)).
  apply (srun_cons _ _ unlimitedSched); [user_fire (mkTape (tapeOf ⟨11, 10⟩)) 0|].
  constructor.
Qed.

Lemma bonusPausedSched_inv : sched_inv bonusPausedSched.
Proof.
  refine (proj2 (srun_inv_reachable (Rs := Tape) mountSched _
                   [LUser (EvStart UNLIMITED); LLoop; LUser EvTogglePause]
                   reach_init mountSched_inv _)).
  apply (srun_cons _ _ unlimitedSched); [user_fire (mkTape (tapeOf ⟨11, 10⟩)) 0|].
  apply (srun_cons _ _ eatSched); [loop_fire bonusTape|].
  apply (srun_cons _ _ bonusPausedSched); [user_fire (mkTape []) 200|]. constructor.
Qed.

Lemma bonus_expires_while_paused_witness :
  sched_inv bonusPausedSched /\ isPaused (game bonusPausedSched) = true /\
  bonusFood (game bonusPausedSched) = Some ⟨5, 5⟩ /\
  gameLoopRef bonusPausedSched = None /\ countdownTimer bonusPausedSched = None /\
  exists sc', sstep Tape bonusPausedSched LBonus sc' /\ game sc' = expireBonus (game bonusPausedSched) /\
              bonusFood (game sc') = None /\ isPaused (game sc') = true.
Proof.
  refine (conj bonusPausedSched_inv (conj eq_refl (conj _ _))); [vm_compute; reflexivity|].
  exact (bonus_expires_while_paused bonusPausedSched ⟨5, 5⟩ bonusPausedSched_inv
           ltac:(reflexivity) ltac:(reflexivity)).
Defined.

Lemma speed_change_rearms_loop_witness :
  sched_inv unlimitedSched /\ sstep Tape unlimitedSched LLoop eatSched /\
  speedRef (game eatSched) <> speedRef (game unlimitedSched) /\
  gameLoopRef eatSched = armGameLoop (now eatSched) (game eatSched).
Proof.
  assert (H : sstep Tape unlimitedSched LLoop eatSched) by loop_fire bonusTape.
  assert (Hne : speedRef (game eatSched) <> speedRef (game unlimitedSched)) by (vm_compute; congruence).
  split_and!; [exact unlimitedSched_inv|exact H|exact Hne|].
  exact (speed_change_rearms_loop unlimitedSched eatSched LLoop unlimitedSched_inv H Hne).
Defined.

(** A timed game with the food at (3, 3), out of the snake's way; paused
    at 50 ms and resumed at 300 ms, the countdown fires at 1300 ms, after
    seven moves. *)
Definition startB : Sched := userFire (mkTape (tapeOf ⟨3, 3⟩)) 0 (EvStart TIMED) mountSched.
Definition pauseB : Sched := userFire (mkTape []) 50 EvTogglePause startB.
Definition resumeB : Sched := userFire (mkTape []) 300 EvTogglePause pauseB.
Definition runB : Sched := loopRun 7 (mkTape []) resumeB.
Definition countB : Sched := countFire runB.

Lemma countdown_waits_after_resume_witness :
  isPaused (game pauseB) = true /\ sstep Tape pauseB (LUser EvTogglePause) resumeB /\
  srun Tape resumeB (repeat LLoop 7) runB /\ sstep Tape runB LCount countB /\
  now resumeB + 1000 <= now countB.
Proof.
  assert (H0 : isPaused (game pauseB) = true) by (vm_compute; reflexivity).
  assert (H1 : sstep Tape pauseB (LUser EvTogglePause) resumeB) by user_fire (mkTape []) 300.
  assert (H2 : srun Tape resumeB (repeat LLoop 7) runB) by (apply loopRun_srun; vm_compute; reflexivity).
  assert (H3 : sstep Tape runB LCount countB) by count_fire.
  split_and!; [exact H0 | exact H1 | exact H2 | exact H3 |].
  exact (countdown_waits_after_resume pauseB resumeB runB countB _ H0 H1 H2 H3).
Defined.

Lemma timers_run_at_period_witness :
  srun Tape mountSched [LUser (EvStart UNLIMITED); LLoop; LUser EvTogglePause] bonusPausedSched /\
  timing_inv bonusPausedSched.
Proof.
  assert (H : srun Tape mountSched [LUser (EvStart UNLIMITED); LLoop; LUser EvTogglePause]
                bonusPausedSched).
  { apply (srun_cons _ _ unlimitedSched); [user_fire (mkTape (tapeOf ⟨11, 10⟩)) 0|].
    apply (srun_cons _ _ eatSched); [loop_fire bonusTape|].
    apply (srun_cons _ _ bonusPausedSched); [user_fire (mkTape []) 200|]. constructor. }
  split; [exact H|]. exact (timers_run_at_period bonusPausedSched _ H).
Defined.

(** The up arrow pressed 60 ms into the timed game, which turns the snake. *)
Definition keySched : Sched := userFire (mkTape []) 60 (EvKeyDown (arrowKey UP)) startSched.

Lemma direction_input_keeps_timers_witness :
  sstep Tape startSched (LUser (EvKeyDown (arrowKey UP))) keySched /\
  directionRef (game keySched) <> directionRef (game startSched) /\
  gameLoopRef keySched = gameLoopRef startSched /\ countdownTimer keySched = countdownTimer startSched /\
  bonusTimer keySched = bonusTimer startSched.
Proof.
  assert (H : sstep Tape startSched (LUser (EvKeyDown (arrowKey UP))) keySched)
    by user_fire (mkTape []) 60.
  split; [exact H|]. split; [vm_compute; congruence|].
  exact (direction_input_keeps_timers startSched keySched _ (or_introl (ex_intro _ _ eq_refl)) H).
Defined.
