(* ===== verification/Render.v ===== *)
(** * Render: what [SnakeGame.tsx] draws for a state of the hook

    [SnakeGame] (src/components/SnakeGame.tsx) renders a skeleton until its
    [mounted] effect has run (lines 8-43), then the page of lines 45-323:
    the title while not PLAYING, the score board with the clock in TIMED
    mode and the pause button while PLAYING, the board with the food, the
    bonus and the snake segments while PLAYING, the pause overlay, the
    menu, the game-over panel and the touch arrows.  [render] is that
    function of the state, [boardSprites] the cells drawn on the board,
    and [buttons] the events that the rendered controls fire.

    Positions and sizes are percentages of the board, as exact rationals
    ([Q]): the code computes [(x / GRID_SIZE) * 100] with doubles and
    prints it into a style string; neither the rounding of doubles nor the
    printing is modelled, nor the CSS classes and markup that carry no
    state.  The head's [rotate(...)] is kept as its angle in degrees. *)

From S2P Require Import Prelude Grid Random Food Snake Direction Engine Machine Tick.
From Stdlib Require Import QArith.
Local Open Scope Z_scope.

(** [`${(c / GRID_SIZE) * 100}%`] and [`${100 / GRID_SIZE}%`] *)
Definition percent (c : Z) : Q := (inject_Z c / inject_Z GRID_SIZE * 100)%Q.
Definition cellSize : Q := (100 / inject_Z GRID_SIZE)%Q.

(** The four kinds of cell drawn on the board; the head carries its
    rotation in degrees. *)
Inductive SpriteKind := FoodSprite | BonusSprite | HeadSprite (rotation : Z) | BodySprite.

(** A drawn cell: its kind and its [left], [top], [width], [height]. *)
Record Sprite := mkSprite { kind : SpriteKind; left : Q; top : Q; width : Q; height : Q }.

Definition cellSprite (k : SpriteKind) (p : Point) : Sprite :=
  mkSprite k (percent (x p)) (percent (y p)) cellSize cellSize.

(** The head's rotation (lines 152-161): from the head and [snake[1]]. *)
Definition headRotation (sn : list Point) : Z :=
  match sn with
  | segment :: next :: _ =>
      if x next <? x segment then 90
      else if x segment <? x next then 270
      else if y next <? y segment then 180
      else 0
  | _ => 0
  end.

(** One element of [snake.map((segment, index) => ...)] (lines 150-187). *)
Definition segmentSprite (sn : list Point) (index : nat) (segment : Point) : Sprite :=
  cellSprite (if bool_decide (index = O) then HeadSprite (headRotation sn) else BodySprite) segment.

Definition snakeSprites (sn : list Point) : list Sprite := imap (segmentSprite sn) sn.

(** The board's content (lines 118-189): food, bonus food, snake. *)
Definition boardSprites (g : Game) : list Sprite :=
  if playing g then
    cellSprite FoodSprite (food g) ::
    (match bonusFood g with Some b => [cellSprite BonusSprite b] | None => [] end) ++
    snakeSprites (snake g)
  else [].

(** The page: which panels are shown and what they show. *)
Record Page := mkPage {
  header : bool;                    (** the title, lines 52-59 *)
  scoreShown : Z;                   (** lines 66-69 *)
  clock : option (Z * bool);        (** lines 71-78: seconds left, red below 10 *)
  highScoreShown : Z;               (** lines 81-84 *)
  pauseButton : option bool;        (** lines 86-93: shown while PLAYING, a play icon when paused *)
  sprites : list Sprite;            (** lines 118-189 *)
  pauseOverlay : bool;              (** lines 191-202 *)
  menuOverlay : option Difficulty;  (** lines 205-262, with the highlighted difficulty *)
  gameOverOverlay : option Z;       (** lines 265-287, with the score *)
  mobileControls : bool             (** lines 292-321 *)
}.

Inductive Screen := Skeleton | Shown (p : Page).

Definition render (mounted : bool) (g : Game) : Screen :=
  if negb mounted then Skeleton
  else Shown {|
    header := negb (playing g);
    scoreShown := score g;
    clock := if bool_decide (gameMode g = TIMED) then Some (timeLeft g, timeLeft g <? 10) else None;
    highScoreShown := highScore g;
    pauseButton := if playing g then Some (isPaused g) else None;
    sprites := boardSprites g;
    pauseOverlay := isPaused g && playing g;
    menuOverlay := if bool_decide (gameState g = MENU) then Some (difficulty g) else None;
    gameOverOverlay := if bool_decide (gameState g = GAME_OVER) then Some (score g) else None;
    mobileControls := playing g |}.

(** The events the rendered controls fire: the pause button, the resume
    button, the difficulty and mode buttons of the menu, "Change Mode" and
    "Try Again", and the four touch arrows. *)
Definition buttons (mounted : bool) (g : Game) : list Event :=
  if negb mounted then []
  else (if playing g then [EvTogglePause] else []) ++
       (if isPaused g && playing g then [EvTogglePause] else []) ++
       (if bool_decide (gameState g = MENU)
        then map EvSelectDifficulty [EASY; MEDIUM; HARD] ++ [EvStart UNLIMITED; EvStart TIMED]
        else []) ++
       (if bool_decide (gameState g = GAME_OVER) then [EvChangeMode; EvStart (gameMode g)] else []) ++
       (if playing g then map EvTouch [UP; LEFT; DOWN; RIGHT] else []).

(** The events that come from a click or a touch on the page. *)
Definition clickEvent (ev : Event) : bool :=
  match ev with EvTick | EvSecond | EvBonusTimeout | EvKeyDown _ => false | _ => true end.

(** The direction a head rotation shows: [rotate(0deg)] leaves the eyes
    and the tongue of the head on its top side, facing up. *)
Definition rotVector (r : Z) : Point :=
  if r =? 90 then ⟨1, 0⟩ else if r =? 270 then ⟨-1, 0⟩ else if r =? 180 then ⟨0, 1⟩ else ⟨0, -1⟩.

(** The position of a drawn cell. *)
Definition spritePos (sp : Sprite) : Q * Q := (left sp, top sp).

(** The position of a cell on the board. *)
Definition cellPos (p : Point) : Q * Q := (percent (x p), percent (y p)).

(** A drawn cell lies inside the board's box. *)
Definition spriteInBoard (sp : Sprite) : Prop :=
  (0 <= left sp /\ left sp + width sp <= 100 /\ 0 <= top sp /\ top sp + height sp <= 100)%Q.

(** A page shows exactly one of the board's content, the menu and the
    game-over panel; the title exactly when the touch arrows are hidden;
    the arrows exactly when the board has content; and the pause overlay
    only over a board whose pause button shows the play icon. *)
Definition panel {A} (o : option A) : nat := match o with Some _ => 1 | None => 0 end.
Definition boardPanel (l : list Sprite) : nat := match l with [] => 0 | _ => 1 end.

Definition page_wf (p : Page) : Prop :=
  (boardPanel (sprites p) + panel (menuOverlay p) + panel (gameOverOverlay p) = 1)%nat /\
  header p = negb (mobileControls p) /\
  mobileControls p = bool_decide (sprites p <> []) /\
  (pauseOverlay p = true -> pauseButton p = Some true).

(** ** Lemmas on the drawn cells *)

Lemma percent_bounds (c : Z) :
  0 <= c < GRID_SIZE -> (0 <= percent c /\ percent c + cellSize <= 100)%Q.
Proof. intros Hc. unfold percent, cellSize, GRID_SIZE, Qle in *. simpl. lia. Qed.

Lemma percent_inj (a b : Z) : percent a = percent b -> a = b.
Proof. unfold percent. simpl. intros [= H]. lia. Qed.

#[export] Instance cellPos_inj : Inj (=) (=) cellPos.
Proof.
  intros [a1 b1] [a2 b2] H. unfold cellPos in H. simpl in H.
  assert (a1 = a2 /\ b1 = b2) as [-> ->]; [|done].
  split; apply percent_inj; congruence.
Qed.

Lemma cellSprite_in_board (k : SpriteKind) (p : Point) : inBounds p -> spriteInBoard (cellSprite k p).
Proof.
  intros [Hx Hy]. apply percent_bounds in Hx as [? ?], Hy as [? ?]. unfold spriteInBoard. simpl. tauto.
Qed.

Lemma snakeSprites_pos (sn : list Point) : spritePos <$> snakeSprites sn = cellPos <$> sn.
Proof. unfold snakeSprites. rewrite fmap_imap, <- imap_const. by apply imap_ext. Qed.

Lemma elem_of_snakeSprites (sp : Sprite) (sn : list Point) :
  sp ∈ snakeSprites sn -> exists k p, p ∈ sn /\ sp = cellSprite k p.
Proof.
  intros (i & p & -> & Hi)%elem_of_lookup_imap_1.
  exists (if bool_decide (i = O) then HeadSprite (headRotation sn) else BodySprite), p.
  split; [by eapply list_elem_of_lookup_2|done].
Qed.

(** The cells on the board: food, bonus food, snake. *)
Definition boardCells (g : Game) : list Point :=
  food g :: (match bonusFood g with Some b => [b] | None => [] end) ++ snake g.

Lemma boardSprites_pos (g : Game) :
  playing g = true -> spritePos <$> boardSprites g = cellPos <$> boardCells g.
Proof.
  intros Hp. unfold boardSprites, boardCells. rewrite Hp, fmap_cons, !fmap_app, snakeSprites_pos.
  by destruct (bonusFood g).
Qed.

Lemma elem_of_boardSprites (sp : Sprite) (g : Game) :
  sp ∈ boardSprites g -> exists k p, p ∈ boardCells g /\ sp = cellSprite k p.
Proof.
  unfold boardSprites, boardCells. destruct (playing g); [|by intros ?%not_elem_of_nil].
  rewrite elem_of_cons, elem_of_app. intros [-> | [Hb | (k & p & Hp & ->)%elem_of_snakeSprites]].
  - exists FoodSprite, (food g). split; [left|]; done.
  - destruct (bonusFood g) as [b|]; [|by apply not_elem_of_nil in Hb].
    apply list_elem_of_singleton in Hb as ->. exists BonusSprite, b. split; [set_solver|done].
  - exists k, p. split; [set_solver|done].
Qed.

Lemma boardCells_inBounds (g : Game) (p : Point) : game_wf g -> p ∈ boardCells g -> inBounds p.
Proof.
  intros Hwf. pose proof (wf_snake _ Hwf) as (_ & _ & Hb & _). unfold boardCells.
  rewrite elem_of_cons, elem_of_app. intros [-> | [Hp | Hp]].
  - apply (wf_food_in _ Hwf).
  - destruct (bonusFood g) as [b|] eqn:E; [|by apply not_elem_of_nil in Hp].
    apply list_elem_of_singleton in Hp as ->. by apply (wf_bonus _ Hwf).
  - by eapply Forall_forall.
Qed.

Lemma buttons_enabled_b (g : Game) (ev : Event) :
  clickEvent ev = true -> bool_decide (ev ∈ buttons true g) = enabled g ev.
Proof.
  destruct g as [gs gm ? ? ? ? ? ? ? paused ? ? ?].
  destruct ev; try discriminate; intros _; destruct gs, gm, paused; try destruct d; try destruct m;
    reflexivity.
Qed.

(** The direction between two neighbouring cells is one of the four unit steps. *)
Lemma adjacent_cases (p q : Point) :
  adjacent p q = true ->
  (x p - x q = 1 /\ y p = y q) \/ (x p - x q = -1 /\ y p = y q) \/
  (x p = x q /\ y p - y q = 1) \/ (x p = x q /\ y p - y q = -1).
Proof. unfold adjacent. rewrite Z.eqb_eq. lia. Qed.

(** ** The page *)

(** C30: every cell drawn on the board of a well-formed state (food,
    bonus food and each snake segment) lies inside the board's box:
    [0% <= left] and [left + width <= 100%], and the same for [top]. *)
Theorem boardSprites_in_board (g : Game) (sp : Sprite) :
  game_wf g -> sp ∈ boardSprites g -> spriteInBoard sp.
Proof.
  intros Hwf (k & p & Hp & ->)%elem_of_boardSprites.
  apply cellSprite_in_board. by eapply boardCells_inBounds.
Qed.

(** C28: the head's rotation encodes the last move of the snake exactly:
    for a connected snake of two or more segments, the direction the
    rotation shows is the step from the neck to the head. *)
Theorem headRotation_roundtrip (h n : Point) (t : list Point) :
  linked (h :: n :: t) = true ->
  rotVector (headRotation (h :: n :: t)) = ⟨x h - x n, y h - y n⟩.
Proof.
  rewrite linked_cons, andb_true_iff. intros [Hadj _]. apply adjacent_cases in Hadj.
  unfold headRotation, rotVector.
  destruct (Z.ltb_spec (x n) (x h)); [|destruct (Z.ltb_spec (x h) (x n));
    [|destruct (Z.ltb_spec (y n) (y h))]]; simpl; f_equal; lia.
Qed.

(** C31: a new game draws its one-segment head rotated by 0 degrees,
    facing up, while the snake moves right: the rotation is computed from
    [snake[1]] only, and the component never reads [direction]. *)
Theorem resetGame_head_faces_up {Rs : Type} `{!MathRandom Rs}
    (fuel : nat) (m : GameMode) (g g' : Game) (s s' : Rs) :
  run (resetGame fuel m g) s = (Done g', s') ->
  cellSprite (HeadSprite 0) ⟨10, 10⟩ ∈ boardSprites g' /\
  direction g' = ⟨1, 0⟩ /\ rotVector 0 <> direction g'.
Proof.
  unfold resetGame. rand_simpl.
  destruct (generateFood fuel [⟨10, 10⟩] s) as [[f|] s1]; [|done].
  intros [= <- _]. split_and!; [|done|done]. unfold boardSprites, snakeSprites. simpl. set_solver.
Qed.

(** C32: the cells drawn on the board of a well-formed PLAYING state are
    pairwise distinct exactly when the bonus food is not on the food: the
    snake's segments never share a cell with each other, the food or the
    bonus, but a bonus placed on the food is drawn over it. *)
Theorem boardSprites_distinct (g : Game) :
  game_wf g -> playing g = true ->
  NoDup (spritePos <$> boardSprites g) <-> bonusFood g <> Some (food g).
Proof.
  intros Hwf Hp. rewrite boardSprites_pos by done.
  split; [intros Hnd%NoDup_fmap_1 | intros Hne; apply NoDup_fmap_2; [apply _|]];
    unfold boardCells in *; pose proof (wf_snake _ Hwf) as (_ & Hsn & _);
    pose proof (wf_food_free _ Hwf); pose proof (wf_bonus _ Hwf);
    destruct (bonusFood g) as [b|]; simpl in *; try done.
  - intros [= ->]. apply NoDup_cons in Hnd as [Hn _]. set_solver.
  - destruct (H0 b eq_refl). apply NoDup_cons; split; [set_solver|]. by apply NoDup_cons.
  - by apply NoDup_cons.
Qed.

(** C33: the mounted page is well formed in every state: exactly one of
    the board, the menu and the game-over panel has content, the title is
    shown exactly when the touch arrows are not, the arrows exactly when
    the board has content, and the pause overlay only with the pause
    button showing the play icon.  Before the mount effect has run, the
    skeleton is shown instead. *)
Theorem render_wf (mounted : bool) (g : Game) :
  match render mounted g with Shown p => page_wf p | Skeleton => mounted = false end.
Proof.
  destruct mounted; [|done]. unfold render, page_wf, boardSprites, playing. simpl.
  destruct (gameState g), (isPaused g); simpl; split_and!; try done; by rewrite bool_decide_true.
Qed.

(** ** Witnesses *)

(** Food and bonus food on (11, 10), the head on (10, 10). *)
Lemma bothGame_wf : game_wf bothGame.
Proof. split; try decide_prop; try done. intros b [= <-]. split; decide_prop. Qed.

Lemma boardSprites_in_board_witness :
  game_wf bothGame /\ cellSprite (HeadSprite 0) ⟨10, 10⟩ ∈ boardSprites bothGame /\
  spriteInBoard (cellSprite (HeadSprite 0) ⟨10, 10⟩).
Proof.
  assert (H : cellSprite (HeadSprite 0) ⟨10, 10⟩ ∈ boardSprites bothGame)
    by (vm_compute; right; right; left).
  split_and!; [exact bothGame_wf | exact H |].
  exact (boardSprites_in_board bothGame _ bothGame_wf H).
Defined.

Lemma headRotation_roundtrip_witness :
  linked [⟨5, 5⟩; ⟨4, 5⟩; ⟨4, 6⟩] = true /\ rotVector (headRotation [⟨5, 5⟩; ⟨4, 5⟩; ⟨4, 6⟩]) = ⟨1, 0⟩.
Proof.
  split; [reflexivity|]. exact (headRotation_roundtrip ⟨5, 5⟩ ⟨4, 5⟩ [⟨4, 6⟩] eq_refl).
Defined.

Lemma resetGame_head_faces_up_witness :
  run (resetGame 1 UNLIMITED initialGame) (mkTape (tapeOf ⟨15, 10⟩)) = (Done startedGame, mkTape []) /\
  cellSprite (HeadSprite 0) ⟨10, 10⟩ ∈ boardSprites startedGame /\
  direction startedGame = ⟨1, 0⟩ /\ rotVector 0 <> direction startedGame.
Proof.
  assert (H : run (resetGame 1 UNLIMITED initialGame) (mkTape (tapeOf ⟨15, 10⟩)) = (Done startedGame, mkTape []))
    by (vm_compute; reflexivity).
  split; [exact H|]. exact (resetGame_head_faces_up 1 UNLIMITED initialGame startedGame _ _ H).
Defined.

Lemma boardSprites_distinct_witness :
  game_wf bothGame /\ playing bothGame = true /\ ~ NoDup (spritePos <$> boardSprites bothGame).
Proof.
  split_and!; [exact bothGame_wf | reflexivity |].
  rewrite (boardSprites_distinct bothGame bothGame_wf eq_refl). by intros [].
Defined.
