(* ===== verification/App.v ===== *)
(** * App: the [SnakeGame] component around the hook, from mount to unmount

    [SnakeGame] (src/components/SnakeGame.tsx) calls [useSnakeGame()] and
    destructures what it returns (lines 9-26; the hook's [return] is
    useSnakeGame.ts lines 229-247).  [HookResult] is that object: the
    render's values and the hook's callbacks, and [useSnakeGame g] builds
    it for a render of the state [g].  [onControl] is what the page's
    controls run through it: [onClick={togglePause}],
    [() => setDifficulty(d)], [() => resetGame(mode)],
    [() => setGameState("MENU")] and the touch arrows'
    [handleDirection(d)].  [onControl_step] proves that these are the
    callbacks [Machine.step] runs.

    [App] adds the component's own state and the window: [mounted] (line
    8, set by the effect of lines 29-31), the [keydown] listeners of the
    window (the input effect of useSnakeGame.ts lines 181-198 adds one on
    its run and its cleanup removes it), and whether the component is in
    the tree.  [mountCommit] is the first commit: the effects run in the
    order they are declared (bonus timer, input, game loop, countdown, then
    the component's mount effect); none of them runs again afterwards
    except through [commit], since the input effect depends only on the
    stable [handleDirection] ([useCallback(..., [])]) and the mount effect
    on nothing.  [unmountApp] runs every cleanup.  [astep] interleaves the
    first commit, the hook's timers, clicks on the rendered controls, key
    presses delivered by the window to its listeners ([dispatchKey]), and
    the unmount.

    [app_lifecycle] proves that on every run of the page, once mounted the
    window has exactly one keydown listener and the hook's state is one
    the scheduler reaches ([Scheduler.srun] from [mountSched]), so the
    theorems of [Scheduler] and [Machine] hold of the page; and after the
    unmount no timer is armed and no listener is left. *)

From S2P Require Import Prelude Grid Random Food Snake Direction Engine Machine Tick Scheduler Render.
From Stdlib Require String.

(** ** The hook's return value *)

Section hook.
Context {Rs : Type} `{!MathRandom Rs}.

(** [return { gameState, setGameState, ..., GRID_SIZE }].  The values are
    those of the render; the callbacks are the engine's, and run on the
    state current when they are called (they use functional updates and
    refs), which is the render's state for a control of that render. *)
Record HookResult := mkHookResult {
  hookGameState : GameState;
  hookSetGameState : GameState -> Game -> Game;
  hookGameMode : GameMode;
  hookDifficulty : Difficulty;
  hookSetDifficulty : Difficulty -> Game -> Game;
  hookSnake : list Point;
  hookFood : Point;
  hookBonusFood : option Point;
  hookDirection : Point;
  hookScore : Z;
  hookHighScore : Z;
  hookTimeLeft : Z;
  hookResetGame : nat -> GameMode -> Game -> RandM Rs Outcome;
  hookHandleDirection : Dir -> Game -> Game;
  hookIsPaused : bool;
  hookTogglePause : Game -> Game;
  hookGRID_SIZE : Z
}.

(** [const { ... } = useSnakeGame()] for a render of the state [g]. *)
Definition useSnakeGame (g : Game) : HookResult := {|
  hookGameState := gameState g;
  hookSetGameState := setGameState;
  hookGameMode := gameMode g;
  hookDifficulty := difficulty g;
  hookSetDifficulty := setDifficulty;
  hookSnake := snake g;
  hookFood := food g;
  hookBonusFood := bonusFood g;
  hookDirection := direction g;
  hookScore := score g;
  hookHighScore := highScore g;
  hookTimeLeft := timeLeft g;
  hookResetGame := resetGame;
  hookHandleDirection := fun d g' => handleDirection g' d;
  hookIsPaused := isPaused g;
  hookTogglePause := togglePause;
  hookGRID_SIZE := GRID_SIZE |}.

(** The handler of each control of the page, through the destructured
    hook (lines 88, 195, 216, 231, 247, 274, 280, 297-316); the events
    that no control fires change nothing here. *)
Definition onControl (fuel : nat) (h : HookResult) (ev : Event) (g : Game) : RandM Rs Outcome :=
  match ev with
  | EvTogglePause => mret (Done (hookTogglePause h g))
  | EvSelectDifficulty d => mret (Done (hookSetDifficulty h d g))
  | EvStart m => hookResetGame h fuel m g
  | EvChangeMode => mret (Done (hookSetGameState h MENU g))
  | EvTouch d => mret (Done (hookHandleDirection h d g))
  | EvTick | EvSecond | EvBonusTimeout | EvKeyDown _ => mret (Done g)
  end.
End hook.

Arguments HookResult Rs : clear implicits.

(** ** The page in the window *)

(** A keydown listener: the [handleKeyDown] closure created by one run of
    the input effect, named by the number of that run. *)
Definition Listener := nat.

Record App := mkApp {
  mounted : bool;                 (** [useState(false)], line 8 *)
  sched : Sched;                  (** the hook's state and timers *)
  keyListeners : list Listener;   (** the window's keydown listeners, in order *)
  inputCleanup : option Listener; (** the listener the input effect's cleanup removes *)
  nextListener : Listener;        (** the name of the next effect run's closure *)
  inTree : bool                   (** the component is mounted in the tree *)
}.

(** After the first render, before its commit: the skeleton is shown. *)
Definition appStart : App := mkApp false mountSched [] None O true.

Definition setSched (sc : Sched) (a : App) : App :=
  mkApp (mounted a) sc (keyListeners a) (inputCleanup a) (nextListener a) (inTree a).

(** The window delivers a keydown event to each listener in turn; each
    runs [handleKeyDown], which calls [handleDirection] on an arrow key. *)
Definition dispatchKey (ls : list Listener) (key : String.string) (g : Game) : Game :=
  fold_left (fun g' _ => match snd (handleKeyDown key) with
                         | Some d => handleDirection g' d
                         | None => g'
                         end) ls g.

(** *** The effects of the first commit, in the order they are declared *)

(** The bonus timer effect (lines 62-67). *)
Definition bonusEffect (a : App) : App :=
  let sc := sched a in
  setSched (mkSched (game sc) (now sc) (gameLoopRef sc) (countdownTimer sc)
                    (armBonus (now sc) (game sc))) a.

(** The input effect: [window.addEventListener("keydown", handleKeyDown)] (line 196). *)
Definition inputEffect (a : App) : App :=
  mkApp (mounted a) (sched a) (keyListeners a ++ [nextListener a]) (Some (nextListener a))
        (S (nextListener a)) (inTree a).

(** The game loop effect (lines 200-205). *)
Definition loopEffect (a : App) : App :=
  let sc := sched a in
  setSched (mkSched (game sc) (now sc) (armGameLoop (now sc) (game sc)) (countdownTimer sc)
                    (bonusTimer sc)) a.

(** The countdown effect (lines 213-226). *)
Definition timerEffect (a : App) : App :=
  let sc := sched a in
  setSched (mkSched (game sc) (now sc) (gameLoopRef sc) (armCountdown (now sc) (game sc))
                    (bonusTimer sc)) a.

(** [useEffect(() => { setMounted(true); }, [])] (SnakeGame.tsx lines 29-31). *)
Definition mountedEffect (a : App) : App :=
  mkApp true (sched a) (keyListeners a) (inputCleanup a) (nextListener a) (inTree a).

(** The first commit: every effect runs once, in order. *)
Definition mountCommit (a : App) : App :=
  fold_left (fun a' eff => eff a') [bonusEffect; inputEffect; loopEffect; timerEffect; mountedEffect] a.

(** *** The cleanups, run when the component leaves the tree *)

(** [return () => clearTimeout(timer)] (line 66). *)
Definition bonusCleanup (a : App) : App :=
  let sc := sched a in
  setSched (mkSched (game sc) (now sc) (gameLoopRef sc) (countdownTimer sc) None) a.

(** [return () => window.removeEventListener("keydown", handleKeyDown)] (line 197). *)
Definition inputCleanupRun (a : App) : App :=
  match inputCleanup a with
  | Some l => mkApp (mounted a) (sched a) (remove Nat.eq_dec l (keyListeners a)) None
                    (nextListener a) (inTree a)
  | None => a
  end.

(** [if (gameLoopRef.current) clearInterval(gameLoopRef.current)] (lines 208-210). *)
Definition loopCleanup (a : App) : App :=
  let sc := sched a in
  setSched (mkSched (game sc) (now sc) None (countdownTimer sc) (bonusTimer sc)) a.

(** [return () => clearInterval(timer)] (line 225). *)
Definition timerCleanup (a : App) : App :=
  let sc := sched a in
  setSched (mkSched (game sc) (now sc) (gameLoopRef sc) None (bonusTimer sc)) a.

(** Unmounting: every cleanup runs, then the component is gone. *)
Definition unmountApp (a : App) : App :=
  let a' := fold_left (fun a' c => c a') [bonusCleanup; inputCleanupRun; loopCleanup; timerCleanup] a in
  mkApp (mounted a') (sched a') (keyListeners a') (inputCleanup a') (nextListener a') false.

(** ** Runs of the page *)

Inductive ALabel :=
  | AMount                                (** the first commit *)
  | ATimer (l : SLabel)                   (** a timer of the hook fires *)
  | AClick (ev : Event)                   (** a click or touch on a rendered control *)
  | AKey (key : String.string) (t : Z)    (** a key press at time [t] *)
  | AUnmount.

(** The timers' labels of the scheduler. *)
Definition timerLabel (l : SLabel) : bool := match l with LUser _ => false | _ => true end.

Section app.
Context {Rs : Type} `{!MathRandom Rs}.

Inductive astep : App -> ALabel -> App -> Prop :=
  | as_mount a :
      inTree a = true -> mounted a = false -> astep a AMount (mountCommit a)
  | as_timer a l sc' :
      inTree a = true -> timerLabel l = true -> sstep Rs (sched a) l sc' ->
      astep a (ATimer l) (setSched sc' a)
  | as_click a ev t fuel s g' s' :
      inTree a = true -> ev ∈ buttons (mounted a) (game (sched a)) ->
      now (sched a) <= t -> noTimerBefore t (sched a) ->
      run (onControl fuel (useSnakeGame (game (sched a))) ev (game (sched a))) s = (Done g', s') ->
      astep a (AClick ev)
        (setSched (commit (game (sched a)) (mkSched g' t (gameLoopRef (sched a))
                     (countdownTimer (sched a)) (bonusTimer (sched a)))) a)
  | as_key a key t :
      inTree a = true -> mounted a = true ->
      now (sched a) <= t -> noTimerBefore t (sched a) ->
      astep a (AKey key t)
        (setSched (commit (game (sched a)) (mkSched (dispatchKey (keyListeners a) key (game (sched a))) t
                     (gameLoopRef (sched a)) (countdownTimer (sched a)) (bonusTimer (sched a)))) a)
  | as_unmount a :
      inTree a = true -> astep a AUnmount (unmountApp a).

Inductive arun : App -> list ALabel -> App -> Prop :=
  | arun_nil a : arun a [] a
  | arun_cons a l a' ls a'' : astep a l a' -> arun a' ls a'' -> arun a (l :: ls) a''.
End app.

Arguments astep Rs {_} _ _ _.
Arguments arun Rs {_} _ _ _.

(** ** The page's handlers are the machine's callbacks *)

Lemma onControl_step {Rs : Type} `{!MathRandom Rs} (fuel : nat) (g : Game) (ev : Event) :
  clickEvent ev = true -> onControl fuel (useSnakeGame g) ev g = step fuel g ev.
Proof. by destruct ev. Qed.

Lemma buttons_clickEvent (b : bool) (g : Game) (ev : Event) :
  ev ∈ buttons b g -> clickEvent ev = true.
Proof.
  destruct g as [gs gm ? ? ? ? ? ? ? paused ? ? ?].
  destruct ev; try done; destruct b, gs, gm, paused; unfold buttons; simpl; intros H;
    repeat match goal with
    | H : _ ∈ _ :: _ |- _ => apply elem_of_cons in H as [H|H]; [discriminate|]
    | H : _ ∈ [] |- _ => by apply not_elem_of_nil in H
    end.
Qed.

(** A control of the mounted page fires an enabled user event. *)
Lemma button_enabled (g : Game) (ev : Event) :
  ev ∈ buttons true g -> userEvent ev = true /\ enabled g ev = true.
Proof.
  intros Hin. pose proof (buttons_clickEvent _ _ _ Hin) as Hc.
  rewrite <- (buttons_enabled_b g ev Hc), bool_decide_eq_true.
  split; [by destruct ev|done].
Qed.

(** With one listener, the window runs the keydown callback once. *)
Lemma dispatchKey_one {Rs : Type} `{!MathRandom Rs} (l : Listener) (key : String.string)
    (fuel : nat) (g : Game) (s : Rs) :
  run (step fuel g (EvKeyDown key)) s = (Done (dispatchKey [l] key g), s).
Proof. reflexivity. Qed.

(** ** Runs of the scheduler, extended at their end *)

Lemma srun_snoc {Rs : Type} `{!MathRandom Rs} (sc sc' sc'' : Sched) (ls : list SLabel) (l : SLabel) :
  srun Rs sc ls sc' -> sstep Rs sc' l sc'' -> srun Rs sc (ls ++ [l]) sc''.
Proof.
  induction 1 as [|? ? ? ? ? Hst _ IH]; intros Hl; simpl.
  - econstructor; [done|constructor].
  - econstructor; [done|auto].
Qed.

Definition schedReached {Rs : Type} `{!MathRandom Rs} (sc : Sched) : Prop :=
  exists ls, srun Rs mountSched ls sc.

Lemma schedReached_step {Rs : Type} `{!MathRandom Rs} (sc sc' : Sched) (l : SLabel) :
  schedReached sc -> sstep Rs sc l sc' -> schedReached sc'.
Proof. intros [ls Hr] Hst. exists (ls ++ [l]). by eapply srun_snoc. Qed.

#[export] Hint Resolve schedReached_step : snake.

(** ** The lifecycle invariant *)

(** No timer armed and no listener left. *)
Definition appClean (a : App) : Prop :=
  keyListeners a = [] /\ gameLoopRef (sched a) = None /\ countdownTimer (sched a) = None /\
  bonusTimer (sched a) = None.

(** The listeners are the one the input effect's cleanup will remove. *)
Definition listenersOwned (a : App) : Prop :=
  keyListeners a = match inputCleanup a with Some l => [l] | None => [] end.

Lemma unmountApp_clean (a : App) : listenersOwned a -> inTree (unmountApp a) = false /\ appClean (unmountApp a).
Proof.
  destruct a as [m sc ls [l|] n t]; unfold listenersOwned; simpl; intros ->; [|done].
  unfold unmountApp, appClean. simpl. by destruct (Nat.eq_dec l l).
Qed.

(** The first commit from the start: the menu is shown, no timer is
    armed and the window has the one listener of the input effect. *)
Lemma mountCommit_appStart : mountCommit appStart = mkApp true mountSched [O] (Some O) 1%nat true.
Proof. reflexivity. Qed.

Section lifecycle.
Context {Rs : Type} `{!MathRandom Rs, !Inhabited Rs}.

(** The states of the page: before the first commit, mounted, unmounted. *)
Definition app_inv (a : App) : Prop :=
  a = appStart \/
  (inTree a = true /\ mounted a = true /\ listenersOwned a /\ is_Some (inputCleanup a) /\
   schedReached (Rs := Rs) (sched a)) \/
  (inTree a = false /\ appClean a).

Lemma app_inv_start : app_inv appStart.
Proof. by left. Qed.

Lemma astep_inv (a a' : App) (l : ALabel) : app_inv a -> astep Rs a l a' -> app_inv a'.
Proof.
  intros Hinv Hst. destruct Hinv as [->|[(Ht & Hm & Ho & Hc & Hr)|(Ht & _)]].
  - inversion Hst as [? _ _|? l' ? _ Htl Hs|? ? ? ? ? ? ? _ Hin|? ? ? _ Hm|]; subst.
    + right; left. rewrite mountCommit_appStart. split_and!; try done. exists []. constructor.
    + inversion Hs; subst; simpl in *; discriminate.
    + by apply not_elem_of_nil in Hin.
    + discriminate.
    + right; right. by apply unmountApp_clean.
  - inversion Hst as [? _ Hm'|? ? ? _ _ Hs|? ? t fuel s g' s' _ Hin Hnow Hno Hrun|? ? t _ _ Hnow Hno|];
      subst; try congruence.
    + right; left. split_and!; eauto with snake.
    + right; left. split_and!; try done.
      rewrite Hm in Hin. destruct (button_enabled _ _ Hin) as [Hu Hen].
      rewrite onControl_step in Hrun by eauto using buttons_clickEvent.
      eapply schedReached_step; [done|]. by econstructor.
    + right; left. split_and!; try done.
      destruct Hc as [l' Hl']. unfold listenersOwned in Ho. rewrite Hl' in Ho. rewrite Ho.
      eapply schedReached_step; [done|].
      eapply (ss_user _ (EvKeyDown key) _ O inhabitant); [done..|apply dispatchKey_one].
    + right; right. by apply unmountApp_clean.
  - inversion Hst; congruence.
Qed.
End lifecycle.

Section lifecycle_runs.
Context {Rs : Type} `{!MathRandom Rs, !Inhabited Rs}.

Lemma arun_inv (a a' : App) (ls : list ALabel) :
  app_inv (Rs := Rs) a -> arun Rs a ls a' -> app_inv (Rs := Rs) a'.
Proof. intros Hi Hr. induction Hr; eauto using astep_inv. Qed.

(** C40: on every run of the page, from its first render to its
    unmount: while it is mounted, the window has exactly one keydown
    listener, so a key press runs [handleKeyDown] once, and the hook's
    state and timers are a state the scheduler reaches from [mountSched],
    so the theorems of [Scheduler] and [Machine] hold of the page; once
    it is unmounted, no keydown listener is left on the window and the
    game loop, the countdown and the bonus timeout are all cleared. *)
Theorem app_lifecycle (a : App) (ls : list ALabel) :
  arun Rs appStart ls a ->
  (inTree a = true -> mounted a = true ->
     (exists l, keyListeners a = [l]) /\ exists sls, srun Rs mountSched sls (sched a)) /\
  (inTree a = false ->
     keyListeners a = [] /\ gameLoopRef (sched a) = None /\ countdownTimer (sched a) = None /\
     bonusTimer (sched a) = None).
Proof.
  intros Hr. destruct (arun_inv _ _ _ app_inv_start Hr) as [->|[(Ht & Hm & Ho & [l Hl] & Hs)|(Ht & Hc)]].
  - split; [discriminate|discriminate].
  - split; [|congruence]. intros _ _. split; [|done]. exists l. by rewrite Ho, Hl.
  - split; [congruence|done].
Qed.
End lifecycle_runs.

(** ** A run of the page: mount, one key press, unmount *)

Definition mountedApp : App := mountCommit appStart.

Definition keyedApp : App :=
  setSched (commit (game (sched mountedApp))
              (mkSched (dispatchKey (keyListeners mountedApp) (arrowKey UP) (game (sched mountedApp))) 5
                 (gameLoopRef (sched mountedApp)) (countdownTimer (sched mountedApp))
                 (bonusTimer (sched mountedApp)))) mountedApp.

Definition closedApp : App := unmountApp keyedApp.

Lemma arun_closedApp : arun Tape appStart [AMount; AKey (arrowKey UP) 5; AUnmount] closedApp.
Proof.
  apply (arun_cons _ _ mountedApp); [by constructor|].
  apply (arun_cons _ _ keyedApp); [apply as_key; vm_compute; try done; split_and!; done|].
  apply (arun_cons _ _ closedApp); [by constructor|constructor].
Qed.

Lemma app_lifecycle_witness :
  arun Tape appStart [AMount; AKey (arrowKey UP) 5; AUnmount] closedApp /\
  keyListeners closedApp = [] /\ gameLoopRef (sched closedApp) = None /\
  countdownTimer (sched closedApp) = None /\ bonusTimer (sched closedApp) = None.
Proof.
  split; [exact arun_closedApp|].
  apply (proj2 (app_lifecycle closedApp _ arun_closedApp)). vm_compute. reflexivity.
Defined.
